(** * Rappi product scraper: extraction, retry and cleaning pipeline

    A shallow embedding of [Rappi_products_extraction.py]: the cleaning stage
    [ScraperRappiProducts.process_data] (a pandas pipeline), the per-restaurant
    task [extract_products], the DOM fallback [scrap_restaurante] /
    [scrap_product], the traversal [extract_data], the top level [run] /
    [main], the worker pool with the steps of its tasks interleaved, and
    the report of a run: [Metadata] and the workbook that [save_metadata]
    fills.

    Python values are modelled as the code has them: prices are binary64
    floats (Rocq's primitive floats), strings are byte strings, [None]/[NaN]
    are explicit constructors, exceptions are values of a result type, and
    the browser is a record of the outcomes its calls produce. *)

From Stdlib Require Import ZArith Ascii String Floats DecimalString Sorted Lia.
From stdpp Require Import base option list strings.

Local Open Scope string_scope.
Local Open Scope list_scope.
Local Open Scope Z_scope.

(** ** Python floats: [round(x, 2)], the format [{:,.2f}] and [float(str)] *)

Module PyFloat.

(** Round-half-to-even of the non-negative rational [n / d]. *)
Definition round_half_even (n : Z) (d : positive) : Z :=
  let q := n / Z.pos d in
  let r := n mod Z.pos d in
  match 2 * r ?= Z.pos d with
  | Lt => q
  | Gt => q + 1
  | Eq => if Z.even q then q else q + 1
  end.

(** [|x| * 100] rounded to the nearest integer (ties to even), for the finite
    binary64 value [|x| = m * 2^e]: the digits Python's correctly rounded
    [%.2f] conversion prints. *)
Definition hundredths (m : positive) (e : Z) : Z :=
  if 0 <=? e then 100 * Z.pos m * 2 ^ e
  else round_half_even (100 * Z.pos m) (Z.to_pos (2 ^ (- e))).

(** The binary64 float nearest to the non-negative rational [n / d]
    (ties to even), as [strtod] returns it. *)
Definition nearest_double (n : Z) (d : positive) : float :=
  if n <=? 0 then PrimFloat.zero
  else
    let l := Z.log2 n - Z.log2 (Z.pos d) in
    let e0 := if Z.pos d * 2 ^ Z.max l 0 <=? n * 2 ^ Z.max (- l) 0
              then l - 52 else l - 53 in
    let e := Z.max e0 (-1074) in
    if 1100 <? e then PrimFloat.infinity
    else
      let m := if 0 <=? e then round_half_even n (Z.to_pos (Z.pos d * 2 ^ e))
               else round_half_even (n * 2 ^ (- e)) d in
      match m with
      | Z.pos p => SF2Prim (S754_finite false p e)
      | _ => PrimFloat.zero
      end.

Definition with_sign (s : bool) (x : float) : float :=
  if s then PrimFloat.opp x else x.

(** [round(x, 2)]: NaN and infinities round to themselves; a finite value is
    printed with two correctly rounded decimals and read back. *)
Definition round2 (x : float) : float :=
  match Prim2SF x with
  | S754_finite s m e => with_sign s (nearest_double (hundredths m e) 100)
  | _ => x
  end.

(** The character of a decimal digit. *)
Definition digit_char (d : Z) : ascii := ascii_of_N (Z.to_N (d + 48)).

(** The decimal digits of [n], most significant first, before [acc]; one
    digit per unit of fuel. *)
Fixpoint digits_from (fuel : nat) (n : Z) (acc : list ascii) : list ascii :=
  match fuel with
  | O => acc
  | S fuel' =>
      let acc := digit_char (n mod 10) :: acc in
      if n <? 10 then acc else digits_from fuel' (n / 10) acc
  end.

(** A number has no more decimal digits than binary ones. *)
Definition digits_of (n : Z) : list ascii :=
  digits_from (S (Z.to_nat (Z.log2 n))) n [].

(** Commas between groups of three digits, on the reversed digit list;
    [cnt] digits of the current group are already out. *)
Fixpoint group_rev (cnt : nat) (l : list ascii) : list ascii :=
  match l with
  | [] => []
  | c :: l' =>
      match cnt with
      | 3%nat => ","%char :: c :: group_rev 1 l'
      | _ => c :: group_rev (S cnt) l'
      end
  end.

Definition thousands (ds : list ascii) : list ascii :=
  rev (group_rev 0 (rev ds)).

(** [k] hundredths, with commas in the integer part and two decimals. *)
Definition cents (k : Z) : list ascii :=
  thousands (digits_of (k / 100))
    ++ "."%char :: digit_char (k mod 100 / 10) :: [digit_char (k mod 10)].

Definition sign_chars (s : bool) : list ascii :=
  if s then ["-"%char] else [].

(** The format [{:,.2f}] of a float. *)
Definition format_2f (x : float) : string :=
  match Prim2SF x with
  | S754_nan => "nan"
  | S754_infinity s => if s then "-inf" else "inf"
  | S754_zero s => string_of_list_ascii (sign_chars s ++ cents 0)
  | S754_finite s m e =>
      string_of_list_ascii (sign_chars s ++ cents (hundredths m e))
  end.

(** *** [float(s)] on a string

    The grammar of Python's [float()]: surrounding white space, an optional
    sign, then [inf], [infinity] or [nan] in any letter case, or a decimal
    number whose digits may be separated by single underscores, with an
    optional fraction and exponent. Strings are byte strings here: digits
    and white space outside ASCII, which Python also reads, are not
    recognised. The white space of
    ASCII that [float()] takes off is the tab, the line feed, the vertical
    tab, the form feed, the carriage return and the space; the separators
    28 to 31, which [str.strip] removes, are no white space for it. *)

Definition is_digit (c : ascii) : bool :=
  let n := N_of_ascii c in ((48 <=? n) && (n <=? 57))%N.

Definition digit_val (c : ascii) : Z := Z.of_N (N_of_ascii c) - 48.

Definition is_space (c : ascii) : bool :=
  let n := N_of_ascii c in
  (((9 <=? n) && (n <=? 13)) || (n =? 32))%N.

Definition lower (c : ascii) : ascii :=
  let n := N_of_ascii c in
  if ((65 <=? n) && (n <=? 90))%N then ascii_of_N (n + 32) else c.

Fixpoint lstrip (l : list ascii) : list ascii :=
  match l with
  | c :: l' => if is_space c then lstrip l' else l
  | [] => []
  end.

Definition strip (l : list ascii) : list ascii :=
  rev (lstrip (rev (lstrip l))).

(** Digits, each possibly after one underscore: the digits read and what
    is left. *)
Fixpoint digit_tail (l : list ascii) : list Z * list ascii :=
  match l with
  | c :: l' =>
      if is_digit c then
        let '(ds, r) := digit_tail l' in (digit_val c :: ds, r)
      else if Ascii.eqb c "_" then
        match l' with
        | c2 :: l'' =>
            if is_digit c2 then
              let '(ds, r) := digit_tail l'' in (digit_val c2 :: ds, r)
            else ([], l)
        | [] => ([], l)
        end
      else ([], l)
  | [] => ([], [])
  end.

(** A digit, then digits each possibly after one underscore. *)
Definition digitpart (l : list ascii) : option (list Z * list ascii) :=
  match l with
  | c :: l' =>
      if is_digit c then
        let '(ds, r) := digit_tail l' in Some (digit_val c :: ds, r)
      else None
  | [] => None
  end.

(** A number: integer digits with an optional point and fraction, or a
    point and fraction digits. Returns integer digits, fraction digits, rest. *)
Definition number (l : list ascii)
  : option (list Z * list Z * list ascii) :=
  match digitpart l with
  | Some (ip, r) =>
      match r with
      | c :: r' =>
          if Ascii.eqb c "." then
            match digitpart r' with
            | Some (fp, r'') => Some (ip, fp, r'')
            | None => Some (ip, [], r')
            end
          else Some (ip, [], r)
      | [] => Some (ip, [], [])
      end
  | None =>
      match l with
      | c :: r' =>
          if Ascii.eqb c "." then
            match digitpart r' with
            | Some (fp, r'') => Some ([], fp, r'')
            | None => None
            end
          else None
      | [] => None
      end
  end.

Definition Z_of_digits (ds : list Z) : Z :=
  fold_left (fun acc d => 10 * acc + d) ds 0.

(** Optional sign: [true] for a minus. *)
Definition sign (l : list ascii) : bool * list ascii :=
  match l with
  | c :: l' =>
      if Ascii.eqb c "-" then (true, l')
      else if Ascii.eqb c "+" then (false, l')
      else (false, l)
  | [] => (false, [])
  end.

(** The letter e in either case, an optional sign and digits, up to the end
    of the string; no exponent reads as 0. *)
Definition exponent (l : list ascii) : option Z :=
  match l with
  | [] => Some 0
  | c :: l' =>
      if Ascii.eqb (lower c) "e" then
        let '(s, l'') := sign l' in
        match digitpart l'' with
        | Some (ds, []) => Some (if s then - Z_of_digits ds else Z_of_digits ds)
        | _ => None
        end
      else None
  end.

Definition absfloatvalue (l : list ascii) : option float :=
  let w := string_of_list_ascii (map lower l) in
  if String.eqb w "inf" || String.eqb w "infinity" then Some PrimFloat.infinity
  else if String.eqb w "nan" then Some PrimFloat.nan
  else
    match number l with
    | Some (ip, fp, r) =>
        match exponent r with
        | Some ex =>
            let mant := Z_of_digits (ip ++ fp) in
            let e10 := ex - Z.of_nat (length fp) in
            Some (if 0 <=? e10 then nearest_double (mant * 10 ^ e10) 1
                  else nearest_double mant (Z.to_pos (10 ^ (- e10))))
        | None => None
        end
    | None => None
    end.

(** [float(s)]: [None] stands for [ValueError]. *)
Definition float_of_string (s : string) : option float :=
  let '(sg, l) := sign (strip (list_ascii_of_string s)) in
  match absfloatvalue l with
  | Some x => Some (with_sign sg x)
  | None => None
  end.

End PyFloat.

(** ** The regular expressions and string operations of the source *)

Module PyStr.

Definition newline : ascii := ascii_of_N 10.

Definition is_newline (c : ascii) : bool := Ascii.eqb c newline.

(** Where a greedy [.*] stops: the rest of the string from its first line
    break on ([.] matches every character but the line break). *)
Fixpoint skip_line (s : string) : string :=
  match s with
  | String c s' => if is_newline c then s else skip_line s'
  | EmptyString => EmptyString
  end.

(** What a greedy [.*] matches: the string up to its first line break. *)
Fixpoint take_line (s : string) : string :=
  match s with
  | String c s' => if is_newline c then EmptyString else String c (take_line s')
  | EmptyString => EmptyString
  end.

(** The pattern [ -.+] matches at the start of [s]: a blank, a dash and one
    more character of the line. *)
Definition suffix_starts (s : string) : bool :=
  match s with
  | String c (String d (String x _)) =>
      Ascii.eqb c " " && Ascii.eqb d "-" && negb (is_newline x)
  | _ => false
  end.

(** [re.sub] of the pattern [ -.+] by the empty string: every leftmost match
    is cut, to the end of its line. While [skipping], the characters belong
    to a match. *)
Fixpoint strip_suffix_from (skipping : bool) (s : string) : string :=
  match s with
  | EmptyString => EmptyString
  | String c s' =>
      if skipping then
        if is_newline c then String c (strip_suffix_from false s')
        else strip_suffix_from true s'
      else if suffix_starts s then strip_suffix_from true s'
      else String c (strip_suffix_from false s')
  end.

Definition strip_suffix (s : string) : string := strip_suffix_from false s.

(** [s] without the prefix [p], when it starts with it. *)
Fixpoint strip_prefix (p s : string) : option string :=
  match p, s with
  | EmptyString, _ => Some s
  | String a p', String b s' =>
      if Ascii.eqb a b then strip_prefix p' s' else None
  | String _ _, EmptyString => None
  end.

(** [re.sub] of the pattern [^Abre.+] by the label of a closed restaurant:
    the match is the word and the rest of the first line, which must not
    be empty. *)
Definition closed_label (s : string) : string :=
  match strip_prefix "Abre" s with
  | Some (String x r) =>
      if is_newline x then s else "Restaurante cerrado" +:+ skip_line r
  | _ => s
  end.

(** [re.sub] of one literal character by another. *)
Fixpoint replace_char (a b : ascii) (s : string) : string :=
  match s with
  | String c s' => String (if Ascii.eqb c a then b else c) (replace_char a b s')
  | EmptyString => EmptyString
  end.

(** The two regex replacements of the price columns on one cell: commas to
    semicolons and periods to commas, then semicolons to periods. *)
Definition swap_separators (s : string) : string :=
  replace_char ";" "." (replace_char "." "," (replace_char "," ";" s)).

(** [split] on the currency prefix [S/ ]: the pieces between the
    occurrences of the separator, read from the left; [cur] is the piece
    being read, reversed. *)
Fixpoint split_soles_from (cur : list ascii) (s : string) : list string :=
  match s with
  | EmptyString => [string_of_list_ascii (rev cur)]
  | String c s' =>
      match s' with
      | String d (String x s'') =>
          if Ascii.eqb c "S" && Ascii.eqb d "/" && Ascii.eqb x " "
          then string_of_list_ascii (rev cur) :: split_soles_from [] s''
          else split_soles_from (c :: cur) s'
      | _ => split_soles_from (c :: cur) s'
      end
  end.

Definition split_soles (s : string) : list string := split_soles_from [] s.

(** [re.search] in a link of the word [restaurantes/] followed by a greedy
    group of any characters: [group(1)] of the leftmost match, [None] when
    there is none. *)
Fixpoint search_restaurantes (s : string) : option string :=
  match strip_prefix "restaurantes/" s with
  | Some r => Some (take_line r)
  | None =>
      match s with
      | String _ s' => search_restaurantes s'
      | EmptyString => None
      end
  end.

End PyStr.

(** ** Exceptions *)

Inductive exn :=
  | TimeoutException | NoSuchElementException | StaleElementReferenceException
  | WebDriverException | UnboundLocalError | AttributeError | TypeError
  | KeyError | ValueError | OSError | IndexError.

(** The outcome of a call that may raise. *)
Inductive result (A : Type) :=
  | Ok (a : A)
  | Raise (e : exn).
Arguments Ok {A} a.
Arguments Raise {A} e.

(** ** The records and the data frame *)

(** A cell of the column [Popular]: [None], a Python [bool], or a string
    (what the column holds once it was cleaned). *)
Inductive popular :=
  | PopNone
  | PopBool (b : bool)
  | PopStr (s : string).

(** A cell of a price column: [None]/[NaN], a float (the network path
    reads JSON numbers) or a string (the DOM path reads text). *)
Inductive price :=
  | PriceNull
  | PriceNum (x : float)
  | PriceStr (s : string).

(** The eight values of one product, in the order both extraction paths
    emit them; the text columns are [None] or a string. *)
Record product := Product {
  Popular : popular;
  Producto : option string;
  Descripcion : option string;
  Precio_con_descuento : price;
  Precio_sin_descuento : price;
  Restaurante : option string;
  Disponible : option string;
  Categoria : option string
}.

(** A row of the data frame: the eight columns and [Fecha]. *)
Record row := Row {
  cells : product;
  Fecha : string
}.

Definition null_product : product :=
  Product PopNone None None PriceNull PriceNull None None None.

Definition is_empty_list (p : option product) : bool :=
  match p with
  | None => true
  | Some _ => false
  end.

(** The pandas calls of [process_data], on lists of rows. The calls that
    work in place on the frame or on one of its columns change the frame
    ([inplace=True], as pandas does without copy-on-write). *)
Module Frame.

(** [pd.DataFrame(products, columns=[...])]: an element of [products] is a
    list of eight values or the empty list (here [None]) that a failed
    [scrap_product] returns. Short rows are padded with [None]; when every
    row is empty the data has no column and the constructor raises. *)
Definition DataFrame (products : list (option product)) (fecha : string)
  : result (list row) :=
  match products with
  | [] => Ok []
  | _ :: _ =>
      if forallb is_empty_list products then Raise ValueError
      else Ok (map (fun p => Row (default null_product p) fecha) products)
  end.

(** *** [sort_values] *)

(** Ascending order of a text column, missing values last. *)
Definition text_compare (a b : option string) : comparison :=
  match a, b with
  | None, None => Eq
  | None, Some _ => Gt
  | Some _, None => Lt
  | Some x, Some y => String.compare x y
  end.

(** Ascending order of the values of [Popular]: [False] before [True],
    booleans before strings, strings by code point. *)
Definition popular_value_compare (a b : popular) : comparison :=
  match a, b with
  | PopBool x, PopBool y => Bool.compare x y
  | PopBool _, PopStr _ => Lt
  | PopStr _, PopBool _ => Gt
  | PopStr x, PopStr y => String.compare x y
  | _, _ => Eq
  end.

(** Descending order of [Popular], missing values still last. *)
Definition popular_compare_desc (a b : popular) : comparison :=
  match a, b with
  | PopNone, PopNone => Eq
  | PopNone, _ => Gt
  | _, PopNone => Lt
  | _, _ => CompOpp (popular_value_compare a b)
  end.

Definition lex (c1 c2 : comparison) : comparison :=
  match c1 with
  | Eq => c2
  | _ => c1
  end.

(** The order of [sort_values] by Restaurante, Producto and Descripcion
    ascending, then Popular descending. *)
Definition row_compare (r1 r2 : row) : comparison :=
  lex (text_compare (Restaurante (cells r1)) (Restaurante (cells r2)))
   (lex (text_compare (Producto (cells r1)) (Producto (cells r2)))
     (lex (text_compare (Descripcion (cells r1)) (Descripcion (cells r2)))
          (popular_compare_desc (Popular (cells r1)) (Popular (cells r2))))).

Definition row_leb (r1 r2 : row) : bool :=
  match row_compare r1 r2 with
  | Gt => false
  | _ => true
  end.

(** The sort is stable: a row goes before the first row that is not
    smaller, so rows that compare equal keep their order. *)
Fixpoint insert_row (r : row) (l : list row) : list row :=
  match l with
  | [] => [r]
  | y :: l' => if row_leb r y then r :: l else y :: insert_row r l'
  end.

Fixpoint sort_values (l : list row) : list row :=
  match l with
  | [] => []
  | r :: l' => insert_row r (sort_values l')
  end.

(** *** [drop_duplicates] on Restaurante, Producto and Descripcion, keeping
    the first *)

Definition key : Type := option string * option string * option string.

Definition key_of (r : row) : key :=
  (Restaurante (cells r), Producto (cells r), Descripcion (cells r)).

Fixpoint drop_duplicates_from (seen : list key) (l : list row) : list row :=
  match l with
  | [] => []
  | r :: l' =>
      if bool_decide (key_of r ∈ seen) then drop_duplicates_from seen l'
      else r :: drop_duplicates_from (key_of r :: seen) l'
  end.

Definition drop_duplicates (l : list row) : list row :=
  drop_duplicates_from [] l.

(** *** [replace] of the empty string by [None], on every column *)

Definition empty_to_none (c : option string) : option string :=
  match c with
  | Some EmptyString => None
  | _ => c
  end.

Definition popular_empty_to_none (c : popular) : popular :=
  match c with
  | PopStr EmptyString => PopNone
  | _ => c
  end.

Definition price_empty_to_none (c : price) : price :=
  match c with
  | PriceStr EmptyString => PriceNull
  | _ => c
  end.

Definition replace_empty (r : row) : row :=
  let p := cells r in
  Row (Product (popular_empty_to_none (Popular p))
         (empty_to_none (Producto p)) (empty_to_none (Descripcion p))
         (price_empty_to_none (Precio_con_descuento p))
         (price_empty_to_none (Precio_sin_descuento p))
         (empty_to_none (Restaurante p)) (empty_to_none (Disponible p))
         (empty_to_none (Categoria p)))
      (Fecha r).

(** *** [astype]: the two price columns to float, Popular to str *)

(** One price cell as a float: [None] becomes NaN, a string is read by
    [float()], which may raise. *)
Definition price_to_float (c : price) : result float :=
  match c with
  | PriceNull => Ok PrimFloat.nan
  | PriceNum x => Ok x
  | PriceStr s =>
      match PyFloat.float_of_string s with
      | Some x => Ok x
      | None => Raise ValueError
      end
  end.

(** [str(v)] of a cell of [Popular]. *)
Definition popular_to_str (c : popular) : string :=
  match c with
  | PopNone => "None"
  | PopBool true => "True"
  | PopBool false => "False"
  | PopStr s => s
  end.

(** A row after [astype]: the two prices as floats. *)
Record typed_row := TypedRow {
  t_row : row;
  t_con : float;
  t_sin : float
}.

Definition astype_row (r : row) : result typed_row :=
  match price_to_float (Precio_con_descuento (cells r)),
        price_to_float (Precio_sin_descuento (cells r)) with
  | Ok c, Ok s => Ok (TypedRow r c s)
  | Raise e, _ => Raise e
  | _, Raise e => Raise e
  end.

Fixpoint astype (l : list row) : result (list typed_row) :=
  match l with
  | [] => Ok []
  | r :: l' =>
      match astype_row r, astype l' with
      | Ok t, Ok ts => Ok (t :: ts)
      | Raise e, _ => Raise e
      | _, Raise e => Raise e
      end
  end.

(** *** Prices *)

(** The discounted price of a row after [round(x, 2)] and after the rows
    whose rounded discounted price equals the list price got [None]. *)
Definition discounted (c s : float) : float :=
  let c2 := PyFloat.round2 c in
  if PrimFloat.eqb c2 s then PrimFloat.nan else c2.

(** The format string with a comma for thousands and two decimals, then
    the swap of the two separators. *)
Definition display_price (x : float) : string :=
  PyStr.swap_separators (PyFloat.format_2f x).

(** [replace] of True by popular and of False by the empty string. *)
Definition popular_label (s : string) : string :=
  if String.eqb s "True" then "popular"
  else if String.eqb s "False" then ""
  else s.

(** Everything after [astype] on one row. *)
Definition clean_row (t : typed_row) : row :=
  let p := cells (t_row t) in
  Row (Product (PopStr (popular_label (popular_to_str (Popular p))))
         (Producto p) (Descripcion p)
         (PriceStr (display_price (discounted (t_con t) (t_sin t))))
         (PriceStr (display_price (t_sin t)))
         (PyStr.strip_suffix <$> Restaurante p)
         (PyStr.closed_label <$> Disponible p)
         (PyStr.strip_suffix <$> Categoria p))
      (Fecha (t_row t)).

(** The frame after [sort_values] and [drop_duplicates]. *)
Definition dedup_stage (l : list row) : list row :=
  drop_duplicates (sort_values l).

End Frame.

(** ** The browser and the outside world

    Selenium's calls are modelled by the outcomes they produce: a value or
    an exception. A run of the scraper is a function of these outcomes. *)

(** One product of the JSON payload of a restaurant; [isPopular] is [None]
    when the key is absent. *)
Record ProductJson := {
  isPopular : option popular;
  name : option string;
  description : option string;
  priceNumber : price;
  realPrice : price
}.

(** The sole entry of [pageProps.fallback] in the decoded response. *)
Record RestaurantData := {
  brandName : option string;
  categories : option string;
  corridors : list (list ProductJson)
}.

(** A restaurant anchor of a listing. *)
Record WebElement := {
  (** [scroll_to_element(..).move_to_element(..).perform()] *)
  perform : result unit;
  (** the text of the availability paragraph *)
  status_text : result string;
  (** [get_attribute] of href *)
  href : result (option string);
  (** [get_attribute] of aria-label *)
  aria_label : result (option string)
}.

(** A product card of a restaurant page (the DOM path). *)
Record ProductElement := {
  popular_text : result string;
  name_text : result string;
  description_text : result string;
  prices_text : result string
}.

Record RestaurantPage := {
  product_elements : result (list ProductElement);
  category_text : result string
}.

(** The button that loads more restaurants. *)
Record Button := {
  click : result unit
}.

Record Category := {
  category_click : result unit;
  category_listing : result (list WebElement)
}.

Record World := {
  (** [CURRENT_DATE] as year-month-day *)
  today : string;
  login_outcome : result unit;
  (** attempt [i] of waiting for the clickable load-more button *)
  load_more : nat -> result Button;
  (** attempt [i] of waiting for the anchors of the listing *)
  nearest_listing : nat -> result (list WebElement);
  (** [wait_for_request] on a pattern, then decoding and reading the
      response; the inner result is what decoding gives *)
  wait_for_request : string -> result (result RestaurantData);
  category_buttons : list Category;
  (** [driver.get] of a restaurant link *)
  get_page : option string -> result RestaurantPage;
  (** writing the data file and saving the workbook *)
  to_csv : result unit;
  workbook_save : result unit
}.

(** ** The scraper *)

(** The counters of [Metadata]; its dates and times, read from the clock,
    and the rate computed from them are left out. *)
Record Metadata := {
  quantity : Z;
  num_errors : Z
}.

(** What the retry queue holds: name, link, status. *)
Definition retry_entry : Type := option string * option string * string.

Record scraper := Scraper {
  _metadata : Metadata;
  _products : list (option product);
  _restaurants : list (option string);
  _dataset : list row;
  _links_to_go : list retry_entry;
  (** effects on the outside world: the links the retry pass navigated to,
      the data files written, the rows appended to the metadata workbook *)
  navigated : list (option string);
  csv_files : list (list row);
  report_rows : list Metadata
}.

Definition init : scraper :=
  Scraper {| quantity := 0; num_errors := 0 |} [] [] [] [] [] [] [].

Definition set_metadata (m : Metadata) (st : scraper) : scraper :=
  Scraper m (_products st) (_restaurants st) (_dataset st) (_links_to_go st)
    (navigated st) (csv_files st) (report_rows st).

Definition set_products (ps : list (option product)) (st : scraper) : scraper :=
  Scraper (_metadata st) ps (_restaurants st) (_dataset st) (_links_to_go st)
    (navigated st) (csv_files st) (report_rows st).

Definition set_restaurants (ls : list (option string)) (st : scraper) : scraper :=
  Scraper (_metadata st) (_products st) ls (_dataset st) (_links_to_go st)
    (navigated st) (csv_files st) (report_rows st).

Definition set_dataset (d : list row) (st : scraper) : scraper :=
  Scraper (_metadata st) (_products st) (_restaurants st) d (_links_to_go st)
    (navigated st) (csv_files st) (report_rows st).

Definition set_links_to_go (q : list retry_entry) (st : scraper) : scraper :=
  Scraper (_metadata st) (_products st) (_restaurants st) (_dataset st) q
    (navigated st) (csv_files st) (report_rows st).

Definition set_navigated (n : list (option string)) (st : scraper) : scraper :=
  Scraper (_metadata st) (_products st) (_restaurants st) (_dataset st)
    (_links_to_go st) n (csv_files st) (report_rows st).

Definition set_csv_files (f : list (list row)) (st : scraper) : scraper :=
  Scraper (_metadata st) (_products st) (_restaurants st) (_dataset st)
    (_links_to_go st) (navigated st) f (report_rows st).

Definition set_report_rows (r : list Metadata) (st : scraper) : scraper :=
  Scraper (_metadata st) (_products st) (_restaurants st) (_dataset st)
    (_links_to_go st) (navigated st) (csv_files st) r.

(** *** [scrap_product] *)

(** The element before the last of a list, as [prices[-2]] reads it. *)
Definition before_last (l : list string) : option string :=
  last (removelast l).

Definition scrap_product (p : ProductElement) (rest : option string)
    (status : string) (cat : option string) : option product :=
  let pop := match popular_text p with
             | Ok _ => true
             | Raise _ => false
             end in
  match name_text p, description_text p, prices_text p with
  | Ok n, Ok d, Ok t =>
      let prices := PyStr.split_soles t in
      Some (Product (PopBool pop) (Some n) (Some d)
              (from_option PriceStr PriceNull (before_last prices))
              (from_option PriceStr PriceNull (last prices))
              rest (Some status) cat)
  | _, _, _ => None
  end.

(** *** [scrap_restaurante] *)

(** The whole body is one [try]: a failure leaves the state as it is. The
    product cards of the page go through the pool, where [scrap_product]
    touches no shared state; the source takes their rows in the order of
    the set [done], here they are taken in the order of the page. *)
Definition scrap_restaurante (w : World) (e : retry_entry) (st : scraper)
  : scraper :=
  let '(rest, link, status) := e in
  let st := set_navigated (navigated st ++ [link]) st in
  match get_page w link with
  | Raise _ => st
  | Ok page =>
      match product_elements page with
      | Raise _ => st
      | Ok products =>
          let category := match category_text page with
                          | Ok c => Some c
                          | Raise _ => None
                          end in
          set_products
            (_products st
               ++ map (fun p => scrap_product p rest status category) products)
            st
      end
  end.

(** *** [extract_products] *)

Definition rows_of (data : RestaurantData) (status : string)
  : list (option product) :=
  map (fun p =>
         Some (Product (default (PopBool false) (isPopular p))
                 (name p) (description p) (priceNumber p) (realPrice p)
                 (brandName data) (Some status) (categories data)))
      (concat (corridors data)).

(** The [except] branch. The locals [restaurant_link] and
    [restaurant_status] are bound only if the [try] block got past their
    assignments: [None] stands for an unbound local. *)
Definition extract_products_except (restaurant : WebElement)
    (restaurant_link : option (option string))
    (restaurant_status : option string) (st : scraper)
  : scraper * result (list (option product)) :=
  let m := _metadata st in
  let st := set_metadata
              {| quantity := quantity m; num_errors := num_errors m + 1 |} st in
  match aria_label restaurant with
  | Raise e => (st, Raise e)
  | Ok rest_name =>
      match restaurant_link, restaurant_status with
      | Some link, Some status =>
          (set_links_to_go (_links_to_go st ++ [(rest_name, link, status)]) st,
           Ok [])
      | _, _ => (st, Raise UnboundLocalError)
      end
  end.

Definition extract_products (w : World) (restaurant : WebElement)
    (st : scraper) : scraper * result (list (option product)) :=
  match perform restaurant with
  | Raise _ => extract_products_except restaurant None None st
  | Ok _ =>
      let restaurant_status :=
        match status_text restaurant with
        | Ok s => s
        | Raise _ => "Restaurante abierto"
        end in
      match href restaurant with
      | Raise _ =>
          extract_products_except restaurant None (Some restaurant_status) st
      | Ok restaurant_link =>
          let st := set_restaurants (_restaurants st ++ [restaurant_link]) st in
          let failed :=
            extract_products_except restaurant (Some restaurant_link)
              (Some restaurant_status) st in
          match restaurant_link with
          | None => failed
          | Some url =>
              match PyStr.search_restaurantes url with
              | None => failed
              | Some pattern =>
                  match wait_for_request w pattern with
                  | Raise _ => failed
                  | Ok response =>
                      match response with
                      | Raise _ => failed
                      | Ok data => (st, Ok (rows_of data restaurant_status))
                      end
                  end
              end
          end
      end
  end.

(** *** The worker pool: one batch

    [THREAD.submit] then [futures.wait]: every task of the batch runs to
    its end, an exception staying in its future; then the results are
    added to [_products] and the first [result()] that raises propagates.
    The source runs the tasks as threads and takes the results in the
    order of the set [done]. Here one schedule is fixed: each task runs
    to its end before the next starts, in the order of submission, and
    the results are taken in that order. What the threads do to the
    shared state under every other schedule is modelled in [Pool]
    below. *)

Fixpoint run_tasks (w : World) (batch : list WebElement) (st : scraper)
  : scraper * list (result (list (option product))) :=
  match batch with
  | [] => (st, [])
  | r :: batch' =>
      let '(st1, res) := extract_products w r st in
      let '(st2, ress) := run_tasks w batch' st1 in
      (st2, res :: ress)
  end.

Fixpoint collect (ress : list (result (list (option product))))
    (st : scraper) : scraper * result unit :=
  match ress with
  | [] => (st, Ok ())
  | Ok rows :: ress' => collect ress' (set_products (_products st ++ rows) st)
  | Raise e :: _ => (st, Raise e)
  end.

Definition dispatch (w : World) (batch : list WebElement) (st : scraper)
  : scraper * result unit :=
  let '(st1, ress) := run_tasks w batch st in
  collect ress st1.

(** *** [extract_data]: the nearest restaurants *)

(** One turn of the [while no_error] loop. [attempt] counts the turns,
    [button] is the local of that name ([None] while it is unbound) and
    [start] the first index not yet dispatched. The turn raises, or ends
    the loop ([None]), or leaves the locals of the next turn. *)
Definition nearest_turn (w : World) (attempt : nat) (button : option Button)
    (start : nat) (st : scraper)
  : scraper * result (option (option Button * nat)) :=
  let '(button, no_error) :=
    match load_more w attempt with
    | Ok b => (Some b, true)
    | Raise _ => (button, false)
    end in
  match nearest_listing w attempt with
  | Raise e => (st, Raise e)
  | Ok restaurants =>
      let end_ := length restaurants in
      match dispatch w (drop start restaurants) st with
      | (st1, Raise e) => (st1, Raise e)
      | (st1, Ok _) =>
          let '(start, no_error) :=
            match button with
            | None => (start, false)
            | Some b =>
                match click b with
                | Ok _ => (end_, no_error)
                | Raise _ => (start, false)
                end
            end in
          (st1, Ok (if no_error then Some (button, start) else None))
      end
  end.

(** The loop, one turn per unit of fuel. The result is [None] when the
    fuel runs out, else the state and either the exception that left the
    loop or the number of turns made. *)
Fixpoint nearest_loop (fuel : nat) (w : World) (attempt : nat)
    (button : option Button) (start : nat) (st : scraper)
  : option (scraper * result nat) :=
  match fuel with
  | O => None
  | S fuel' =>
      match nearest_turn w attempt button start st with
      | (st1, Raise e) => Some (st1, Raise e)
      | (st1, Ok None) => Some (st1, Ok (S attempt))
      | (st1, Ok (Some (button, start))) =>
          nearest_loop fuel' w (S attempt) button start st1
      end
  end.

(** *** [extract_data]: the categories *)

(** The comprehension that keeps the anchors whose link is not in
    [_restaurants]; reading a link may raise. *)
Fixpoint filter_unvisited (visited : list (option string))
    (l : list WebElement) : result (list WebElement) :=
  match l with
  | [] => Ok []
  | r :: l' =>
      match href r with
      | Raise e => Raise e
      | Ok link =>
          match filter_unvisited visited l' with
          | Raise e => Raise e
          | Ok rest =>
              Ok (if bool_decide (link ∈ visited) then rest else r :: rest)
          end
      end
  end.

(** The batch of one category: [None] when the loop goes on to the next
    category ([continue]) without dispatching. *)
Definition category_batch (c : Category) (st : scraper)
  : option (list WebElement) :=
  match category_click c with
  | Raise _ => None
  | Ok _ =>
      match category_listing c with
      | Raise _ => None
      | Ok restaurants =>
          match filter_unvisited (_restaurants st) restaurants with
          | Raise _ => None
          | Ok batch => Some batch
          end
      end
  end.

Fixpoint category_phase (w : World) (cs : list Category) (st : scraper)
  : scraper * result unit :=
  match cs with
  | [] => (st, Ok ())
  | c :: cs' =>
      match category_batch c st with
      | None => category_phase w cs' st
      | Some batch =>
          match dispatch w batch st with
          | (st1, Raise e) => (st1, Raise e)
          | (st1, Ok _) => category_phase w cs' st1
          end
      end
  end.

(** *** [extract_data]: the retry pass *)

(** [list(set(self._links_to_go))]; the order of the elements of a Python
    set is not specified, [remove_dups] fixes one (that of the first
    occurrences). *)
Definition deduplicated (q : list retry_entry) : list retry_entry :=
  remove_dups q.

Definition retry_phase (w : World) (st : scraper) : scraper :=
  let q := deduplicated (_links_to_go st) in
  foldl (fun st e => scrap_restaurante w e st) (set_links_to_go q st) q.

(** The two passes over the listings, before the retry pass. *)
Definition first_pass (fuel : nat) (w : World) (st : scraper)
  : option (scraper * result unit) :=
  match nearest_loop fuel w 0 None 0 st with
  | None => None
  | Some (st1, Raise e) => Some (st1, Raise e)
  | Some (st1, Ok _) => Some (category_phase w (category_buttons w) st1)
  end.

Definition extract_data (fuel : nat) (w : World) (st : scraper)
  : option (scraper * result unit) :=
  match first_pass fuel w st with
  | None => None
  | Some (st2, Raise e) => Some (st2, Raise e)
  | Some (st2, Ok _) => Some (retry_phase w st2, Ok ())
  end.

(** *** [process_data] *)

(** The [try] block ends at the first exception; the steps done in place
    before it stay done. *)
Definition process_data (w : World) (st : scraper) : scraper :=
  match Frame.DataFrame (_products st) (today w) with
  | Raise _ => st
  | Ok df =>
      let st := set_products [] st in
      let df := map Frame.replace_empty (Frame.dedup_stage df) in
      match Frame.astype df with
      | Raise _ => set_dataset df st
      | Ok ts => set_dataset (map Frame.clean_row ts) st
      end
  end.

(** *** [save_data], [save_metadata], [run] and [main] *)

Definition save_data (w : World) (st : scraper) : scraper * result unit :=
  match _dataset st with
  | [] => (st, Ok ())
  | _ :: _ =>
      let st := set_metadata
                  {| quantity := Z.of_nat (length (_dataset st));
                     num_errors := num_errors (_metadata st) |} st in
      match to_csv w with
      | Raise e => (st, Raise e)
      | Ok _ => (set_csv_files (csv_files st ++ [_dataset st]) st, Ok ())
      end
  end.

Definition save_metadata (w : World) (st : scraper) : scraper * result unit :=
  match workbook_save w with
  | Raise e => (st, Raise e)
  | Ok _ => (set_report_rows (report_rows st ++ [_metadata st]) st, Ok ())
  end.

Definition run (fuel : nat) (w : World) (st : scraper)
  : option (scraper * result unit) :=
  match login_outcome w with
  | Raise e => Some (st, Raise e)
  | Ok _ =>
      match extract_data fuel w st with
      | None => None
      | Some (st1, Raise e) => Some (st1, Raise e)
      | Some (st1, Ok _) =>
          match save_data w (process_data w st1) with
          | (st2, Raise e) => Some (st2, Raise e)
          | (st2, Ok _) => Some (save_metadata w st2)
          end
      end
  end.

(** [main] catches what [run] raises and logs it; the state it leaves is
    the outcome of the program. *)
Definition main (fuel : nat) (w : World) : option scraper :=
  match run fuel w init with
  | None => None
  | Some (st, _) => Some st
  end.

(** ** The worker pool, the steps of its tasks interleaved

    The tasks of a batch are threads of [THREAD]. What [extract_products]
    does to the state the threads share is a sequence of steps:
    [self._restaurants.append], [self._metadata.num_errors += 1] and
    [self._links_to_go.append]. An append is done at once. The increment
    goes through the property: it reads the counter, and later writes the
    value it read plus one; another thread may run between the two. *)

Module Pool.

Inductive step :=
  | AppendRestaurant (link : option string)
  | IncrementErrors
  | AppendLinkToGo (e : retry_entry).

(** The steps of the [except] branch and what the task returns from it;
    [None] stands for an unbound local, as in [extract_products_except]. *)
Definition except_steps (restaurant : WebElement)
    (restaurant_link : option (option string))
    (restaurant_status : option string)
  : list step * result (list (option product)) :=
  match aria_label restaurant with
  | Raise e => ([IncrementErrors], Raise e)
  | Ok rest_name =>
      match restaurant_link, restaurant_status with
      | Some link, Some status =>
          ([IncrementErrors; AppendLinkToGo (rest_name, link, status)], Ok [])
      | _, _ => ([IncrementErrors], Raise UnboundLocalError)
      end
  end.

(** The steps of a task, in the order of [extract_products], and what it
    returns. *)
Definition steps (w : World) (restaurant : WebElement)
  : list step * result (list (option product)) :=
  match perform restaurant with
  | Raise _ => except_steps restaurant None None
  | Ok _ =>
      let restaurant_status :=
        match status_text restaurant with
        | Ok s => s
        | Raise _ => "Restaurante abierto"
        end in
      match href restaurant with
      | Raise _ => except_steps restaurant None (Some restaurant_status)
      | Ok restaurant_link =>
          let failed :=
            let '(l, res) :=
              except_steps restaurant (Some restaurant_link)
                (Some restaurant_status) in
            (AppendRestaurant restaurant_link :: l, res) in
          match restaurant_link with
          | None => failed
          | Some url =>
              match PyStr.search_restaurantes url with
              | None => failed
              | Some pattern =>
                  match wait_for_request w pattern with
                  | Raise _ => failed
                  | Ok response =>
                      match response with
                      | Raise _ => failed
                      | Ok data =>
                          ([AppendRestaurant restaurant_link],
                           Ok (rows_of data restaurant_status))
                      end
                  end
              end
          end
      end
  end.

(** A thread: the steps it has still to do and, when it is in the middle
    of an increment, the value of the counter it read. *)
Record thread := Thread {
  pending : list step;
  reading : option Z
}.

Definition write_errors (n : Z) (st : scraper) : scraper :=
  set_metadata {| quantity := quantity (_metadata st); num_errors := n |} st.

(** One step of a thread. An increment takes two: the read, which leaves
    the increment pending, and the write. *)
Definition advance (t : thread) (st : scraper) : thread * scraper :=
  match pending t with
  | [] => (t, st)
  | AppendRestaurant link :: p =>
      (Thread p (reading t), set_restaurants (_restaurants st ++ [link]) st)
  | IncrementErrors :: p =>
      match reading t with
      | None => (Thread (pending t) (Some (num_errors (_metadata st))), st)
      | Some n => (Thread p None, write_errors (n + 1) st)
      end
  | AppendLinkToGo e :: p =>
      (Thread p (reading t), set_links_to_go (_links_to_go st ++ [e]) st)
  end.

(** A schedule names, step after step, the thread that runs. A thread
    that is not there or has ended is passed over. *)
Fixpoint run (schedule : list nat) (ts : list thread) (st : scraper)
  : list thread * scraper :=
  match schedule with
  | [] => (ts, st)
  | i :: schedule' =>
      match ts !! i with
      | None => run schedule' ts st
      | Some t =>
          let '(t', st') := advance t st in
          run schedule' (<[i:=t']> ts) st'
      end
  end.

(** A thread run to its end with no other thread in between. *)
Fixpoint run_to_end (p : list step) (reading : option Z) (st : scraper)
  : scraper :=
  match p with
  | [] => st
  | AppendRestaurant link :: p' =>
      run_to_end p' reading (set_restaurants (_restaurants st ++ [link]) st)
  | IncrementErrors :: p' =>
      run_to_end p' None
        (write_errors (default (num_errors (_metadata st)) reading + 1) st)
  | AppendLinkToGo e :: p' =>
      run_to_end p' reading (set_links_to_go (_links_to_go st ++ [e]) st)
  end.

(** [futures.wait]: every thread runs to its end. *)
Fixpoint wait (ts : list thread) (st : scraper) : scraper :=
  match ts with
  | [] => st
  | t :: ts' => wait ts' (run_to_end (pending t) (reading t) st)
  end.

(** [THREAD.submit] for each element of the batch, then [futures.wait]:
    the threads take their steps as the schedule says, and what is left
    of them when the schedule ends runs thread after thread. The results
    are those of the tasks, in the order of the batch. *)
Definition run_threads (schedule : list nat) (w : World)
    (batch : list WebElement) (st : scraper)
  : scraper * list (result (list (option product))) :=
  let ts := map (fun r => Thread (steps w r).1 None) batch in
  let '(ts', st') := run schedule ts st in
  (wait ts' st', map (fun r => (steps w r).2) batch).

End Pool.

(** ** The report: [Metadata] with its clock and the workbook of
    [save_metadata]

    The counters of the scraper are the attributes [_quantity] and
    [_num_errors] of this record; the other attributes come from the clock.
    The calls of the [time] and [datetime] modules that turn a time into a
    text are given by their results; a workbook is the list of its
    worksheets (chart sheets are left out), a sheet its title and its
    rows. A file that exists is taken to be a workbook that loads. The
    title a sheet gets is openpyxl's to decide and is given by its result:
    the title asked for, another one, or an exception. *)

Module Report.

(** The value of a cell. *)
Inductive cell :=
  | Text (s : string)
  | Int (n : Z)
  | Float (x : float).

(** The attributes, in the order [__init__] creates them. The rate is the
    integer 0 until one is computed. *)
Record Metadata := {
  _start_time : float;
  _end_time : float;
  _execution_date : string;
  _start_hour : string;
  _end_hour : string;
  _quantity : Z;
  _time_execution : string;
  _products_per_min : cell;
  _num_errors : Z
}.

Record Clock := {
  (** [time.time()] *)
  time : float;
  (** [time.strftime] of the hour of [time.localtime(t)] *)
  hour_text : float -> string;
  (** [str(timedelta(seconds=t))], which raises when [t] is too large *)
  timedelta_text : float -> result string
}.

(** [Metadata()], at a clock, on the day [execution_date]. *)
Definition init (c : Clock) (execution_date : string) : Metadata :=
  {| _start_time := time c; _end_time := time c;
     _execution_date := execution_date;
     _start_hour := hour_text c (time c); _end_hour := hour_text c (time c);
     _quantity := 0; _time_execution := "0"; _products_per_min := Int 0;
     _num_errors := 0 |}.

(** [s.split(".")[0]]: the text before the first period. *)
Fixpoint before_point (s : string) : string :=
  match s with
  | String c s' => if Ascii.eqb c "." then "" else String c (before_point s')
  | EmptyString => ""
  end.

(** The float of an integer (a count of records here, far below the
    integers that have no float). *)
Definition float_of_int (n : Z) : float :=
  PyFloat.with_sign (n <? 0) (PyFloat.nearest_double (Z.abs n) 1).

Definition set_attributes_values (c : Clock) (m : Metadata)
  : result Metadata :=
  let end_time := time c in
  let end_hour := hour_text c end_time in
  let time_execution := PrimFloat.sub end_time (_start_time m) in
  if PrimFloat.ltb 0 time_execution then
    match timedelta_text c time_execution with
    | Raise e => Raise e
    | Ok text =>
        Ok {| _start_time := _start_time m; _end_time := end_time;
              _execution_date := _execution_date m;
              _start_hour := _start_hour m; _end_hour := end_hour;
              _quantity := _quantity m;
              _time_execution := before_point text;
              _products_per_min :=
                Float (PyFloat.round2
                         (PrimFloat.div (float_of_int (_quantity m * 60))
                            time_execution));
              _num_errors := _num_errors m |}
    end
  else
    Ok {| _start_time := _start_time m; _end_time := end_time;
          _execution_date := _execution_date m;
          _start_hour := _start_hour m; _end_hour := end_hour;
          _quantity := _quantity m;
          _time_execution := _time_execution m;
          _products_per_min := _products_per_min m;
          _num_errors := _num_errors m |}.

(** [list(self._metadata.__dict__.values())] *)
Definition dict_values (m : Metadata) : list cell :=
  [Float (_start_time m); Float (_end_time m); Text (_execution_date m);
   Text (_start_hour m); Text (_end_hour m); Int (_quantity m);
   Text (_time_execution m); _products_per_min m; Int (_num_errors m)].

(** The row of a run: the values but the first two. *)
Definition values (m : Metadata) : list cell := drop 2 (dict_values m).

(** The header of the sheet. *)
Definition keys : list cell :=
  [Text "Fecha"; Text "Hora Inicio"; Text "Hora Fin"; Text "Cantidad";
   Text "Tiempo Ejecucion (min)"; Text "Productos / Minuto"; Text "Errores"].

Record Worksheet := {
  title : string;
  rows : list (list cell)
}.

(** [wb.worksheets] *)
Definition Workbook : Type := list Worksheet.

(** What openpyxl makes of the title asked for a sheet. It may keep it,
    give another one (a title that a sheet of the workbook has already,
    whatever the case of its letters, gets a number at its end), or raise
    (a title cannot hold every character). *)
Record Titles := {
  (** the title [wb.create_sheet(t)] gives the new sheet, [names] being
      the titles of the sheets of [wb] *)
  created_title : forall (names : list string) (t : string), result string;
  (** the title that [ws.title = t] leaves to a sheet of title [current]
      in a workbook whose sheets have the titles [names] *)
  renamed_title : forall (current : string) (names : list string) (t : string),
    result string
}.

(** [Workbook()]: one sheet, empty. *)
Definition new_workbook : Workbook := [ {| title := "Sheet"; rows := [] |} ].

(** [wb.worksheets[0].title = t] *)
Definition set_first_title (lib : Titles) (t : string) (wb : Workbook)
  : result Workbook :=
  match wb with
  | ws :: wb' =>
      match renamed_title lib (title ws) (map title wb) t with
      | Ok t' => Ok ({| title := t'; rows := rows ws |} :: wb')
      | Raise e => Raise e
      end
  | [] => Raise IndexError
  end.

(** [wb.create_sheet(t)]: a new sheet, empty, after the others. *)
Definition create_sheet (lib : Titles) (t : string) (wb : Workbook)
  : result Workbook :=
  match created_title lib (map title wb) t with
  | Ok t' => Ok (wb ++ [ {| title := t'; rows := [] |} ])
  | Raise e => Raise e
  end.

(** [wb[t]]: the rows of the first sheet of that title; [None] stands for
    [KeyError]. *)
Fixpoint getitem (t : string) (wb : Workbook) : option (list (list cell)) :=
  match wb with
  | [] => None
  | ws :: wb' => if String.eqb (title ws) t then Some (rows ws) else getitem t wb'
  end.

(** [wb[t].append(r)]: one more row at the end of that sheet. *)
Fixpoint append (t : string) (r : list cell) (wb : Workbook) : Workbook :=
  match wb with
  | [] => []
  | ws :: wb' =>
      if String.eqb (title ws) t
      then {| title := title ws; rows := rows ws ++ [r] |} :: wb'
      else ws :: append t r wb'
  end.

(** The workbook [save_metadata] opens and whether its sheet has the
    header: [file] is the workbook of the file when the file exists. *)
Definition open_workbook (lib : Titles) (file : option Workbook)
    (sheet_name : string) : result (Workbook * bool) :=
  match file with
  | Some wb =>
      if bool_decide (sheet_name ∈ map title wb) then Ok (wb, true)
      else
        match create_sheet lib sheet_name wb with
        | Ok wb' => Ok (wb', false)
        | Raise e => Raise e
        end
  | None =>
      match set_first_title lib sheet_name new_workbook with
      | Ok wb' => Ok (wb', false)
      | Raise e => Raise e
      end
  end.

(** [save_metadata]: the result is the workbook that is saved. *)
Definition save_metadata (c : Clock) (lib : Titles) (m : Metadata)
    (file : option Workbook) (sheet_name : string) : result Workbook :=
  match set_attributes_values c m with
  | Raise e => Raise e
  | Ok m =>
      match open_workbook lib file sheet_name with
      | Raise e => Raise e
      | Ok (wb_time, header_exist) =>
          match getitem sheet_name wb_time with
          | None => Raise KeyError
          | Some _ =>
              let wb_time :=
                if header_exist then wb_time
                else append sheet_name keys wb_time in
              Ok (append sheet_name (values m) wb_time)
          end
      end
  end.

(** The runs of a list, one after the other on the same file; a run that
    raises leaves the file as it is. *)
Fixpoint runs (lib : Titles) (l : list (Clock * Metadata))
    (file : option Workbook) (sheet_name : string) : option Workbook :=
  match l with
  | [] => file
  | (c, m) :: l' =>
      match save_metadata c lib m file sheet_name with
      | Ok wb => runs lib l' (Some wb) sheet_name
      | Raise _ => runs lib l' file sheet_name
      end
  end.

(** The row of a run, when its clock gives one. *)
Definition row_of (cm : Clock * Metadata) : list cell :=
  match set_attributes_values cm.1 cm.2 with
  | Ok m => values m
  | Raise _ => []
  end.

(** A run of one minute that found thirty records and counted one
    error. *)
Definition one_minute : Clock :=
  {| time := 100; hour_text := fun _ => "10:01:00";
     timedelta_text := fun _ => Ok "0:01:00" |}.

Definition thirty : Metadata :=
  {| _start_time := 40; _end_time := 40; _execution_date := "01/01/2024";
     _start_hour := "10:00:00"; _end_hour := "10:00:00"; _quantity := 30;
     _time_execution := "0"; _products_per_min := Int 0; _num_errors := 1 |}.

(** The text in small letters. *)
Fixpoint lower (s : string) : string :=
  match s with
  | String c s' => String (PyFloat.lower c) (lower s')
  | EmptyString => EmptyString
  end.

(** An example of a library: it keeps a title no sheet has, whatever the
    case of its letters, and puts the number 1 after the others; it keeps
    the title of a sheet that is given its own title again. *)
Definition numbering : Titles :=
  {| created_title := fun names t =>
       if bool_decide (lower t ∈ map lower names) then Ok (t +:+ "1")
       else Ok t;
     renamed_title := fun current names t =>
       if String.eqb current t then Ok t
       else if bool_decide (lower t ∈ map lower names) then Ok (t +:+ "1")
       else Ok t |}.

End Report.

(** ** Notions used by the statements *)

(** The records of a data set, as [process_data] would read them again:
    the eight columns of each row ([Fecha] is the column it adds itself). *)
Definition as_products (d : list row) : list (option product) :=
  map (fun r => Some (cells r)) d.

Fixpoint remove_char (a : ascii) (s : string) : string :=
  match s with
  | String c s' =>
      if Ascii.eqb c a then remove_char a s' else String c (remove_char a s')
  | EmptyString => EmptyString
  end.

(** The inverse of [Frame.display_price], which the source does not have:
    swap the two separators back, drop the separators of thousands and read
    the number. *)
Definition parse_display (s : string) : option float :=
  PyFloat.float_of_string (remove_char "," (PyStr.swap_separators s)).

(** One character after the swap of the separators. *)
Definition swap_char (c : ascii) : ascii :=
  if Ascii.eqb c "," then "."%char
  else if Ascii.eqb c "." then ","%char
  else if Ascii.eqb c ";" then "."%char
  else c.

(** The characters of a formatted number: digits, the two separators and
    the sign. *)
Definition numeric_char (c : ascii) : bool :=
  PyFloat.is_digit c || Ascii.eqb c "," || Ascii.eqb c "." || Ascii.eqb c "-".

Definition not_comma (c : ascii) : bool := negb (Ascii.eqb c ",").

(** The three comparisons of two among three values fit together as those
    of an order do. *)
Definition compatible (a12 a23 a13 : comparison) : Prop :=
  (a12 = Eq -> a13 = a23) /\ (a23 = Eq -> a13 = a12) /\
  (a12 = Lt -> a23 = Lt -> a13 = Lt) /\ (a12 = Gt -> a23 = Gt -> a13 = Gt).

(** A comparison function of a total order. *)
Definition lawful {A : Type} (c : A -> A -> comparison) : Prop :=
  (forall x y, c x y = Eq -> x = y) /\ (forall x, c x x = Eq) /\
  (forall x y, c y x = CompOpp (c x y)) /\
  (forall x y z, c x y = Lt -> c y z = Lt -> c x z = Lt).

(** Sorted by the order of [sort_values]. *)
Definition sorted (l : list row) : Prop :=
  StronglySorted (fun a b => Frame.row_leb a b = true) l.

(** A string that is empty or starts with a line break. *)
Definition at_line_end (s : string) : Prop :=
  match s with
  | EmptyString => True
  | String c _ => PyStr.is_newline c = true
  end.

Definition raises {A : Type} (r : result A) : Prop :=
  match r with
  | Raise _ => True
  | Ok _ => False
  end.

(** At turn [n] the button is not found, or it is found and its click
    fails. *)
Definition ends_at (w : World) (n : nat) : Prop :=
  match load_more w n with
  | Raise _ => True
  | Ok b => raises (click b)
  end.

Definition link_of (e : retry_entry) : option string := e.1.2.

(** The link a task adds to [_restaurants]: the one it read, if it got as
    far as reading it. *)
Definition recorded_link (r : WebElement) : list (option string) :=
  match perform r, href r with
  | Ok _, Ok l => [l]
  | _, _ => []
  end.

(** The availability a task reads: the text of the paragraph, or the
    default when the read fails. *)
Definition status_of (r : WebElement) : string :=
  match status_text r with
  | Ok s => s
  | Raise _ => "Restaurante abierto"
  end.

(** What the [try] block of a task gets to: the decoded response whose
    rows it returns, or [None] when one of its steps raises (the scroll,
    the read of the link, the search of the pattern in the link, the wait
    for the request, the decoding and the reading of the response). *)
Definition response_of (w : World) (r : WebElement) : option RestaurantData :=
  match perform r, href r with
  | Ok _, Ok (Some url) =>
      match PyStr.search_restaurantes url with
      | Some pattern =>
          match wait_for_request w pattern with
          | Ok (Ok data) => Some data
          | _ => None
          end
      | None => None
      end
  | _, _ => None
  end.

(** What a run leaves behind besides its counters and queues. *)
Definition outputs (st : scraper)
  : list row * list (list row) * list Metadata :=
  (_dataset st, csv_files st, report_rows st).

(** ** Notions used by the further properties *)

(** Every queued restaurant has its link among the visited ones. *)
Definition queue_visited (st : scraper) : Prop :=
  forall e, e ∈ _links_to_go st -> link_of e ∈ _restaurants st.

(** The entry a task alone puts on the retry queue. *)
Definition queued (w : World) (r : WebElement) : list retry_entry :=
  _links_to_go (extract_products w r init).1.

(** The number of tasks of a batch that fail: their [try] block does not
    get to a decoded response. *)
Fixpoint failures (w : World) (batch : list WebElement) : nat :=
  match batch with
  | [] => O
  | r :: batch' =>
      match response_of w r with
      | None => S (failures w batch')
      | Some _ => failures w batch'
      end
  end.

(** What a step appends to [_restaurants], what it appends to the queue
    and how many increments it is. *)
Definition links (s : Pool.step) : list (option string) :=
  match s with
  | Pool.AppendRestaurant l => [l]
  | _ => []
  end.

Definition entries (s : Pool.step) : list retry_entry :=
  match s with
  | Pool.AppendLinkToGo e => [e]
  | _ => []
  end.

Definition increments (s : Pool.step) : nat :=
  match s with
  | Pool.IncrementErrors => 1
  | _ => 0
  end.

(** What the pending steps of the threads hold. *)
Definition held {X : Type} (holds : Pool.step -> list X)
    (ts : list Pool.thread) : list X :=
  flat_map (fun t => flat_map holds (Pool.pending t)) ts.

(** The increments the threads have still to do. *)
Definition left_to_count (ts : list Pool.thread) : nat :=
  sum_list_with (fun t => sum_list_with increments (Pool.pending t)) ts.

(** The counter and the values the threads have read lie between the
    count at the start and that count plus the writes done; once a write
    is done the counter is above the count at the start; a thread that
    has read is at its increment. *)
Definition bounded (n0 : Z) (total : nat) (ts : list Pool.thread)
    (st : scraper) : Prop :=
  (left_to_count ts <= total)%nat
  /\ n0 <= num_errors (_metadata st)
     <= n0 + Z.of_nat (total - left_to_count ts)
  /\ ((left_to_count ts < total)%nat -> n0 + 1 <= num_errors (_metadata st))
  /\ Forall (fun t => forall n, Pool.reading t = Some n ->
               n0 <= n <= n0 + Z.of_nat (total - left_to_count ts)
               /\ exists p, Pool.pending t = Pool.IncrementErrors :: p) ts.

(** The schedule that lets thread [i], the task of [r], go on until it
    has read the counter. *)
Definition until_read (i : nat) (r : WebElement) : list nat :=
  replicate (S (length (recorded_link r))) i.

(** A category the loop leaves with [continue]: its click fails, or the
    wait for its listing, or the read of the link of one of its anchors. *)
Definition unreadable (c : Category) : Prop :=
  raises (category_click c) \/ raises (category_listing c)
  \/ exists l r, category_listing c = Ok l /\ r ∈ l /\ raises (href r).

(** [p] occurs in [s]. *)
Fixpoint occurs (p s : string) : bool :=
  match PyStr.strip_prefix p s with
  | Some _ => true
  | None =>
      match s with
      | String _ s' => occurs p s'
      | EmptyString => false
      end
  end.

(** The character [a] occurs in [s]. *)
Fixpoint has_char (a : ascii) (s : string) : bool :=
  match s with
  | String c s' => Ascii.eqb c a || has_char a s'
  | EmptyString => false
  end.

(** The pieces of a split on the currency prefix, put together again with
    the prefix between them. *)
Fixpoint join_soles (l : list string) : string :=
  match l with
  | [] => ""
  | p :: l' =>
      match l' with
      | [] => p
      | _ :: _ => p +:+ "S/ " +:+ join_soles l'
      end
  end.

(** The two price cells of a record. *)
Definition prices_of (r : product) : price * price :=
  (Precio_con_descuento r, Precio_sin_descuento r).

(** The category the retry reads on a page: [None] when the heading is
    not found. *)
Definition category_of (page : RestaurantPage) : option string :=
  match category_text page with
  | Ok c => Some c
  | Raise _ => None
  end.

(** What the retry of one restaurant adds: for each card of its page the
    empty list or a record with the name and the status of the entry. *)
Definition retried (e : retry_entry) (p : option product) : Prop :=
  forall r, p = Some r ->
    Restaurante r = e.1.1 /\ Disponible r = Some e.2
    /\ (exists b, Popular r = PopBool b)
    /\ (exists s, Precio_sin_descuento r = PriceStr s).

(** The row a failed card leaves in the cleaned data set. *)
Definition null_row (fecha : string) : row :=
  Row (Product (PopStr "None") None None (PriceStr "nan") (PriceStr "nan")
         None None None) fecha.

(** The order of two rows by their raw triple: Restaurante, Producto,
    Descripcion, each ascending with the missing values last. *)
Definition key_compare (a b : row) : comparison :=
  Frame.lex (Frame.text_compare (Restaurante (cells a)) (Restaurante (cells b)))
    (Frame.lex (Frame.text_compare (Producto (cells a)) (Producto (cells b)))
       (Frame.text_compare (Descripcion (cells a)) (Descripcion (cells b)))).

(** The text of [Popular] in the cleaned data set, by the value the kept
    record had. *)
Definition popular_text_of (c : popular) : string :=
  match c with
  | PopNone => "None"
  | PopBool true => "popular"
  | PopBool false => ""
  | PopStr s => Frame.popular_label (Frame.popular_to_str (Frame.popular_empty_to_none c))
  end.

(** A character a number may hold before its exponent. *)
Definition digitish (c : ascii) : Prop :=
  PyFloat.is_digit c = true \/ c = "_"%char \/ c = "."%char.

(** [str(n)] of an integer. *)
Definition str_int (n : Z) : string :=
  string_of_list_ascii
    (PyFloat.sign_chars (n <? 0) ++ PyFloat.digits_of (Z.abs n)).

(** The name of the data file in [save_data]: the name given, the date of
    the run as year-month-day and the number of records. *)
Definition data_filename (filename today : string) (quantity : Z) : string :=
  filename +:+ "_" +:+ today +:+ "_" +:+ str_int quantity +:+ ".csv".

(** ** Concrete worlds and records *)

Module Examples.

Definition kfc : string := "https://www.rappi.com.pe/restaurantes/1-kfc".
Definition bembos : string := "https://www.rappi.com.pe/restaurantes/2-bembos".

(** Nothing loads: every wait times out. *)
Definition quiet : World :=
  {| today := "2024-01-01"; login_outcome := Ok ();
     load_more := fun _ => Raise TimeoutException;
     nearest_listing := fun _ => Raise TimeoutException;
     wait_for_request := fun _ => Raise TimeoutException;
     category_buttons := [];
     get_page := fun _ => Raise WebDriverException;
     to_csv := Ok (); workbook_save := Ok () |}.

Definition alitas (pop : bool) (rest : string) (con sin : float)
  : option product :=
  Some (Product (PopBool pop) (Some "Alitas") (Some "6 piezas")
          (PriceNum con) (PriceNum sin) (Some rest)
          (Some "Abre a las 18:00") (Some "Pollo - Peruana")).

Definition frame_of (ps : list (option product)) : list row :=
  map (fun p => Row (default null_product p) "2024-01-01") ps.

(** The same product in two branches of one chain. *)
Definition two_branches : scraper :=
  set_products [alitas false "KFC - Lima" 9 10000.5;
                alitas false "KFC - Surco" 9 10000.5] init.

(** The same product with an empty description and with none. *)
Definition blank_description : scraper :=
  set_products
    [Some (Product (PopBool false) (Some "Alitas") (Some "")
             (PriceNum 9) (PriceNum 10.5) (Some "KFC")
             (Some "Restaurante abierto") (Some "Pollo"));
     Some (Product (PopBool false) (Some "Alitas") None
             (PriceNum 9) (PriceNum 10.5) (Some "KFC")
             (Some "Restaurante abierto") (Some "Pollo"))] init.

(** The same product twice, the second time as a popular one. *)
Definition popular_twice : scraper :=
  set_products [alitas false "KFC" 9 10000.5; alitas true "KFC" 9 10000.5] init.

(** A product whose discounted price is its list price. *)
Definition no_discount : scraper :=
  set_products [alitas false "KFC" 10 10] init.

Definition no_discount_typed : list Frame.typed_row :=
  map (fun r => Frame.TypedRow r 10 10) (frame_of (_products no_discount)).

(** An anchor of an open restaurant: it shows no availability text. *)
Definition anchor (who url : string) : WebElement :=
  {| perform := Ok (); status_text := Raise NoSuchElementException;
     href := Ok (Some url); aria_label := Ok (Some who) |}.

(** An anchor that went stale: scrolling to it raises. *)
Definition stale_anchor : WebElement :=
  {| perform := Raise StaleElementReferenceException;
     status_text := Ok "Abre a las 18:00";
     href := Ok (Some bembos);
     aria_label := Ok (Some "Bembos") |}.

Definition kfc_data : RestaurantData :=
  {| brandName := Some "KFC"; categories := Some "Pollo";
     corridors :=
       [[ {| isPopular := Some (PopBool true); name := Some "Alitas";
             description := Some "6 piezas";
             priceNumber := PriceNum 9; realPrice := PriceNum 10.5 |} ]] |}.

(** Two pages of nearest restaurants: the second click fails. The request
    of the first restaurant is captured, the one of the second times out. *)
Definition two_pages : World :=
  {| today := "2024-01-01"; login_outcome := Ok ();
     load_more := fun i =>
       Ok {| click := if Nat.ltb i 1 then Ok () else Raise WebDriverException |};
     nearest_listing := fun i =>
       Ok (if Nat.ltb i 1 then [anchor "KFC" kfc]
           else [anchor "KFC" kfc; anchor "Bembos" bembos]);
     wait_for_request := fun p =>
       if String.eqb p "1-kfc" then Ok (Ok kfc_data) else Raise TimeoutException;
     category_buttons :=
       [ {| category_click := Ok ();
            category_listing :=
              Ok [anchor "KFC" kfc; anchor "Bembos" bembos] |} ];
     get_page := fun _ => Raise WebDriverException;
     to_csv := Ok (); workbook_save := Ok () |}.

(** A batch of two restaurants, for a world where no request arrives. *)
Definition two_anchors : list WebElement :=
  [anchor "KFC" kfc; anchor "Bembos" bembos].

(** One page, no button, and the second anchor of the page went stale. *)
Definition stale_world : World :=
  {| today := "2024-01-01"; login_outcome := Ok ();
     load_more := fun _ => Raise TimeoutException;
     nearest_listing := fun _ => Ok [anchor "KFC" kfc; stale_anchor];
     wait_for_request := fun p =>
       if String.eqb p "1-kfc" then Ok (Ok kfc_data) else Raise TimeoutException;
     category_buttons := [];
     get_page := fun _ => Raise WebDriverException;
     to_csv := Ok (); workbook_save := Ok () |}.

(** One page is read, with one request captured and one timing out; after
    the click the wait for the next listing times out. *)
Definition listing_times_out : World :=
  {| today := "2024-01-01"; login_outcome := Ok ();
     load_more := fun _ => Ok {| click := Ok () |};
     nearest_listing := fun i =>
       if Nat.ltb i 1 then Ok [anchor "KFC" kfc; anchor "Bembos" bembos]
       else Raise TimeoutException;
     wait_for_request := fun p =>
       if String.eqb p "1-kfc" then Ok (Ok kfc_data) else Raise TimeoutException;
     category_buttons := [];
     get_page := fun _ => Raise WebDriverException;
     to_csv := Ok (); workbook_save := Ok () |}.

(** A category whose second anchor went stale: its link cannot be
    read. *)
Definition stale_category : Category :=
  {| category_click := Ok ();
     category_listing :=
       Ok [anchor "Bembos" bembos;
           {| perform := Ok (); status_text := Raise NoSuchElementException;
              href := Raise StaleElementReferenceException;
              aria_label := Ok (Some "KFC") |}] |}.

(** A card with a discounted and a list price. *)
Definition two_prices : ProductElement :=
  {| popular_text := Raise NoSuchElementException;
     name_text := Ok "Alitas"; description_text := Ok "6 piezas";
     prices_text := Ok "S/ 9.90 S/ 12.90" |}.

(** A record of the DOM path whose list price has a separator of
    thousands. *)
Definition thousands_price : scraper :=
  set_products
    [Some (Product (PopBool false) (Some "Parrillada") (Some "Para cuatro")
             (PriceStr "") (PriceStr "1,234.50") (Some "KFC - Lima")
             (Some "Abre a las 18:00") (Some "Pollo"))] init.

(** The cards of one page, the second of which could not be read. *)
Definition one_failed_card : scraper :=
  set_products
    [Some (Product (PopBool true) (Some "Alitas") (Some "6 piezas")
             (PriceStr "9.90 ") (PriceStr "12.90") (Some "KFC")
             (Some "Restaurante abierto") None);
     None] init.

End Examples.

(** * Facts about the display of prices *)

Module PriceFacts.
Import PyFloat.

(** ** Printing the digits *)

Lemma digit_cases d :
  0 <= d < 10 ->
  d = 0 \/ d = 1 \/ d = 2 \/ d = 3 \/ d = 4 \/ d = 5 \/ d = 6 \/ d = 7
  \/ d = 8 \/ d = 9.
Proof. lia. Qed.

Lemma digit_char_spec d :
  0 <= d < 10 ->
  is_digit (digit_char d) = true /\ digit_val (digit_char d) = d.
Proof.
  intros H. destruct (digit_cases d H) as [->|[->|[->|[->|[->|[->|[->|[->|[->| ->]]]]]]]]];
    by vm_compute.
Qed.

Lemma is_digit_numeric c : is_digit c = true -> numeric_char c = true.
Proof. unfold numeric_char. by intros ->. Qed.

Lemma is_digit_plain c :
  is_digit c = true ->
  is_space c = false /\ Ascii.eqb c "-" = false /\ Ascii.eqb c "+" = false
  /\ Ascii.eqb c "_" = false /\ Ascii.eqb c "." = false
  /\ Ascii.eqb c "," = false /\ lower c = c.
Proof.
  unfold is_digit, is_space, lower. intros H.
  apply andb_true_iff in H as [H1 H2].
  apply N.leb_le in H1. apply N.leb_le in H2.
  assert (Hne : forall k : N, (k < 48 \/ 57 < k)%N -> (k < 256)%N ->
            Ascii.eqb c (ascii_of_N k) = false).
  { intros k Hk Hlt. apply Ascii.eqb_neq. intros ->.
    rewrite N_ascii_embedding in H1, H2 by done. lia. }
  repeat split.
  - apply orb_false_iff. split.
    + apply andb_false_iff. right. apply N.leb_gt. lia.
    + apply N.eqb_neq. lia.
  - apply (Hne 45%N); lia.
  - apply (Hne 43%N); lia.
  - apply (Hne 95%N); lia.
  - apply (Hne 46%N); lia.
  - apply (Hne 44%N); lia.
  - replace ((65 <=? N_of_ascii c)%N && (N_of_ascii c <=? 90)%N) with false;
      [done|].
    symmetry. apply andb_false_iff. left. apply N.leb_gt. lia.
Qed.

Lemma Z_of_digits_app ds d :
  Z_of_digits (ds ++ [d]) = 10 * Z_of_digits ds + d.
Proof. unfold Z_of_digits. by rewrite fold_left_app. Qed.

Lemma Z_of_digits_app2 ds d1 d2 :
  Z_of_digits (ds ++ [d1; d2]) = 100 * Z_of_digits ds + 10 * d1 + d2.
Proof.
  change [d1; d2] with ([d1] ++ [d2]). rewrite app_assoc, !Z_of_digits_app. lia.
Qed.

Lemma digits_from_spec fuel : forall n acc,
  0 <= n < 10 ^ Z.of_nat (S fuel) ->
  exists l, digits_from (S fuel) n acc = l ++ acc /\ l <> []
            /\ forallb is_digit l = true
            /\ Z_of_digits (map digit_val l) = n.
Proof.
  induction fuel as [|fuel IH]; intros n acc Hn; cbn [digits_from];
    destruct (Z.ltb_spec n 10) as [Hlt|Hge].
  - exists [digit_char (n mod 10)]. rewrite Z.mod_small by lia.
    destruct (digit_char_spec n) as [H1 H2]; [lia|].
    repeat split; [done|by simpl; rewrite H1|by simpl; rewrite H2].
  - simpl in Hn. lia.
  - exists [digit_char (n mod 10)]. rewrite Z.mod_small by lia.
    destruct (digit_char_spec n) as [H1 H2]; [lia|].
    repeat split; [done|by simpl; rewrite H1|by simpl; rewrite H2].
  - destruct (IH (n / 10) (digit_char (n mod 10) :: acc))
      as (l & Hl & Hne & Hd & Hv).
    { split; [apply Z.div_pos; lia|].
      apply Z.div_lt_upper_bound; [lia|].
      rewrite (Nat2Z.inj_succ (S fuel)), Z.pow_succ_r in Hn by lia. lia. }
    exists (l ++ [digit_char (n mod 10)]).
    destruct (digit_char_spec (n mod 10)) as [H1 H2];
      [apply Z.mod_pos_bound; lia|].
    repeat split.
    + cbn [digits_from] in Hl. by rewrite Hl, <- app_assoc.
    + by destruct l.
    + rewrite forallb_app, Hd. simpl. by rewrite H1.
    + rewrite map_app. cbn [map]. rewrite Z_of_digits_app, Hv, H2.
      symmetry. apply Z.div_mod. lia.
Qed.

Lemma digits_of_spec n :
  0 <= n ->
  digits_of n <> [] /\ forallb is_digit (digits_of n) = true
  /\ Z_of_digits (map digit_val (digits_of n)) = n.
Proof.
  intros Hn. unfold digits_of.
  destruct (digits_from_spec (Z.to_nat (Z.log2 n)) n []) as (l & -> & H).
  - split; [done|].
    rewrite Nat2Z.inj_succ, Z2Nat.id by apply Z.log2_nonneg.
    destruct (Z.eq_dec n 0) as [->|Hne]; [by vm_compute|].
    destruct (Z.log2_spec n) as [_ Hlt]; [lia|].
    eapply Z.lt_le_trans; [exact Hlt|].
    apply Z.pow_le_mono_l. split; [lia|lia].
  - by rewrite app_nil_r.
Qed.

(** ** Reading the digits back *)

Lemma digit_tail_point l r :
  forallb is_digit l = true ->
  digit_tail (l ++ "."%char :: r) = (map digit_val l, "."%char :: r).
Proof.
  induction l as [|c l IH]; intros H; [done|].
  simpl in H. apply andb_true_iff in H as [Hc Hl].
  simpl. by rewrite Hc, IH.
Qed.

Lemma digit_tail_end l :
  forallb is_digit l = true -> digit_tail l = (map digit_val l, []).
Proof.
  induction l as [|c l IH]; intros H; [done|].
  simpl in H. apply andb_true_iff in H as [Hc Hl].
  simpl. by rewrite Hc, IH.
Qed.

Lemma lstrip_head c l : is_space c = false -> lstrip (c :: l) = c :: l.
Proof. intros H. simpl. by rewrite H. Qed.

Lemma strip_plain l c d :
  is_space (hd c (l ++ [d])) = false -> is_space d = false ->
  strip (l ++ [d]) = l ++ [d].
Proof.
  intros Hc Hd. unfold strip.
  assert (Hl : lstrip (l ++ [d]) = l ++ [d]).
  { destruct l as [|x l]; simpl in *; [by rewrite Hd|by rewrite Hc]. }
  rewrite Hl, rev_unit, lstrip_head by done.
  by rewrite <- rev_unit, rev_involutive.
Qed.

Lemma not_a_word d l w :
  is_digit d = true ->
  (w = "inf" \/ w = "infinity" \/ w = "nan") ->
  String.eqb (string_of_list_ascii (map lower (d :: l))) w = false.
Proof.
  intros Hd Hw. apply String.eqb_neq. simpl.
  destruct (is_digit_plain d Hd) as (_ & _ & _ & _ & _ & _ & ->).
  unfold is_digit in Hd. apply andb_true_iff in Hd as [H1 H2].
  apply N.leb_le in H1. apply N.leb_le in H2.
  destruct Hw as [->|[->| ->]]; intros [= -> _]; vm_compute in H2; done.
Qed.

(** A sign, digits, a point and two digits read as that many hundredths. *)
Lemma float_of_cents s D c1 c2 :
  D <> [] -> forallb is_digit D = true ->
  is_digit c1 = true -> is_digit c2 = true ->
  float_of_string
    (string_of_list_ascii (sign_chars s ++ D ++ "."%char :: [c1; c2]))
  = Some (with_sign s
            (nearest_double
               (Z_of_digits (map digit_val D ++ [digit_val c1; digit_val c2]))
               100)).
Proof.
  intros Hne HD H1 H2. unfold float_of_string.
  rewrite list_ascii_of_string_of_list_ascii.
  destruct D as [|d D]; [done|]. simpl in HD.
  apply andb_true_iff in HD as [Hd HD].
  destruct (is_digit_plain d Hd) as (Sd & Md & Pd & _).
  destruct (is_digit_plain c2 H2) as (S2 & _).
  assert (Habs : absfloatvalue ((d :: D) ++ "."%char :: [c1; c2])
                 = Some (nearest_double
                           (Z_of_digits (map digit_val (d :: D)
                                           ++ [digit_val c1; digit_val c2]))
                           100)).
  { unfold absfloatvalue.
    change ((d :: D) ++ "."%char :: [c1; c2])
      with (d :: (D ++ "."%char :: [c1; c2])).
    rewrite !(not_a_word d) by auto. simpl orb. cbv iota.
    unfold number, digitpart. rewrite Hd, digit_tail_point by done.
    simpl. rewrite H1, H2. simpl. done. }
  assert (Hstrip : strip (sign_chars s ++ (d :: D) ++ "."%char :: [c1; c2])
                   = sign_chars s ++ (d :: D) ++ "."%char :: [c1; c2]).
  { replace (sign_chars s ++ (d :: D) ++ "."%char :: [c1; c2])
      with ((sign_chars s ++ (d :: D) ++ ["."%char; c1]) ++ [c2])
      by (by rewrite <- !app_assoc).
    apply (strip_plain _ d); [|done]. by destruct s. }
  rewrite Hstrip. destruct s; simpl sign_chars.
  - change (["-"%char] ++ (d :: D) ++ "."%char :: [c1; c2])
      with ("-"%char :: ((d :: D) ++ "."%char :: [c1; c2])).
    cbn [sign]. change (Ascii.eqb "-" "-") with true. cbv iota.
    by rewrite Habs.
  - change ([] ++ (d :: D) ++ "."%char :: [c1; c2])
      with (d :: (D ++ "."%char :: [c1; c2])).
    unfold sign. rewrite Md, Pd.
    change (d :: (D ++ "."%char :: [c1; c2]))
      with ((d :: D) ++ "."%char :: [c1; c2]).
    by rewrite Habs.
Qed.

(** ** The separators *)

Lemma remove_char_list a l :
  remove_char a (string_of_list_ascii l)
  = string_of_list_ascii (List.filter (fun c => negb (Ascii.eqb c a)) l).
Proof.
  induction l as [|c l IH]; [done|]. simpl.
  destruct (Ascii.eqb c a); simpl; by rewrite IH.
Qed.

Lemma filter_group_rev l : forall cnt,
  List.filter not_comma (group_rev cnt l) = List.filter not_comma l.
Proof.
  induction l as [|c l IH]; intros cnt; [done|].
  destruct cnt as [|[|[|[|cnt]]]]; simpl; by rewrite IH.
Qed.

Lemma filter_rev_comma l :
  List.filter not_comma (rev l) = rev (List.filter not_comma l).
Proof.
  induction l as [|c l IH]; [done|]. simpl.
  rewrite List.filter_app, IH. simpl.
  destruct (not_comma c); [done|]. by rewrite app_nil_r.
Qed.

Lemma filter_digits l :
  forallb is_digit l = true -> List.filter not_comma l = l.
Proof.
  induction l as [|c l IH]; intros H; [done|].
  simpl in H. apply andb_true_iff in H as [Hc Hl]. simpl.
  destruct (is_digit_plain c Hc) as (_ & _ & _ & _ & _ & Hcomma & _).
  assert (Hn : not_comma c = true) by (unfold not_comma; by rewrite Hcomma).
  by rewrite Hn, IH.
Qed.

Lemma filter_thousands l :
  forallb is_digit l = true -> List.filter not_comma (thousands l) = l.
Proof.
  intros H. unfold thousands.
  rewrite filter_rev_comma, filter_group_rev, filter_rev_comma, rev_involutive.
  by apply filter_digits.
Qed.

Lemma swap_separators_list l :
  PyStr.swap_separators (string_of_list_ascii l)
  = string_of_list_ascii (map swap_char l).
Proof.
  unfold PyStr.swap_separators.
  induction l as [|c l IH]; [done|]. simpl. rewrite IH. f_equal.
  unfold swap_char.
  destruct (Ascii.eqb_spec c ",") as [->|H1]; [done|].
  destruct (Ascii.eqb_spec c ".") as [->|H2]; [done|].
  by destruct (Ascii.eqb_spec c ";") as [->|H3].
Qed.

Lemma swap_char_involutive c :
  numeric_char c = true -> swap_char (swap_char c) = c.
Proof.
  unfold numeric_char. intros H.
  destruct (Ascii.eqb_spec c ",") as [E|H1]; [by rewrite E|].
  destruct (Ascii.eqb_spec c ".") as [E|H2]; [by rewrite E|].
  destruct (Ascii.eqb_spec c ";") as [E|H3]; [by rewrite E in H|].
  assert (S1 : swap_char c = c).
  { unfold swap_char.
    by rewrite (proj2 (Ascii.eqb_neq c ",") H1), (proj2 (Ascii.eqb_neq c ".") H2),
      (proj2 (Ascii.eqb_neq c ";") H3). }
  by rewrite !S1.
Qed.

Lemma swap_swap l :
  forallb numeric_char l = true -> map swap_char (map swap_char l) = l.
Proof.
  induction l as [|c l IH]; intros H; [done|].
  simpl in H. apply andb_true_iff in H as [Hc Hl]. simpl.
  by rewrite swap_char_involutive, IH.
Qed.

Lemma forallb_digit_numeric l :
  forallb is_digit l = true -> forallb numeric_char l = true.
Proof.
  induction l as [|c l IH]; intros H; [done|].
  simpl in H. apply andb_true_iff in H as [Hc Hl]. simpl.
  by rewrite is_digit_numeric, IH.
Qed.

Lemma group_rev_numeric l : forall cnt,
  forallb numeric_char l = true -> forallb numeric_char (group_rev cnt l) = true.
Proof.
  induction l as [|c l IH]; intros cnt H; [done|].
  simpl in H. apply andb_true_iff in H as [Hc Hl].
  destruct cnt as [|[|[|[|cnt]]]]; simpl; by rewrite Hc, IH.
Qed.

Lemma forallb_rev {A} (f : A -> bool) l :
  forallb f (rev l) = forallb f l.
Proof.
  induction l as [|c l IH]; [done|]. simpl.
  rewrite forallb_app, IH. simpl. by rewrite andb_true_r, andb_comm.
Qed.

Lemma cents_numeric s k :
  0 <= k -> forallb numeric_char (sign_chars s ++ cents k) = true.
Proof.
  intros Hk. unfold cents, thousands.
  destruct (digits_of_spec (k / 100)) as (_ & Hd & _); [by apply Z.div_pos|].
  destruct (digit_char_spec (k mod 100 / 10)) as [H1 _].
  { split; [apply Z.div_pos; [apply Z.mod_pos_bound|]; lia|].
    apply Z.div_lt_upper_bound; [lia|]. pose proof (Z.mod_pos_bound k 100). lia. }
  destruct (digit_char_spec (k mod 10)) as [H2 _];
    [apply Z.mod_pos_bound; lia|].
  rewrite !forallb_app, forallb_rev, group_rev_numeric.
  - simpl. rewrite (is_digit_numeric _ H1), (is_digit_numeric _ H2).
    by destruct s.
  - rewrite forallb_rev. by apply forallb_digit_numeric.
Qed.

(** The display of [k] hundredths reads back as the float nearest to
    [k / 100]. *)
Lemma parse_display_cents s k :
  0 <= k ->
  parse_display
    (PyStr.swap_separators (string_of_list_ascii (sign_chars s ++ cents k)))
  = Some (with_sign s (nearest_double k 100)).
Proof.
  intros Hk. unfold parse_display.
  rewrite !swap_separators_list, swap_swap by by apply cents_numeric.
  rewrite remove_char_list.
  change (fun c => negb (Ascii.eqb c ",")) with not_comma.
  destruct (digits_of_spec (k / 100)) as (Hne & Hd & Hv); [by apply Z.div_pos|].
  assert (Hr1 : 0 <= k mod 100 / 10 < 10).
  { split; [apply Z.div_pos; [apply Z.mod_pos_bound|]; lia|].
    apply Z.div_lt_upper_bound; [lia|]. pose proof (Z.mod_pos_bound k 100). lia. }
  destruct (digit_char_spec (k mod 100 / 10) Hr1) as [H1 V1].
  destruct (digit_char_spec (k mod 10)) as [H2 V2];
    [apply Z.mod_pos_bound; lia|].
  destruct (is_digit_plain _ H1) as (_ & _ & _ & _ & _ & C1 & _).
  destruct (is_digit_plain _ H2) as (_ & _ & _ & _ & _ & C2 & _).
  unfold cents. rewrite !List.filter_app, filter_thousands by done.
  replace (List.filter not_comma (sign_chars s)) with (sign_chars s)
    by (by destruct s).
  assert (N1 : not_comma (digit_char (k mod 100 / 10)) = true)
    by (unfold not_comma; by rewrite C1).
  assert (N2 : not_comma (digit_char (k mod 10)) = true)
    by (unfold not_comma; by rewrite C2).
  cbn [List.filter]. rewrite N1, N2.
  change (not_comma "."%char) with true. cbv iota.
  rewrite float_of_cents by done.
  rewrite Z_of_digits_app2, Hv, V1, V2. do 3 f_equal.
  pose proof (Z.div_mod k 100). pose proof (Z.div_mod (k mod 100) 10).
  assert (k mod 100 mod 10 = k mod 10).
  { apply Z.mod_mod_divide. by exists 10. }
  lia.
Qed.

Lemma hundredths_nonneg m e : 0 <= hundredths m e.
Proof.
  unfold hundredths, round_half_even. destruct (0 <=? e) eqn:E; [lia|].
  assert (0 <= 100 * Z.pos m / Z.pos (Z.to_pos (2 ^ (- e))))
    by (apply Z.div_pos; lia).
  destruct (_ ?= _); [destruct (Z.even _)| |]; lia.
Qed.

(** The display of a finite price reads back as the price rounded to two
    decimals. *)
Lemma parse_display_price x s m e :
  Prim2SF x = S754_finite s m e ->
  parse_display (Frame.display_price x) = Some (round2 x).
Proof.
  intros H. unfold Frame.display_price, format_2f, round2. rewrite H.
  apply parse_display_cents, hundredths_nonneg.
Qed.

End PriceFacts.

(** * Facts about the cleaning stage *)

Module FrameFacts.
Import Frame.

(** ** The order of [sort_values] *)

Lemma lawful_compatible {A} (c : A -> A -> comparison) :
  lawful c -> forall x y z, compatible (c x y) (c y z) (c x z).
Proof.
  intros (He & Hr & Ho & Ht) x y z. repeat split.
  - intros H. apply He in H. by subst.
  - intros H. apply He in H. by subst.
  - apply Ht.
  - intros H1 H2. rewrite (Ho z x). rewrite (Ht z y x); [done| |].
    + rewrite (Ho y z), H2. done.
    + rewrite (Ho x y), H1. done.
Qed.

Lemma lex_compatible a12 a23 a13 b12 b23 b13 :
  compatible a12 a23 a13 -> compatible b12 b23 b13 ->
  compatible (lex a12 b12) (lex a23 b23) (lex a13 b13).
Proof.
  unfold compatible.
  destruct a12, a23, a13; simpl; intuition congruence.
Qed.

Lemma compatible_le a12 a23 a13 :
  compatible a12 a23 a13 -> a12 <> Gt -> a23 <> Gt -> a13 <> Gt.
Proof.
  unfold compatible. destruct a12, a23, a13; intuition congruence.
Qed.

Lemma string_compare_refl s : String.compare s s = Eq.
Proof.
  induction s as [|a s IH]; simpl; [done|].
  unfold Ascii.compare. by rewrite N.compare_refl.
Qed.

Lemma string_compare_trans x : forall y z,
  String.compare x y = Lt -> String.compare y z = Lt -> String.compare x z = Lt.
Proof.
  induction x as [|a x IH]; intros [|b y] [|c z]; simpl; try congruence.
  unfold Ascii.compare.
  destruct (N.compare_spec (N_of_ascii a) (N_of_ascii b)) as [E1|L1|G1];
    destruct (N.compare_spec (N_of_ascii b) (N_of_ascii c)) as [E2|L2|G2];
    destruct (N.compare_spec (N_of_ascii a) (N_of_ascii c)) as [E3|L3|G3];
    try congruence; try lia; eauto.
Qed.

Lemma string_compare_lawful : lawful String.compare.
Proof.
  repeat split.
  - apply String.compare_eq_iff.
  - apply string_compare_refl.
  - intros x y. apply String.compare_antisym.
  - apply string_compare_trans.
Qed.

Lemma text_compare_lawful : lawful text_compare.
Proof.
  destruct string_compare_lawful as (He & Hr & Ho & Ht).
  repeat split.
  - intros [x|] [y|]; simpl; try congruence. intros H. f_equal. by apply He.
  - intros [x|]; simpl; auto.
  - intros [x|] [y|]; simpl; auto.
  - intros [x|] [y|] [z|]; simpl; try congruence. apply Ht.
Qed.

Lemma popular_compare_desc_lawful : lawful popular_compare_desc.
Proof.
  destruct string_compare_lawful as (He & Hr & Ho & Ht).
  repeat split.
  - intros [|[]|x] [|[]|y]; simpl; try congruence.
    intros H. f_equal. apply He. by destruct (String.compare x y).
  - intros [|[]|x]; simpl; auto. by rewrite Hr.
  - intros [|[]|x] [|[]|y]; simpl; auto. by rewrite (Ho x y).
  - intros [|[]|x] [|[]|y] [|[]|z]; simpl; try congruence.
    intros H1 H2.
    rewrite (Ho y x) in H1. rewrite (Ho z y) in H2. rewrite (Ho z x).
    rewrite (Ht z y x); [done| |].
    + by destruct (String.compare z y).
    + by destruct (String.compare y x).
Qed.

Lemma row_compare_compatible r1 r2 r3 :
  compatible (row_compare r1 r2) (row_compare r2 r3) (row_compare r1 r3).
Proof.
  unfold row_compare.
  repeat apply lex_compatible;
    (apply lawful_compatible;
     [apply text_compare_lawful || apply popular_compare_desc_lawful]).
Qed.

Lemma row_leb_trans r1 r2 r3 :
  row_leb r1 r2 = true -> row_leb r2 r3 = true -> row_leb r1 r3 = true.
Proof.
  unfold row_leb. intros H1 H2.
  pose proof (compatible_le _ _ _ (row_compare_compatible r1 r2 r3)) as H.
  destruct (row_compare r1 r2), (row_compare r2 r3), (row_compare r1 r3);
    try done; exfalso; apply H; congruence.
Qed.

Lemma row_compare_opp r1 r2 : row_compare r2 r1 = CompOpp (row_compare r1 r2).
Proof.
  destruct text_compare_lawful as (_ & _ & Ho & _).
  destruct popular_compare_desc_lawful as (_ & _ & Hp & _).
  unfold row_compare.
  rewrite (Ho (Restaurante (cells r1))), (Ho (Producto (cells r1))),
    (Ho (Descripcion (cells r1))), (Hp (Popular (cells r1))).
  destruct (text_compare (Restaurante (cells r1)) (Restaurante (cells r2)));
  destruct (text_compare (Producto (cells r1)) (Producto (cells r2)));
  destruct (text_compare (Descripcion (cells r1)) (Descripcion (cells r2)));
  simpl; done.
Qed.

Lemma row_leb_total r1 r2 : row_leb r1 r2 = false -> row_leb r2 r1 = true.
Proof.
  unfold row_leb. rewrite (row_compare_opp r1 r2).
  by destruct (row_compare r1 r2).
Qed.

Lemma row_leb_refl r : row_leb r r = true.
Proof.
  destruct text_compare_lawful as (_ & Hr & _ & _).
  destruct popular_compare_desc_lawful as (_ & Hp & _ & _).
  unfold row_leb, row_compare. by rewrite !Hr, Hp.
Qed.

Lemma text_compare_refl x : text_compare x x = Eq.
Proof. by destruct text_compare_lawful as (_ & Hr & _). Qed.

(** ** [sort_values] and [drop_duplicates] *)

Lemma insert_row_perm r l : insert_row r l ≡ₚ r :: l.
Proof.
  induction l as [|y l IH]; simpl; [done|].
  destruct (row_leb r y); [done|].
  rewrite IH. apply Permutation_swap.
Qed.

Lemma sort_values_perm l : sort_values l ≡ₚ l.
Proof.
  induction l as [|r l IH]; simpl; [done|].
  by rewrite insert_row_perm, IH.
Qed.

Lemma insert_row_sorted r l : sorted l -> sorted (insert_row r l).
Proof.
  unfold sorted. induction 1 as [|y l Hs IH Hy]; simpl.
  - repeat constructor.
  - destruct (row_leb r y) eqn:E.
    + constructor; [by constructor|]. constructor; [done|].
      eapply Forall_impl; [exact Hy|]. intros z Hz. simpl in Hz.
      by apply (row_leb_trans r y z).
    + constructor; [done|].
      rewrite insert_row_perm. constructor; [|done].
      by apply row_leb_total.
Qed.

Lemma sort_values_sorted l : sorted (sort_values l).
Proof.
  induction l as [|r l IH]; simpl; [constructor|].
  by apply insert_row_sorted.
Qed.

Lemma sort_values_of_sorted l : sorted l -> sort_values l = l.
Proof.
  unfold sorted. induction 1 as [|y l Hs IH Hy]; simpl; [done|].
  rewrite IH. destruct Hy as [|z l Hz _]; simpl; [done|]. by rewrite Hz.
Qed.

Lemma drop_duplicates_from_sublist l : forall seen,
  drop_duplicates_from seen l `sublist_of` l.
Proof.
  induction l as [|r l IH]; intros seen; simpl; [done|].
  case_bool_decide.
  - by apply sublist_cons.
  - by apply sublist_skip.
Qed.

Lemma drop_duplicates_from_fresh l : forall seen r,
  r ∈ drop_duplicates_from seen l -> key_of r ∉ seen.
Proof.
  induction l as [|y l IH]; intros seen r; simpl.
  - by intros ?%elem_of_nil.
  - case_bool_decide as Hy.
    + apply IH.
    + intros [->|Hr]%elem_of_cons; [done|].
      apply IH in Hr. intros Hk. apply Hr, elem_of_cons. by right.
Qed.

Lemma drop_duplicates_from_NoDup l : forall seen,
  NoDup (map key_of (drop_duplicates_from seen l)).
Proof.
  induction l as [|y l IH]; intros seen; simpl.
  - constructor.
  - case_bool_decide as Hy; [apply IH|].
    simpl. constructor; [|apply IH].
    intros (r & Hk & Hr)%list_elem_of_In%in_map_iff.
    apply list_elem_of_In, drop_duplicates_from_fresh in Hr.
    apply Hr. rewrite Hk. apply elem_of_cons. by left.
Qed.

(** The row kept for a key is the first of that key. *)
Lemma drop_duplicates_from_first l : forall seen r,
  sorted l -> r ∈ l -> key_of r ∉ seen ->
  exists r', r' ∈ drop_duplicates_from seen l /\ key_of r' = key_of r
             /\ row_leb r' r = true.
Proof.
  unfold sorted.
  induction l as [|y l IH]; intros seen r Hs Hr Hseen; simpl.
  - by apply elem_of_nil in Hr.
  - apply StronglySorted_inv in Hs as [Hs Hy].
    case_bool_decide as Hyseen.
    + apply elem_of_cons in Hr as [->|Hr]; [done|]. by apply IH.
    + destruct (decide (key_of y = key_of r)) as [Heq|Hne].
      * exists y. split; [by apply list_elem_of_here|]. split; [done|].
        apply elem_of_cons in Hr as [->|Hr]; [apply row_leb_refl|].
        rewrite Forall_forall in Hy. by apply Hy.
      * apply elem_of_cons in Hr as [->|Hr]; [done|].
        destruct (IH (key_of y :: seen) r Hs Hr) as (r' & H1 & H2 & H3).
        { intros [Hk|Hk]%elem_of_cons; [by apply Hne|by apply Hseen]. }
        exists r'. split; [by apply list_elem_of_further|done].
Qed.

Lemma drop_duplicates_from_id l : forall seen,
  NoDup (map key_of l) -> (forall r, r ∈ l -> key_of r ∉ seen) ->
  drop_duplicates_from seen l = l.
Proof.
  induction l as [|y l IH]; intros seen Hnd Hseen; simpl; [done|].
  simpl in Hnd. apply NoDup_cons in Hnd as [Hy Hnd].
  case_bool_decide as Hin.
  { exfalso. apply (Hseen y); [apply list_elem_of_here|done]. }
  f_equal. apply IH; [done|].
  intros r Hr [Hk|Hin']%elem_of_cons.
  - apply Hy. apply list_elem_of_In, in_map_iff. exists r.
    split; [done|]. by apply list_elem_of_In.
  - by apply (Hseen r); [apply list_elem_of_further|].
Qed.

Lemma sorted_sublist l1 l2 : l1 `sublist_of` l2 -> sorted l2 -> sorted l1.
Proof.
  unfold sorted. induction 1 as [|x l1 l2 Hsub IH|x l1 l2 Hsub IH]; intros Hs.
  - constructor.
  - apply StronglySorted_inv in Hs as [Hs Hx].
    constructor; [by apply IH|].
    rewrite Forall_forall in *. intros z Hz. apply Hx.
    by eapply elem_of_sublist.
  - apply StronglySorted_inv in Hs as [Hs Hx]. by apply IH.
Qed.

Lemma dedup_stage_idempotent l : dedup_stage (dedup_stage l) = dedup_stage l.
Proof.
  unfold dedup_stage, drop_duplicates.
  rewrite sort_values_of_sorted.
  - apply drop_duplicates_from_id; [apply drop_duplicates_from_NoDup|].
    intros r _ ?%elem_of_nil. done.
  - eapply sorted_sublist; [apply drop_duplicates_from_sublist|].
    apply sort_values_sorted.
Qed.

(** ** [astype] and what [process_data] leaves in the data set *)

Lemma astype_spec l : forall ts, astype l = Ok ts ->
  Forall2 (fun r t => t_row t = r
             /\ price_to_float (Precio_con_descuento (cells r)) = Ok (t_con t)
             /\ price_to_float (Precio_sin_descuento (cells r)) = Ok (t_sin t))
          l ts.
Proof.
  induction l as [|r l IH]; simpl; intros ts H.
  - injection H as <-. constructor.
  - unfold astype_row in H.
    destruct (price_to_float (Precio_con_descuento (cells r))) as [c|] eqn:Ec;
      [|discriminate].
    destruct (price_to_float (Precio_sin_descuento (cells r))) as [s|] eqn:Es;
      [|discriminate].
    destruct (astype l) as [ts'|]; [|discriminate].
    injection H as <-. constructor; [done|by apply IH].
Qed.

Lemma first_of_key_popular r' r :
  key_of r' = key_of r -> row_leb r' r = true ->
  Popular (cells r) = PopBool true ->
  (forall s, Popular (cells r') <> PopStr s) ->
  Popular (cells r') = PopBool true.
Proof.
  unfold key_of, row_leb, row_compare. intros [= H1 H2 H3] Hle Hp Hs.
  rewrite H1, H2, H3, !text_compare_refl, Hp in Hle. simpl in Hle.
  destruct (Popular (cells r')) as [|[]|s]; try done. by destruct (Hs s).
Qed.

Lemma process_data_dataset w st df :
  DataFrame (_products st) (today w) = Ok df ->
  _dataset (process_data w st) =
    match astype (map replace_empty (dedup_stage df)) with
    | Ok ts => map clean_row ts
    | Raise _ => map replace_empty (dedup_stage df)
    end.
Proof.
  intros H. unfold process_data. rewrite H.
  by destruct (astype (map replace_empty (dedup_stage df))).
Qed.

(** ** The replacements are idempotent *)

Import PyStr.

Lemma strip_suffix_from_false c s :
  PyStr.strip_suffix_from false (String c s)
  = if PyStr.suffix_starts (String c s) then PyStr.strip_suffix_from true s
    else String c (PyStr.strip_suffix_from false s).
Proof. reflexivity. Qed.

Lemma skipped_at_line_end s : at_line_end (strip_suffix_from true s).
Proof.
  induction s as [|c s IH]; simpl; [done|].
  destruct (is_newline c) eqn:E; [|done]. simpl. done.
Qed.

Lemma at_line_end_no_start s : at_line_end s -> suffix_starts s = false.
Proof.
  destruct s as [|c [|d [|x s]]]; simpl; try done.
  unfold is_newline. intros ->%Ascii.eqb_eq. done.
Qed.

(** The first character of the result, when it does not start a line, is
    the first character of the string. *)
Lemma kept_head s a t :
  strip_suffix_from false s = String a t -> is_newline a = false ->
  exists s', s = String a s' /\ strip_suffix_from false s' = t
             /\ suffix_starts s = false.
Proof.
  destruct s as [|c s]; [done|]. rewrite strip_suffix_from_false.
  destruct (suffix_starts (String c s)) eqn:E.
  - intros H Ha. pose proof (skipped_at_line_end s) as Hs.
    rewrite H in Hs. simpl in Hs. congruence.
  - intros [= -> <-] _. eauto.
Qed.

Lemma no_new_start c s :
  suffix_starts (String c s) = false ->
  suffix_starts (String c (strip_suffix_from false s)) = false.
Proof.
  intros Hno.
  destruct (suffix_starts (String c (strip_suffix_from false s))) eqn:E; [|done].
  exfalso. simpl in E.
  destruct (strip_suffix_from false s) as [|d [|x t]] eqn:Hs; try done.
  apply andb_true_iff in E as [E Hx]. apply andb_true_iff in E as [Hc Hd].
  apply Ascii.eqb_eq in Hd as ->. apply negb_true_iff in Hx.
  destruct (kept_head s "-" (String x t) Hs) as (s' & -> & Hs' & _); [done|].
  destruct (kept_head s' x t Hs' Hx) as (s'' & -> & _ & _).
  simpl in Hno. rewrite Hc, Hx in Hno. done.
Qed.

Lemma strip_suffix_from_idempotent s : forall b,
  strip_suffix_from false (strip_suffix_from b s) = strip_suffix_from b s.
Proof.
  induction s as [|c s IH]; intros b; [by destruct b|].
  destruct b.
  - simpl. destruct (is_newline c) eqn:E; [|apply IH].
    rewrite strip_suffix_from_false, at_line_end_no_start by done.
    by rewrite IH.
  - rewrite strip_suffix_from_false.
    destruct (suffix_starts (String c s)) eqn:E; [apply IH|].
    rewrite strip_suffix_from_false, no_new_start by done. by rewrite IH.
Qed.

Lemma strip_suffix_idempotent s : strip_suffix (strip_suffix s) = strip_suffix s.
Proof. apply strip_suffix_from_idempotent. Qed.

Lemma closed_label_idempotent s : closed_label (closed_label s) = closed_label s.
Proof.
  unfold closed_label at 2 3.
  destruct (strip_prefix "Abre" s) as [[|x r]|] eqn:E; unfold closed_label;
    rewrite ?E; try done.
  destruct (is_newline x) eqn:Hx; [by rewrite E, Hx|done].
Qed.

Lemma replace_empty_idempotent r :
  Frame.replace_empty (Frame.replace_empty r) = Frame.replace_empty r.
Proof.
  destruct r as [[pop n d con sin rest disp cat] f]. unfold Frame.replace_empty.
  simpl. f_equal. f_equal.
  - by destruct pop as [| |[|]].
  - by destruct n as [[|]|].
  - by destruct d as [[|]|].
  - by destruct con as [| |[|]].
  - by destruct sin as [| |[|]].
  - by destruct rest as [[|]|].
  - by destruct disp as [[|]|].
  - by destruct cat as [[|]|].
Qed.

End FrameFacts.

(** * The cleaning stage: what [process_data] guarantees *)

Section Cleaning.
Import Frame FrameFacts Examples.

(** C1 (as amended). After [sort_values] and [drop_duplicates] no two rows
    share the raw triple (Restaurante, Producto, Descripcion); every triple
    of the input keeps one row, a popular one if one of its records was
    popular (the records carrying booleans, as both extraction paths emit
    them); and the data set has one row per kept row, in order: the kept
    rows with their empty strings replaced when [astype] raised, their
    cleaned versions otherwise. Nothing is said of the triples after the
    cleaning. *)
Theorem process_data_dedup_raw_triples w st df :
  DataFrame (_products st) (today w) = Ok df ->
  let kept := dedup_stage df in
  NoDup (map key_of kept)
  /\ (forall r, r ∈ kept -> r ∈ df)
  /\ (forall r, r ∈ df ->
        exists r', r' ∈ kept /\ key_of r' = key_of r
          /\ ((forall x s, x ∈ df -> Popular (cells x) <> PopStr s) ->
              Popular (cells r) = PopBool true ->
              Popular (cells r') = PopBool true))
  /\ (_dataset (process_data w st) = map replace_empty kept
      \/ exists ts, map t_row ts = map replace_empty kept
           /\ _dataset (process_data w st) = map clean_row ts).
Proof.
  intros Hdf kept. subst kept. unfold dedup_stage, drop_duplicates.
  assert (Hsub : forall r,
            r ∈ drop_duplicates_from [] (sort_values df) -> r ∈ df).
  { intros r Hr. rewrite <- (sort_values_perm df).
    eapply elem_of_sublist; [exact Hr|apply drop_duplicates_from_sublist]. }
  split; [apply drop_duplicates_from_NoDup|].
  split; [exact Hsub|].
  split.
  - intros r Hr. rewrite <- (sort_values_perm df) in Hr.
    destruct (drop_duplicates_from_first (sort_values df) [] r)
      as (r' & Hin & Hk & Hle);
      [apply sort_values_sorted|done|apply not_elem_of_nil|].
    exists r'. split; [done|]. split; [done|].
    intros Hbool Hpop. eapply first_of_key_popular; eauto.
  - rewrite (process_data_dataset w st df Hdf).
    unfold dedup_stage, drop_duplicates.
    destruct (astype _) as [ts|e] eqn:E; [right|by left].
    exists ts. split; [|done].
    apply astype_spec in E.
    induction E as [|r t l ts' (Ht & _) _ IH]; simpl; congruence.
Qed.

(** The popular record wins, whichever comes first. *)
Lemma process_data_dedup_raw_triples_witness :
  DataFrame (_products popular_twice) (today quiet)
    = Ok (frame_of (_products popular_twice))
  /\ NoDup (map key_of (dedup_stage (frame_of (_products popular_twice))))
  /\ forall r, r ∈ frame_of (_products popular_twice) ->
       exists r', r' ∈ dedup_stage (frame_of (_products popular_twice))
         /\ key_of r' = key_of r
         /\ ((forall x s, x ∈ frame_of (_products popular_twice) ->
                Popular (cells x) <> PopStr s) ->
             Popular (cells r) = PopBool true ->
             Popular (cells r') = PopBool true).
Proof.
  split; [reflexivity|].
  pose proof (process_data_dedup_raw_triples quiet popular_twice
                (frame_of (_products popular_twice)) eq_refl) as (H1 & _ & H3 & _).
  split; [exact H1|exact H3].
Defined.

(** C1, as stated, fails: two branches of one chain, told apart by the
    suffix of their name while duplicates are dropped, share their triple
    once the suffix is cut; and so do a record with an empty description
    and one with none, once the empty string is replaced. *)
Lemma cleaned_output_shares_triple :
  ~ NoDup (map key_of (_dataset (process_data quiet two_branches)))
  /\ ~ NoDup (map key_of (_dataset (process_data quiet blank_description))).
Proof.
  split; intros H; vm_compute in H; apply NoDup_cons in H as [H _];
    apply H; apply list_elem_of_here.
Qed.

(** C5. The list price 10000.5 is shown as 10.000,50: formatted with a
    comma for thousands and a period for decimals, then the separators
    swapped; and the number is read back from that string. For every finite
    price, swapping the separators back, dropping those of thousands and
    reading the number gives the price rounded to two decimals, which for
    10000.5 is the price itself. *)
Theorem price_display_round_trip :
  PyFloat.format_2f 10000.5 = "10,000.50"
  /\ display_price 10000.5 = "10.000,50"
  /\ parse_display "10.000,50" = Some 10000.5%float
  /\ PyFloat.round2 10000.5 = 10000.5%float
  /\ (forall x s m e,
        Prim2SF x = S754_finite s m e ->
        parse_display (display_price x) = Some (PyFloat.round2 x))
  /\ map (fun r => Precio_sin_descuento (cells r))
       (_dataset (process_data quiet popular_twice)) = [PriceStr "10.000,50"].
Proof.
  split; [by vm_compute|]. split; [by vm_compute|]. split; [by vm_compute|].
  split; [by vm_compute|]. split; [|by vm_compute].
  apply PriceFacts.parse_display_price.
Qed.

(** C6 (as amended). When cleaning goes through, a row whose discounted
    price, rounded to two decimals, equals its list price gets [None] as
    its discounted price, which the formatting step then writes as the
    text nan; a row where the two differ keeps the rounded discounted
    price, formatted. *)
Theorem discounted_price_nulled_as_nan w st df ts :
  DataFrame (_products st) (today w) = Ok df ->
  astype (map replace_empty (dedup_stage df)) = Ok ts ->
  _dataset (process_data w st) = map clean_row ts
  /\ Forall2 (fun r t =>
       price_to_float (Precio_con_descuento (cells r)) = Ok (t_con t)
       /\ price_to_float (Precio_sin_descuento (cells r)) = Ok (t_sin t))
       (map replace_empty (dedup_stage df)) ts
  /\ forall t, t ∈ ts ->
       let c := PyFloat.round2 (t_con t) in
       (PrimFloat.eqb c (t_sin t) = true ->
        discounted (t_con t) (t_sin t) = PrimFloat.nan
        /\ Precio_con_descuento (cells (clean_row t)) = PriceStr "nan")
       /\ (PrimFloat.eqb c (t_sin t) = false ->
           Precio_con_descuento (cells (clean_row t))
           = PriceStr (display_price c)).
Proof.
  intros Hdf Hts. split; [|split].
  - by rewrite (process_data_dataset w st df Hdf), Hts.
  - eapply Forall2_impl; [apply astype_spec, Hts|]. by intros r t (_ & H1 & H2).
  - intros t _ c. subst c. unfold clean_row, discounted. simpl.
    split; intros ->; [split|]; reflexivity.
Qed.

Lemma discounted_price_nulled_as_nan_witness :
  _dataset (process_data quiet no_discount) = map clean_row no_discount_typed
  /\ Forall (fun t =>
       Precio_con_descuento (cells (clean_row t)) = PriceStr "nan")
       no_discount_typed.
Proof.
  pose proof (discounted_price_nulled_as_nan quiet no_discount
                (frame_of (_products no_discount)) no_discount_typed
                eq_refl eq_refl) as (H1 & _ & H3).
  split; [exact H1|].
  apply Forall_forall. intros t Ht. apply (H3 t Ht).
  apply list_elem_of_singleton in Ht. subst t. reflexivity.
Defined.

(** C6, as stated, fails: the discounted price of the output is not null
    but the text nan. *)
Lemma no_discount_output_is_text :
  PrimFloat.eqb (PyFloat.round2 10) 10 = true
  /\ map (fun r => Precio_con_descuento (cells r))
       (_dataset (process_data quiet no_discount)) = [PriceStr "nan"]
  /\ PriceStr "nan" <> PriceNull.
Proof. repeat split; try (vm_compute; reflexivity). discriminate. Qed.

(** C7 (as amended). The stage that sorts and drops duplicates is
    idempotent, and so are the replacement of empty strings, the rewrite of
    the availability and the cut of the suffix. The pipeline as a whole is
    a function of the list of records, but not an idempotent one. *)
Theorem cleaning_steps_idempotent :
  (forall l, dedup_stage (dedup_stage l) = dedup_stage l)
  /\ (forall r, replace_empty (replace_empty r) = replace_empty r)
  /\ (forall s, PyStr.closed_label (PyStr.closed_label s) = PyStr.closed_label s)
  /\ (forall s, PyStr.strip_suffix (PyStr.strip_suffix s) = PyStr.strip_suffix s).
Proof.
  split; [apply dedup_stage_idempotent|].
  split; [apply replace_empty_idempotent|].
  split; [apply closed_label_idempotent|apply strip_suffix_idempotent].
Qed.

(** C7, as stated, fails: cleaning the cleaned data set again changes it.
    The two branches, now under one name, are merged, and the prices, now
    text with a decimal comma, are no longer read as numbers. *)
Lemma normalize_twice_differs :
  _dataset (process_data quiet
              (set_products
                 (as_products (_dataset (process_data quiet two_branches)))
                 init))
  <> _dataset (process_data quiet two_branches).
Proof. vm_compute. discriminate. Qed.

End Cleaning.

(** * Facts about the scraper *)

Module ScraperFacts.

(** ** What the retry pass touches *)

Lemma scrap_restaurante_frame w e st :
  _metadata (scrap_restaurante w e st) = _metadata st
  /\ _links_to_go (scrap_restaurante w e st) = _links_to_go st
  /\ _restaurants (scrap_restaurante w e st) = _restaurants st
  /\ navigated (scrap_restaurante w e st) = navigated st ++ [link_of e].
Proof.
  destruct e as [[rest link] status]. unfold scrap_restaurante, link_of. simpl.
  destruct (get_page w link) as [page|]; [|done].
  by destruct (product_elements page).
Qed.

Lemma retry_fold_frame w q : forall st,
  let st' := foldl (fun st e => scrap_restaurante w e st) st q in
  _metadata st' = _metadata st
  /\ _links_to_go st' = _links_to_go st
  /\ _restaurants st' = _restaurants st
  /\ navigated st' = navigated st ++ map link_of q.
Proof.
  induction q as [|e q IH]; intros st; simpl.
  - by rewrite app_nil_r.
  - destruct (IH (scrap_restaurante w e st)) as (H1 & H2 & H3 & H4).
    destruct (scrap_restaurante_frame w e st) as (F1 & F2 & F3 & F4).
    rewrite H1, H2, H3, H4, F1, F2, F3, F4, <- app_assoc. done.
Qed.

(** ** The error counter *)

Lemma extract_products_except_num_errors r l s st :
  num_errors (_metadata (extract_products_except r l s st).1)
  = (num_errors (_metadata st) + 1)%Z.
Proof.
  unfold extract_products_except.
  destruct (aria_label r); [|done]. by destruct l, s.
Qed.

Lemma extract_products_except_restaurants r l s st :
  _restaurants (extract_products_except r l s st).1 = _restaurants st.
Proof.
  unfold extract_products_except.
  destruct (aria_label r); [|done]. by destruct l, s.
Qed.

(** A task alone: with a decoded response it returns the rows and leaves
    the counters and the queue as they are; without one it counts an error
    and either queues the restaurant and returns no row, or raises. *)
Lemma extract_products_counts w r st :
  let st' := (extract_products w r st).1 in
  let res := (extract_products w r st).2 in
  match response_of w r with
  | Some data =>
      _metadata st' = _metadata st /\ _links_to_go st' = _links_to_go st
      /\ res = Ok (rows_of data (status_of r))
  | None =>
      num_errors (_metadata st') = (num_errors (_metadata st) + 1)%Z
      /\ quantity (_metadata st') = quantity (_metadata st)
      /\ ((raises res /\ _links_to_go st' = _links_to_go st)
          \/ (res = Ok []
              /\ exists who link,
                   _links_to_go st'
                   = _links_to_go st ++ [(who, link, status_of r)]))
  end.
Proof.
  assert (Hx : forall l s st0,
    let x := extract_products_except r l s st0 in
    num_errors (_metadata x.1) = (num_errors (_metadata st0) + 1)%Z
    /\ quantity (_metadata x.1) = quantity (_metadata st0)
    /\ ((raises x.2 /\ _links_to_go x.1 = _links_to_go st0)
        \/ (x.2 = Ok []
            /\ exists link status,
                 l = Some link /\ s = Some status
                 /\ exists who,
                      _links_to_go x.1
                      = _links_to_go st0 ++ [(who, link, status)]))).
  { intros l s st0. unfold extract_products_except.
    destruct (aria_label r) as [who|e]; simpl; [|by auto].
    destruct l as [link|], s as [status|]; simpl; try by auto.
    split; [done|]. split; [done|]. right. split; [done|].
    exists link, status. split; [done|]. split; [done|]. by exists who. }
  assert (Hfail : forall l st0,
    _links_to_go st0 = _links_to_go st ->
    _metadata st0 = _metadata st ->
    let x := extract_products_except r l (Some (status_of r)) st0 in
    num_errors (_metadata x.1) = (num_errors (_metadata st) + 1)%Z
    /\ quantity (_metadata x.1) = quantity (_metadata st)
    /\ ((raises x.2 /\ _links_to_go x.1 = _links_to_go st)
        \/ (x.2 = Ok []
            /\ exists who link,
                 _links_to_go x.1
                 = _links_to_go st ++ [(who, link, status_of r)]))).
  { intros l st0 Hq Hm.
    destruct (Hx l (Some (status_of r)) st0) as (H1 & H2 & H3).
    rewrite Hq, Hm in *. split; [done|]. split; [done|].
    destruct H3 as [H3|(H3 & link & status & _ & [= <-] & who & H4)];
      [by left|].
    right. split; [done|]. by exists who, link. }
  unfold extract_products, response_of. fold (status_of r).
  destruct (perform r) as [[]|e].
  2: { destruct (Hx None None st) as (H1 & H2 & [H3|(_ & ? & ? & [=] & _)]).
       split; [done|]. split; [done|]. by left. }
  destruct (href r) as [link|e].
  2: { destruct (Hx None (Some (status_of r)) st)
         as (H1 & H2 & [H3|(_ & ? & ? & [=] & _)]).
       split; [done|]. split; [done|]. by left. }
  pose proof (Hfail (Some link)
                (set_restaurants (_restaurants st ++ [link]) st)
                eq_refl eq_refl) as Hf.
  destruct link as [url|]; [|exact Hf].
  destruct (PyStr.search_restaurantes url) as [pattern|]; [|exact Hf].
  destruct (wait_for_request w pattern) as [[data|]|]; [|exact Hf..].
  done.
Qed.

(** ** The visited links *)

Lemma extract_products_restaurants w r st :
  _restaurants (extract_products w r st).1 = _restaurants st ++ recorded_link r.
Proof.
  unfold extract_products, recorded_link.
  destruct (perform r).
  2: { by rewrite extract_products_except_restaurants, app_nil_r. }
  destruct (href r) as [[url|]|].
  3: { by rewrite extract_products_except_restaurants, app_nil_r. }
  2: { by rewrite extract_products_except_restaurants. }
  destruct (PyStr.search_restaurantes url) as [pattern|].
  2: { by rewrite extract_products_except_restaurants. }
  destruct (wait_for_request w pattern) as [[data|]|]; [done| |];
    by rewrite extract_products_except_restaurants.
Qed.

Lemma run_tasks_restaurants w batch : forall st,
  _restaurants (run_tasks w batch st).1
  = _restaurants st ++ flat_map recorded_link batch.
Proof.
  induction batch as [|r batch IH]; intros st; simpl.
  - by rewrite app_nil_r.
  - pose proof (extract_products_restaurants w r st) as H.
    destruct (extract_products w r st) as [st1 res]. simpl in H.
    specialize (IH st1). destruct (run_tasks w batch st1) as [st2 ress].
    simpl in *. by rewrite IH, H, app_assoc.
Qed.

Lemma collect_restaurants ress : forall st,
  _restaurants (collect ress st).1 = _restaurants st.
Proof.
  induction ress as [|[rows|e] ress IH]; intros st; simpl; [done| |done].
  by rewrite IH.
Qed.

Lemma dispatch_restaurants w batch st :
  _restaurants (dispatch w batch st).1
  = _restaurants st ++ flat_map recorded_link batch.
Proof.
  unfold dispatch. pose proof (run_tasks_restaurants w batch st) as H.
  destruct (run_tasks w batch st) as [st1 ress]. simpl in H.
  by rewrite collect_restaurants.
Qed.

Lemma nearest_turn_restaurants w attempt button start st :
  _restaurants st `prefix_of`
    _restaurants (nearest_turn w attempt button start st).1.
Proof.
  unfold nearest_turn.
  destruct (load_more w attempt) as [b|];
    (destruct (nearest_listing w attempt) as [restaurants|]; [|done]);
    pose proof (dispatch_restaurants w (drop start restaurants) st) as Hd;
    destruct (dispatch w (drop start restaurants) st) as [st1 [[]|e']];
    simpl in Hd;
    try (simpl; rewrite Hd; by apply prefix_app_r).
  - destruct (click b); simpl; rewrite Hd; by apply prefix_app_r.
  - destruct button as [b|]; [destruct (click b)|];
      simpl; rewrite Hd; by apply prefix_app_r.
Qed.

Lemma nearest_loop_restaurants w fuel : forall attempt button start st st' res,
  nearest_loop fuel w attempt button start st = Some (st', res) ->
  _restaurants st `prefix_of` _restaurants st'.
Proof.
  induction fuel as [|fuel IH]; intros attempt button start st st' res; simpl;
    [done|].
  pose proof (nearest_turn_restaurants w attempt button start st) as Ht.
  destruct (nearest_turn w attempt button start st)
    as [st1 [[[button' start']|]|e']]; simpl in Ht.
  - intros H%IH. by etrans.
  - by intros [= <- _].
  - by intros [= <- _].
Qed.

Lemma category_phase_restaurants w cs : forall st,
  _restaurants st `prefix_of` _restaurants (category_phase w cs st).1.
Proof.
  induction cs as [|c cs IH]; intros st; simpl; [done|].
  destruct (category_batch c st) as [batch|]; [|apply IH].
  pose proof (dispatch_restaurants w batch st) as Hd.
  destruct (dispatch w batch st) as [st1 [[]|e]]; simpl in *.
  - etrans; [|apply IH]. rewrite Hd. by apply prefix_app_r.
  - rewrite Hd. by apply prefix_app_r.
Qed.

Lemma filter_unvisited_fresh visited l : forall batch r link,
  filter_unvisited visited l = Ok batch -> r ∈ batch -> href r = Ok link ->
  link ∉ visited.
Proof.
  induction l as [|x l IH]; simpl; intros batch r link.
  - intros [= <-]. by intros ?%elem_of_nil.
  - destruct (href x) as [lx|] eqn:Hx; [|done].
    destruct (filter_unvisited visited l) as [rest|]; [|done].
    case_bool_decide as Hin; intros [= <-].
    + by apply IH.
    + intros [->|Hr]%elem_of_cons Hl; [congruence|]. by eapply IH.
Qed.

Lemma category_batch_fresh c st batch r link :
  category_batch c st = Some batch -> r ∈ batch -> href r = Ok link ->
  link ∉ _restaurants st.
Proof.
  unfold category_batch.
  destruct (category_click c); [|done].
  destruct (category_listing c) as [restaurants|]; [|done].
  destruct (filter_unvisited (_restaurants st) restaurants) as [b|] eqn:E;
    [|done].
  intros [= <-]. by eapply filter_unvisited_fresh.
Qed.

(** ** The loop over the nearest restaurants *)

Lemma nearest_turn_stops w attempt button start st st1 :
  nearest_turn w attempt button start st = (st1, Ok None) -> ends_at w attempt.
Proof.
  unfold nearest_turn, ends_at.
  destruct (load_more w attempt) as [b|]; [|done].
  destruct (nearest_listing w attempt) as [restaurants|]; [|done].
  destruct (dispatch w (drop start restaurants) st) as [st' [[]|e']]; [|done].
  by destruct (click b).
Qed.

Lemma nearest_turn_last w attempt button start st st1 x :
  ends_at w attempt ->
  nearest_turn w attempt button start st <> (st1, Ok (Some x)).
Proof.
  unfold nearest_turn, ends_at.
  destruct (load_more w attempt) as [b|];
    (destruct (nearest_listing w attempt) as [restaurants|]; [|done]);
    destruct (dispatch w (drop start restaurants) st) as [st' [[]|e']];
    try done.
  - by destruct (click b).
  - by destruct button as [b|]; [destruct (click b)|].
Qed.

Lemma nearest_loop_ends w n : forall attempt button start st,
  ends_at w (attempt + n) ->
  exists st' res,
    nearest_loop (S n) w attempt button start st = Some (st', res)
    /\ forall k, res = Ok k ->
         (attempt < k <= S (attempt + n))%nat
         /\ ((forall i, (attempt <= i < attempt + n)%nat -> ~ ends_at w i) ->
             k = S (attempt + n)).
Proof.
  induction n as [|n IH]; intros attempt button start st Hend;
    cbn [nearest_loop];
    destruct (nearest_turn w attempt button start st)
      as [st1 [[[button' start']|]|e']] eqn:Hturn.
  - rewrite Nat.add_0_r in Hend. by apply nearest_turn_last in Hturn.
  - eexists _, _. split; [done|]. intros k [= <-]. split; [lia|]. intros _. lia.
  - eexists _, _. split; [done|]. by intros k [=].
  - destruct (IH (S attempt) button' start' st1) as (st' & res & Hrun & Hk).
    { by replace (S attempt + n)%nat with (attempt + S n)%nat by lia. }
    exists st', res. split; [done|]. intros k Hres.
    destruct (Hk k Hres) as [Hb Hex]. split; [lia|].
    intros Hno. rewrite Hex; [lia|]. intros i Hi. apply Hno. lia.
  - eexists _, _. split; [done|]. intros k [= <-]. split; [lia|].
    intros Hno. exfalso. apply (Hno attempt); [lia|].
    by eapply nearest_turn_stops.
  - eexists _, _. split; [done|]. by intros k [=].
Qed.

Lemma nearest_loop_more_fuel w fuel : forall attempt button start st x,
  nearest_loop fuel w attempt button start st = Some x ->
  nearest_loop (S fuel) w attempt button start st = Some x.
Proof.
  induction fuel as [|fuel IH]; intros attempt button start st x; [done|].
  intros H. cbn [nearest_loop] in *.
  destruct (nearest_turn w attempt button start st)
    as [st1 [[[button' start']|]|e']]; [|done|done].
  by apply IH.
Qed.

Lemma nearest_loop_fuel_le w fuel fuel' attempt button start st x :
  (fuel <= fuel')%nat ->
  nearest_loop fuel w attempt button start st = Some x ->
  nearest_loop fuel' w attempt button start st = Some x.
Proof.
  induction 1 as [|fuel' _ IH]; [done|].
  intros H. by apply nearest_loop_more_fuel, IH.
Qed.

(** ** The data set, the files and the report *)

Lemma extract_products_except_outputs r l s st :
  outputs (extract_products_except r l s st).1 = outputs st.
Proof.
  unfold extract_products_except.
  destruct (aria_label r); [|done]. by destruct l, s.
Qed.

Lemma extract_products_outputs w r st :
  outputs (extract_products w r st).1 = outputs st.
Proof.
  unfold extract_products.
  destruct (perform r); [|apply extract_products_except_outputs].
  destruct (href r) as [[url|]|];
    try (by rewrite extract_products_except_outputs).
  destruct (PyStr.search_restaurantes url) as [pattern|];
    [|by rewrite extract_products_except_outputs].
  destruct (wait_for_request w pattern) as [[data|]|]; [done| |];
    by rewrite extract_products_except_outputs.
Qed.

Lemma run_tasks_outputs w batch : forall st,
  outputs (run_tasks w batch st).1 = outputs st.
Proof.
  induction batch as [|r batch IH]; intros st; simpl; [done|].
  pose proof (extract_products_outputs w r st) as H.
  destruct (extract_products w r st) as [st1 res]. simpl in H.
  specialize (IH st1). destruct (run_tasks w batch st1) as [st2 ress].
  simpl in *. congruence.
Qed.

Lemma collect_outputs ress : forall st, outputs (collect ress st).1 = outputs st.
Proof.
  induction ress as [|[rows|e] ress IH]; intros st; simpl; [done| |done].
  by rewrite IH.
Qed.

Lemma dispatch_outputs w batch st :
  outputs (dispatch w batch st).1 = outputs st.
Proof.
  unfold dispatch. pose proof (run_tasks_outputs w batch st) as H.
  destruct (run_tasks w batch st) as [st1 ress]. simpl in H.
  by rewrite collect_outputs.
Qed.

Lemma nearest_turn_outputs w attempt button start st :
  outputs (nearest_turn w attempt button start st).1 = outputs st.
Proof.
  unfold nearest_turn.
  destruct (load_more w attempt) as [b|];
    (destruct (nearest_listing w attempt) as [restaurants|]; [|done]);
    pose proof (dispatch_outputs w (drop start restaurants) st) as Hd;
    destruct (dispatch w (drop start restaurants) st) as [st1 [[]|e']];
    try done.
  - by destruct (click b).
  - by destruct button as [b|]; [destruct (click b)|].
Qed.

Lemma nearest_loop_outputs w fuel : forall attempt button start st st' res,
  nearest_loop fuel w attempt button start st = Some (st', res) ->
  outputs st' = outputs st.
Proof.
  induction fuel as [|fuel IH]; intros attempt button start st st' res; simpl;
    [done|].
  pose proof (nearest_turn_outputs w attempt button start st) as Ht.
  destruct (nearest_turn w attempt button start st)
    as [st1 [[[button' start']|]|e']]; simpl in Ht.
  - intros H%IH. congruence.
  - by intros [= <- _].
  - by intros [= <- _].
Qed.

Lemma category_phase_outputs w cs : forall st,
  outputs (category_phase w cs st).1 = outputs st.
Proof.
  induction cs as [|c cs IH]; intros st; simpl; [done|].
  destruct (category_batch c st) as [batch|]; [|apply IH].
  pose proof (dispatch_outputs w batch st) as Hd.
  destruct (dispatch w batch st) as [st1 [[]|e]]; simpl in *; [|done].
  by rewrite IH.
Qed.

Lemma scrap_restaurante_outputs w e st :
  outputs (scrap_restaurante w e st) = outputs st.
Proof.
  destruct e as [[rest link] status]. unfold scrap_restaurante.
  destruct (get_page w link) as [page|]; [|done].
  by destruct (product_elements page).
Qed.

Lemma retry_fold_outputs w q : forall st,
  outputs (foldl (fun st e => scrap_restaurante w e st) st q) = outputs st.
Proof.
  induction q as [|e q IH]; intros st; simpl; [done|].
  by rewrite IH, scrap_restaurante_outputs.
Qed.

Lemma retry_phase_outputs w st : outputs (retry_phase w st) = outputs st.
Proof. unfold retry_phase. by rewrite retry_fold_outputs. Qed.

Lemma first_pass_outputs fuel w st st1 res :
  first_pass fuel w st = Some (st1, res) -> outputs st1 = outputs st.
Proof.
  unfold first_pass.
  destruct (nearest_loop fuel w 0 None 0 st) as [[st0 [k|e]]|] eqn:Hn; [| |done].
  - apply nearest_loop_outputs in Hn.
    pose proof (category_phase_outputs w (category_buttons w) st0) as Hc.
    intros [= H]. rewrite H in Hc. simpl in Hc. congruence.
  - apply nearest_loop_outputs in Hn. by intros [= <- _].
Qed.

Lemma extract_data_outputs fuel w st st1 res :
  extract_data fuel w st = Some (st1, res) -> outputs st1 = outputs st.
Proof.
  unfold extract_data.
  destruct (first_pass fuel w st) as [[st2 [[]|e]]|] eqn:Hf; [| |done];
    apply first_pass_outputs in Hf; intros [= <- _]; [|done].
  by rewrite retry_phase_outputs.
Qed.


Lemma process_data_num_errors w st :
  _metadata (process_data w st) = _metadata st
  /\ csv_files (process_data w st) = csv_files st
  /\ report_rows (process_data w st) = report_rows st.
Proof.
  unfold process_data.
  destruct (Frame.DataFrame (_products st) (today w)) as [df|]; [|done].
  by destruct (Frame.astype _).
Qed.

Lemma some_record ps :
  forallb is_empty_list ps = false -> exists p, Some p ∈ ps.
Proof.
  induction ps as [|[p|] ps IH]; simpl; [done| |].
  - intros _. exists p. apply list_elem_of_here.
  - intros [p Hp]%IH. exists p. by apply list_elem_of_further.
Qed.

Lemma process_data_nonempty w st :
  _dataset st = [] -> _dataset (process_data w st) <> [] ->
  exists p, Some p ∈ _products st.
Proof.
  intros Hd. unfold process_data, Frame.DataFrame.
  destruct (_products st) as [|p ps] eqn:Hp.
  - by vm_compute.
  - destruct (forallb is_empty_list (p :: ps)) eqn:Hall; [done|].
    intros _. by apply some_record.
Qed.

Lemma save_data_spec w st :
  report_rows (save_data w st).1 = report_rows st
  /\ num_errors (_metadata (save_data w st).1) = num_errors (_metadata st)
  /\ (csv_files (save_data w st).1 = csv_files st
      \/ (_dataset st <> []
          /\ csv_files (save_data w st).1 = csv_files st ++ [_dataset st]))
  /\ ((_dataset st = [] \/ to_csv w = Ok ()) -> (save_data w st).2 = Ok ()).
Proof.
  unfold save_data. destruct (_dataset st) as [|r d] eqn:Hd; simpl.
  - repeat split; auto.
  - destruct (to_csv w) as [[]|e]; simpl; repeat split; auto.
    + right. by rewrite Hd.
    + by intros [|].
Qed.

(** What [main] leaves, by the way [run] went. *)
Lemma main_report_and_dataset fuel w st' :
  main fuel w = Some st' ->
  (forall st1,
     login_outcome w = Ok () ->
     extract_data fuel w init = Some (st1, Ok ()) ->
     _dataset (process_data w st1) = [] \/ to_csv w = Ok () ->
     workbook_save w = Ok () ->
     report_rows st' = [_metadata st']
     /\ num_errors (_metadata st') = num_errors (_metadata st1))
  /\ (report_rows st' <> [] ->
      login_outcome w = Ok ()
      /\ exists st1, extract_data fuel w init = Some (st1, Ok ()))
  /\ (csv_files st' <> [] ->
      exists st1 p,
        extract_data fuel w init = Some (st1, Ok ())
        /\ Some p ∈ _products st1
        /\ csv_files st' = [_dataset (process_data w st1)]).
Proof.
  unfold main, run.
  destruct (login_outcome w) as [[]|e]; [|by intros [= <-]].
  destruct (extract_data fuel w init) as [[st1 [[]|e]]|] eqn:Hx; [| |done].
  2: { apply extract_data_outputs in Hx. injection Hx as Hd Hc Hr.
       intros [= <-]. repeat split; try done; by rewrite ?Hc, ?Hr. }
  apply extract_data_outputs in Hx. injection Hx as Hd Hc Hr.
  destruct (process_data_num_errors w st1) as (Pm & Pc & Pr).
  destruct (save_data_spec w (process_data w st1)) as (Sr & Se & Sc & Sok).
  destruct (save_data w (process_data w st1)) as [st2 res2] eqn:Hs.
  simpl in Sr, Se, Sc, Sok.
  assert (Hfile : csv_files st2 <> [] ->
            exists st0 p, Some (st1, Ok ()) = Some (st0, Ok ())
              /\ Some p ∈ _products st0
              /\ csv_files st2 = [_dataset (process_data w st0)]).
  { intros Hne. destruct Sc as [Sc|[Sne Sc]].
    - rewrite Sc, Pc, Hc in Hne. done.
    - destruct (process_data_nonempty w st1 Hd Sne) as [p Hp].
      exists st1, p. by rewrite Sc, Pc, Hc. }
  destruct res2 as [[]|e].
  - unfold save_metadata. destruct (workbook_save w) as [[]|e]; intros [= <-].
    + split; [|split]; [|by eauto|exact Hfile].
      intros st0 _ [= <-] _ _. simpl. rewrite Sr, Pr, Hr.
      split; [reflexivity|].
      rewrite Se.
      rewrite Pm.
      reflexivity.
    + split; [|split]; [|rewrite Sr, Pr, Hr; intros H; exfalso; by apply H|exact Hfile].
      by intros st0 _ _ _ [=].
  - intros [= <-]. split; [|split]; [|rewrite Sr, Pr, Hr; intros H; exfalso; by apply H|exact Hfile].
    intros st0 _ [= <-] Hio _. by specialize (Sok Hio).
Qed.


(** With the loop over the nearest restaurants ending at turn [N], the
    extraction and the program return. *)
Lemma main_returns fuel w N :
  ends_at w N -> (S N <= fuel)%nat -> exists st', main fuel w = Some st'.
Proof.
  intros Hend Hfuel. unfold main, run, extract_data, first_pass.
  destruct (login_outcome w) as [[]|e]; [|by eauto].
  destruct (nearest_loop_ends w N 0 None 0 init Hend) as (st0 & res & Hrun & _).
  rewrite (nearest_loop_fuel_le w (S N) fuel 0 None 0 init _ Hfuel Hrun).
  destruct res as [k|e]; [|by eauto].
  destruct (category_phase w (category_buttons w) st0) as [st2 [[]|e]];
    [|by eauto].
  destruct (save_data w (process_data w (retry_phase w st2))) as [st3 [[]|e]];
    [|by eauto].
  destruct (save_metadata w st3) as [st4 r]. by eauto.
Qed.

End ScraperFacts.

(** * The scraper: what a run guarantees *)

Section Run.
Import ScraperFacts Examples.

(** C2 (as amended). With the loop over the nearest restaurants ending
    at some turn the program returns, and then: the report row, with the
    error count of the extraction, is written when login and extraction
    return without raising and the files can be written (an exception
    inside the cleaning is caught there and does not prevent it); it is
    written only if nothing escaped login and extraction. A data file is
    written only if at least one record was extracted. *)
Theorem run_report_and_dataset fuel w N :
  ends_at w N -> (S N <= fuel)%nat ->
  exists st',
    main fuel w = Some st'
    /\ (forall st1,
          login_outcome w = Ok () ->
          extract_data fuel w init = Some (st1, Ok ()) ->
          _dataset (process_data w st1) = [] \/ to_csv w = Ok () ->
          workbook_save w = Ok () ->
          report_rows st' = [_metadata st']
          /\ num_errors (_metadata st') = num_errors (_metadata st1))
    /\ (report_rows st' <> [] ->
        login_outcome w = Ok ()
        /\ exists st1, extract_data fuel w init = Some (st1, Ok ()))
    /\ (csv_files st' <> [] ->
        exists st1 p,
          extract_data fuel w init = Some (st1, Ok ())
          /\ Some p ∈ _products st1
          /\ csv_files st' = [_dataset (process_data w st1)]).
Proof.
  intros Hend Hfuel.
  destruct (main_returns fuel w N Hend Hfuel) as [st' Hmain].
  exists st'. split; [exact Hmain|].
  by apply main_report_and_dataset.
Qed.

Lemma run_report_and_dataset_witness :
  ends_at two_pages 1
  /\ exists st',
       main 2 two_pages = Some st'
       /\ report_rows st' = [_metadata st']
       /\ num_errors (_metadata st') = 1.
Proof.
  split; [exact I|].
  destruct (run_report_and_dataset 2 two_pages 1 I (le_n 2))
    as (st' & Hmain & H1 & _).
  exists st'. split; [exact Hmain|].
  destruct (H1 (default init (fst <$> extract_data 2 two_pages init)))
    as [Hr He]; try (vm_compute; reflexivity).
  - right. reflexivity.
  - split; [exact Hr|]. rewrite He. vm_compute. reflexivity.
Defined.

(** C2, as stated, fails: the wait for the second listing times out
    outside every [try], which ends [extract_data] and [run] before
    [save_data] and [save_metadata]; the records read and the error counted
    so far are in no report and in no file. *)
Lemma aborted_run_leaves_no_report :
  (snd <$> run 2 listing_times_out init) = Some (Raise TimeoutException)
  /\ (report_rows <$> main 2 listing_times_out) = Some []
  /\ (csv_files <$> main 2 listing_times_out) = Some []
  /\ (_products <$> main 2 listing_times_out)
     = Some (rows_of kfc_data "Restaurante abierto")
  /\ (_metadata <$> main 2 listing_times_out)
     = Some {| quantity := 0; num_errors := 1 |}.
Proof. repeat split; reflexivity. Qed.

(** C3: the code at the failing input. Scrolling to the stale anchor
    raises; the handler counts the error and then reads the unbound local
    [restaurant_link], so the task raises instead of returning an empty
    list, nothing is queued for the retry pass, the batch raises and so
    does [run]. It is so for every anchor whose scroll or whose read of the
    link raises. *)
Theorem scroll_failure_escapes_task :
  extract_products stale_world stale_anchor init
  = (Scraper {| quantity := 0; num_errors := 1 |} [] [] [] [] [] [] [],
     Raise UnboundLocalError)
  /\ (dispatch stale_world [stale_anchor; anchor "KFC" kfc] init).2
     = Raise UnboundLocalError
  /\ _links_to_go (dispatch stale_world [stale_anchor; anchor "KFC" kfc] init).1
     = []
  /\ (snd <$> run 1 stale_world init) = Some (Raise UnboundLocalError)
  /\ (forall w r st,
        raises (perform r) \/ raises (href r) ->
        raises (extract_products w r st).2
        /\ _links_to_go (extract_products w r st).1 = _links_to_go st).
Proof.
  split; [reflexivity|]. split; [reflexivity|]. split; [reflexivity|].
  split; [reflexivity|].
  intros w r st Hraise. unfold extract_products, extract_products_except.
  destruct (perform r) as [[]|e].
  - destruct Hraise as [[]|Hraise].
    destruct (href r) as [link|e]; [done|].
    by destruct (aria_label r).
  - by destruct (aria_label r).
Qed.

(** Past the read of the link, every failure of a task is caught: the
    error is counted, the restaurant is queued and the task returns. *)
Lemma extract_products_caught w r st link who :
  perform r = Ok () -> href r = Ok link -> aria_label r = Ok who ->
  exists st' rows, extract_products w r st = (st', Ok rows).
Proof.
  intros Hp Hl Ha. unfold extract_products, extract_products_except.
  rewrite Hp, Hl, Ha.
  destruct link as [url|]; [|by eauto].
  destruct (PyStr.search_restaurantes url) as [pattern|]; [|by eauto].
  destruct (wait_for_request w pattern) as [[data|]|]; by eauto.
Qed.

(** C4 (as amended). [_restaurants] holds the link of every anchor whose
    task got as far as reading it, whether the extraction then succeeded
    or failed; it only grows, through the nearest restaurants, the
    categories and the retry pass; and the batch of a category holds no
    anchor whose link was recorded before the categories or in an earlier
    category. *)
Theorem visited_links_grow_and_gate_categories w :
  (forall batch st,
     _restaurants (dispatch w batch st).1
     = _restaurants st ++ flat_map recorded_link batch)
  /\ (forall fuel attempt button start st st' res,
        nearest_loop fuel w attempt button start st = Some (st', res) ->
        _restaurants st `prefix_of` _restaurants st')
  /\ (forall cs st,
        _restaurants st `prefix_of` _restaurants (category_phase w cs st).1)
  /\ (forall st, _restaurants (retry_phase w st) = _restaurants st)
  /\ (forall cs c st batch r link,
        category_batch c (category_phase w cs st).1 = Some batch ->
        r ∈ batch -> href r = Ok link ->
        (link ∉ _restaurants st)
        /\ (link ∉ _restaurants (category_phase w cs st).1)).
Proof.
  split; [apply dispatch_restaurants|].
  split; [apply nearest_loop_restaurants|].
  split; [apply category_phase_restaurants|].
  split.
  - intros st. unfold retry_phase.
    by destruct (retry_fold_frame w (deduplicated (_links_to_go st))
                   (set_links_to_go (deduplicated (_links_to_go st)) st))
      as (_ & _ & -> & _).
  - intros cs c st batch r link Hb Hr Hl.
    pose proof (category_batch_fresh _ _ _ _ _ Hb Hr Hl) as Hfresh.
    split; [|done]. intros Hin. apply Hfresh.
    eapply elem_of_prefix; [exact Hin|apply category_phase_restaurants].
Qed.

(** C4, as stated, fails: the link of a restaurant whose request timed out
    is in [_restaurants], with the restaurant in the retry queue and the
    error counted. *)
Lemma failed_restaurant_is_visited :
  extract_products two_pages (anchor "Bembos" bembos) init
  = (Scraper {| quantity := 0; num_errors := 1 |} [] [Some bembos] []
       [(Some "Bembos", Some bembos, "Restaurante abierto")] [] [] [],
     Ok []).
Proof. reflexivity. Qed.

(** C8. If at turn [N] the button is not found or its click fails, the
    loop over the nearest restaurants ends: with any fuel above [N] it
    returns, after at most [N + 1] turns, and after exactly [N + 1] turns
    when it returns without an exception and no earlier turn met either
    condition. *)
Theorem nearest_loop_terminates w N st :
  ends_at w N ->
  exists st' res,
    (forall fuel, (S N <= fuel)%nat ->
       nearest_loop fuel w 0 None 0 st = Some (st', res))
    /\ forall k, res = Ok k ->
         (k <= S N)%nat
         /\ ((forall i, (i < N)%nat -> ~ ends_at w i) -> k = S N).
Proof.
  intros Hend.
  destruct (nearest_loop_ends w N 0 None 0 st Hend) as (st' & res & Hrun & Hk).
  exists st', res. split.
  - intros fuel Hle. by eapply nearest_loop_fuel_le.
  - intros k Hres. destruct (Hk k Hres) as [Hb Hex]. split; [simpl in Hb; lia|].
    intros Hno. apply Hex. intros i Hi. apply Hno. lia.
Qed.

Lemma nearest_loop_terminates_witness :
  ends_at two_pages 1
  /\ exists st' res,
       (forall fuel, (2 <= fuel)%nat ->
          nearest_loop fuel two_pages 0 None 0 init = Some (st', res))
       /\ forall k, res = Ok k ->
            (k <= 2)%nat
            /\ ((forall i, (i < 1)%nat -> ~ ends_at two_pages i) -> k = 2%nat).
Proof.
  split; [exact I|]. apply (nearest_loop_terminates two_pages 1 init). exact I.
Defined.

(** C9. Before the retry pass the queue becomes a list without repetition
    that has the members of the queue; the pass then visits its entries one
    after the other, each with [scrap_restaurante]. *)
Theorem retry_queue_deduplicated w st :
  let q := deduplicated (_links_to_go st) in
  NoDup q
  /\ (forall e, e ∈ q <-> e ∈ _links_to_go st)
  /\ _links_to_go (retry_phase w st) = q
  /\ navigated (retry_phase w st) = navigated st ++ map link_of q
  /\ retry_phase w st
     = foldl (fun st e => scrap_restaurante w e st) (set_links_to_go q st) q.
Proof.
  intros q. subst q. unfold deduplicated. split; [apply NoDup_remove_dups|].
  split; [intros e; apply elem_of_remove_dups|].
  unfold retry_phase, deduplicated.
  destruct (retry_fold_frame w (remove_dups (_links_to_go st))
              (set_links_to_go (remove_dups (_links_to_go st)) st))
    as (_ & H2 & _ & H4).
  by rewrite H2, H4.
Qed.


End Run.

(** * Further properties of the passes over the listings *)

Module PassFacts.

(** ** Properties kept by the two passes over the listings *)

Section Preserved.
Variable w : World.
Variable P : scraper -> Prop.
Variable R : list (option product) -> Prop.
Hypothesis P_task : forall r st, P st -> P (extract_products w r st).1.
Hypothesis R_task : forall r st rows,
  (extract_products w r st).2 = Ok rows -> R rows.
Hypothesis P_add : forall rows st,
  R rows -> P st -> P (set_products (_products st ++ rows) st).

Lemma run_tasks_preserves batch : forall st,
  P st -> P (run_tasks w batch st).1 /\
  Forall (fun res => forall rows, res = Ok rows -> R rows)
    (run_tasks w batch st).2.
Proof.
  induction batch as [|r batch IH]; intros st HP; simpl; [by split|].
  pose proof (P_task r st HP) as H1. pose proof (R_task r st) as H2.
  destruct (extract_products w r st) as [st1 res]. simpl in H1, H2.
  destruct (IH st1 H1) as [H3 H4].
  destruct (run_tasks w batch st1) as [st2 ress]. simpl in *.
  split; [done|]. by constructor.
Qed.

Lemma collect_preserves ress : forall st,
  Forall (fun res => forall rows, res = Ok rows -> R rows) ress ->
  P st -> P (collect ress st).1.
Proof.
  induction ress as [|[rows|e] ress IH]; intros st HR HP; simpl; [done| |done].
  apply Forall_cons in HR as [Hr HR]. apply IH; [done|]. apply P_add; auto.
Qed.

Lemma dispatch_preserves batch st : P st -> P (dispatch w batch st).1.
Proof.
  intros HP. unfold dispatch.
  destruct (run_tasks_preserves batch st HP) as [H1 H2].
  destruct (run_tasks w batch st) as [st1 ress]. by apply collect_preserves.
Qed.

Lemma nearest_turn_preserves attempt button start st :
  P st -> P (nearest_turn w attempt button start st).1.
Proof.
  intros HP. unfold nearest_turn.
  destruct (load_more w attempt) as [b|];
    (destruct (nearest_listing w attempt) as [restaurants|]; [|done]);
    pose proof (dispatch_preserves (drop start restaurants) st HP) as Hd;
    destruct (dispatch w (drop start restaurants) st) as [st1 [[]|e']];
    try done.
  - by destruct (click b).
  - by destruct button as [b|]; [destruct (click b)|].
Qed.

Lemma nearest_loop_preserves fuel : forall attempt button start st st' res,
  nearest_loop fuel w attempt button start st = Some (st', res) ->
  P st -> P st'.
Proof.
  induction fuel as [|fuel IH]; intros attempt button start st st' res; simpl;
    [done|].
  intros Hrun HP.
  pose proof (nearest_turn_preserves attempt button start st HP) as Ht.
  destruct (nearest_turn w attempt button start st)
    as [st1 [[[button' start']|]|e']]; simpl in Ht.
  - by eapply IH.
  - by injection Hrun as <- _.
  - by injection Hrun as <- _.
Qed.

Lemma category_phase_preserves cs : forall st,
  P st -> P (category_phase w cs st).1.
Proof.
  induction cs as [|c cs IH]; intros st HP; simpl; [done|].
  destruct (category_batch c st) as [batch|]; [|by apply IH].
  pose proof (dispatch_preserves batch st HP) as Hd.
  destruct (dispatch w batch st) as [st1 [[]|e]]; simpl in *; [|done].
  by apply IH.
Qed.

Lemma first_pass_preserves fuel st st' res :
  first_pass fuel w st = Some (st', res) -> P st -> P st'.
Proof.
  unfold first_pass. intros Hrun HP.
  destruct (nearest_loop fuel w 0 None 0 st) as [[st0 [k|e]]|] eqn:Hn;
    [| |done]; pose proof (nearest_loop_preserves _ _ _ _ _ _ _ Hn HP) as H0.
  - pose proof (category_phase_preserves (category_buttons w) st0 H0) as Hc.
    injection Hrun as Hrun. by rewrite Hrun in Hc.
  - by injection Hrun as <- _.
Qed.

End Preserved.

(** ** What one task does to the queue, the records and the counters *)

Lemma extract_products_except_frame r l s st :
  _products (extract_products_except r l s st).1 = _products st
  /\ quantity (_metadata (extract_products_except r l s st).1)
     = quantity (_metadata st).
Proof.
  unfold extract_products_except.
  destruct (aria_label r); [|done]. by destruct l, s.
Qed.

Lemma extract_products_frame w r st :
  _products (extract_products w r st).1 = _products st
  /\ quantity (_metadata (extract_products w r st).1) = quantity (_metadata st).
Proof.
  unfold extract_products.
  destruct (perform r); [|apply extract_products_except_frame].
  destruct (href r) as [[url|]|];
    try apply (extract_products_except_frame r _ _ (set_restaurants _ st));
    try apply extract_products_except_frame.
  destruct (PyStr.search_restaurantes url) as [pattern|];
    [|apply (extract_products_except_frame r _ _ (set_restaurants _ st))].
  destruct (wait_for_request w pattern) as [[data|]|]; [done| |];
    apply (extract_products_except_frame r _ _ (set_restaurants _ st)).
Qed.

(** The handler, the two locals bound: it queues the restaurant, or the
    read of the name raises. *)
Lemma extract_products_except_queue r link status st :
  let x := extract_products_except r (Some link) (Some status) st in
  num_errors (_metadata x.1) = num_errors (_metadata st) + 1
  /\ ((_links_to_go x.1 = _links_to_go st /\ raises x.2)
      \/ (exists who, _links_to_go x.1 = _links_to_go st ++ [(who, link, status)]
                      /\ x.2 = Ok [])).
Proof.
  unfold extract_products_except.
  destruct (aria_label r) as [who|e]; simpl; split; try done.
  - right. by exists who.
  - by left.
Qed.

(** A task leaves the queue as it is, or adds one entry: then it counted
    one error, returned no row and recorded the link of the entry. Without
    a new entry it counted an error exactly if it raised. *)
Lemma extract_products_queue w r st :
  let st' := (extract_products w r st).1 in
  let res := (extract_products w r st).2 in
  (_links_to_go st' = _links_to_go st
   /\ ((~ raises res /\ num_errors (_metadata st') = num_errors (_metadata st))
       \/ (raises res
           /\ num_errors (_metadata st') = num_errors (_metadata st) + 1)))
  \/ (exists who link status,
        _links_to_go st' = _links_to_go st ++ [(who, link, status)]
        /\ recorded_link r = [link] /\ res = Ok []
        /\ num_errors (_metadata st') = num_errors (_metadata st) + 1).
Proof.
  unfold extract_products, recorded_link.
  destruct (perform r) as [[]|e].
  2: { left. unfold extract_products_except.
       destruct (aria_label r); simpl; split; try done; by right. }
  destruct (href r) as [link|e].
  2: { left. unfold extract_products_except.
       destruct (aria_label r); simpl; split; try done; by right. }
  set (status := match status_text r with
                 | Ok s => s
                 | Raise _ => "Restaurante abierto"
                 end).
  pose proof (extract_products_except_queue r link status
                (set_restaurants (_restaurants st ++ [link]) st)) as Hfail.
  simpl in Hfail.
  assert (Hf :
    let x := extract_products_except r (Some link) (Some status)
               (set_restaurants (_restaurants st ++ [link]) st) in
    (_links_to_go x.1 = _links_to_go st
     /\ ((~ raises x.2
          /\ num_errors (_metadata x.1) = num_errors (_metadata st))
         \/ (raises x.2
             /\ num_errors (_metadata x.1) = num_errors (_metadata st) + 1)))
    \/ (exists who link0 status0,
          _links_to_go x.1 = _links_to_go st ++ [(who, link0, status0)]
          /\ [link] = [link0] /\ x.2 = Ok []
          /\ num_errors (_metadata x.1) = num_errors (_metadata st) + 1)).
  { destruct Hfail as [He [[Hq Hr]|[who [Hq Hr]]]].
    - left. split; [done|]. by right.
    - right. by exists who, link, status. }
  destruct link as [url|]; [|exact Hf].
  destruct (PyStr.search_restaurantes url) as [pattern|]; [|exact Hf].
  destruct (wait_for_request w pattern) as [[data|]|]; [|exact Hf..].
  left. simpl. split; [done|]. left. split; [|done]. by intros [].
Qed.

(** What a task returns: no row, or the rows of a decoded response. *)
Lemma extract_products_rows w r st rows :
  (extract_products w r st).2 = Ok rows ->
  rows = [] \/ exists data status, rows = rows_of data status.
Proof.
  unfold extract_products, extract_products_except.
  destruct (perform r) as [[]|e].
  2: { destruct (aria_label r); simpl; done. }
  destruct (href r) as [[url|]|e].
  3: { destruct (aria_label r); simpl; done. }
  2: { destruct (aria_label r); simpl; [|done]. intros [= <-]. by left. }
  destruct (PyStr.search_restaurantes url) as [pattern|].
  2: { destruct (aria_label r); simpl; [|done]. intros [= <-]. by left. }
  destruct (wait_for_request w pattern) as [[data|]|].
  - simpl. intros [= <-]. right. eauto.
  - destruct (aria_label r); simpl; [|done]. intros [= <-]. by left.
  - destruct (aria_label r); simpl; [|done]. intros [= <-]. by left.
Qed.

Lemma queue_visited_task w r st :
  queue_visited st -> queue_visited (extract_products w r st).1.
Proof.
  unfold queue_visited. intros H e.
  rewrite ScraperFacts.extract_products_restaurants.
  destruct (extract_products_queue w r st)
    as [[-> _]|(who & link & status & -> & -> & _)].
  - intros He. apply elem_of_app. left. by apply H.
  - intros [He| ->%list_elem_of_singleton]%elem_of_app; apply elem_of_app.
    + left. by apply H.
    + right. apply list_elem_of_here.
Qed.

(** The passes and the retry pass leave the record count of the metadata
    as it is. *)
Lemma extract_data_quantity fuel w st st' res :
  extract_data fuel w st = Some (st', res) ->
  quantity (_metadata st') = quantity (_metadata st).
Proof.
  assert (Hpass : forall st2 r,
            first_pass fuel w st = Some (st2, r) ->
            quantity (_metadata st2) = quantity (_metadata st)).
  { intros st2 r H.
    eapply (first_pass_preserves w
              (fun s => quantity (_metadata s) = quantity (_metadata st))
              (fun _ => True)); [| | |exact H|]; try done.
    intros r0 s <-. by destruct (extract_products_frame w r0 s) as [_ ->]. }
  unfold extract_data.
  destruct (first_pass fuel w st) as [[st2 [[]|e]]|] eqn:Hf; [| |done];
    pose proof (Hpass _ _ eq_refl) as H2; intros [= <- _]; [|done].
  unfold retry_phase.
  by destruct (ScraperFacts.retry_fold_frame w (deduplicated (_links_to_go st2))
                 (set_links_to_go (deduplicated (_links_to_go st2)) st2))
    as (-> & _).
Qed.

(** ** The loop over a listing that only grows *)

Section Once.
Variables (w : World) (N : nat) (L : nat -> list WebElement).
Hypothesis listing : forall i, (i <= N)%nat -> nearest_listing w i = Ok (L i).
Hypothesis grows : forall i, (i < N)%nat -> L i `prefix_of` L (S i).
Hypothesis clicks : forall i, (i < N)%nat ->
  exists b, load_more w i = Ok b /\ click b = Ok ().
Hypothesis ends : ends_at w N.

Lemma nearest_loop_once n : forall attempt button start st R0,
  (attempt + n = N)%nat ->
  _restaurants st = R0 ++ flat_map recorded_link (take start (L attempt)) ->
  exists st' res,
    nearest_loop (S n) w attempt button start st = Some (st', res)
    /\ exists i, (attempt <= i <= N)%nat
         /\ _restaurants st' = R0 ++ flat_map recorded_link (L i)
         /\ (forall k, res = Ok k -> i = N).
Proof.
  induction n as [|n IH]; intros attempt button start st R0 HN Hst;
    cbn [nearest_loop]; unfold nearest_turn;
    rewrite (listing attempt) by lia;
    pose proof (ScraperFacts.dispatch_restaurants w (drop start (L attempt)) st)
      as Hd;
    rewrite Hst, <- app_assoc, <- flat_map_app, take_drop in Hd;
    destruct (dispatch w (drop start (L attempt)) st) as [st1 [[]|e]];
    simpl in Hd.
  - assert (attempt = N) as -> by lia.
    pose proof ends as He. unfold ends_at in He.
    assert (Hend : exists r,
      (let '(button0, no_error) :=
         match load_more w N with
         | Ok b => (Some b, true)
         | Raise _ => (button, false)
         end in
       let '(start0, no_error0) :=
         match button0 with
         | Some b =>
             match click b with
             | Ok _ => (length (L N), no_error)
             | Raise _ => (start, false)
             end
         | None => (start, false)
         end in
       (st1, Ok (if no_error0 then Some (button0, start0) else None)))
      = (st1, Ok None) /\ r = tt).
    { exists tt. split; [|done].
      destruct (load_more w N) as [b|].
      - destruct (click b); [destruct He|done].
      - by destruct button as [b|]; [destruct (click b)|]. }
    destruct Hend as (_ & -> & _).
    eexists _, _. split; [done|]. exists N. split; [lia|]. done.
  - destruct (load_more w attempt) as [b|]; eexists _, _; (split; [done|]);
      exists attempt; (split; [lia|]); done.
  - destruct (clicks attempt) as (b & -> & ->); [lia|].
    destruct (IH (S attempt) (Some b) (length (L attempt)) st1 R0)
      as (st' & res & Hrun & i & Hi & Hr & Hk); [lia| |].
    { destruct (grows attempt) as [k ->]; [lia|].
      by rewrite take_app_length. }
    exists st', res. split; [exact Hrun|]. exists i. split; [lia|]. done.
  - destruct (clicks attempt) as (b & -> & _); [lia|].
    eexists _, _. split; [done|]. exists attempt. split; [lia|]. done.
Qed.

End Once.

(** ** The categories *)

Lemma filter_unvisited_raises visited l :
  raises (filter_unvisited visited l) <-> exists r, r ∈ l /\ raises (href r).
Proof.
  induction l as [|x l IH]; simpl.
  - split; [done|]. by intros (r & ?%elem_of_nil & _).
  - destruct (href x) as [link|e] eqn:Hx.
    + destruct (filter_unvisited visited l) as [rest|e]; simpl in *.
      * split; [done|]. intros (r & [->|Hr]%elem_of_cons & Hraise).
        -- by rewrite Hx in Hraise.
        -- apply IH. eauto.
      * split; [|done]. intros _. destruct IH as [(r & Hr & Hraise) _]; [done|].
        exists r. split; [by apply list_elem_of_further|done].
    + split; [|done]. intros _. exists x.
      split; [apply list_elem_of_here|by rewrite Hx].
Qed.

Lemma category_batch_None c st : category_batch c st = None <-> unreadable c.
Proof.
  unfold category_batch, unreadable.
  destruct (category_click c) as [[]|e]; simpl; [|by split; auto].
  destruct (category_listing c) as [l|e]; simpl; [|by split; auto].
  pose proof (filter_unvisited_raises (_restaurants st) l) as Hf.
  destruct (filter_unvisited (_restaurants st) l) as [batch|e]; simpl in Hf.
  - split; [done|]. intros [[]|[[]|(l' & r & [= <-] & Hr & Hraise)]].
    exfalso. apply Hf. eauto.
  - split; [|done]. intros _. right. right.
    destruct Hf as [(r & Hr & Hraise) _]; [done|]. eauto.
Qed.

Lemma category_phase_app w cs1 : forall cs2 st,
  category_phase w (cs1 ++ cs2) st
  = match category_phase w cs1 st with
    | (st1, Ok _) => category_phase w cs2 st1
    | (st1, Raise e) => (st1, Raise e)
    end.
Proof.
  induction cs1 as [|c cs1 IH]; intros cs2 st; simpl; [done|].
  destruct (category_batch c st) as [batch|]; [|apply IH].
  destruct (dispatch w batch st) as [st1 [[]|e]]; [apply IH|done].
Qed.

End PassFacts.

Section Passes.
Import PassFacts ScraperFacts Examples.

(** X1. Every restaurant in the retry queue has its link in [_restaurants]:
    a task queues a restaurant only after it recorded its link, and the
    retry pass removes no link. So a restaurant that failed is never
    dispatched again by a later category. *)
Theorem queued_links_are_visited fuel w st st' res :
  queue_visited st -> extract_data fuel w st = Some (st', res) ->
  queue_visited st'.
Proof.
  intros Hq.
  assert (Hpass : forall st2 r,
            first_pass fuel w st = Some (st2, r) -> queue_visited st2).
  { intros st2 r H.
    eapply (first_pass_preserves w queue_visited (fun _ => True));
      [apply queue_visited_task|done|done|exact H|exact Hq]. }
  unfold extract_data.
  destruct (first_pass fuel w st) as [[st2 [[]|e]]|] eqn:Hf; [| |done];
    pose proof (Hpass _ _ eq_refl) as H2; intros [= <- _]; [|done].
  intros e He. unfold retry_phase in *.
  destruct (retry_fold_frame w (deduplicated (_links_to_go st2))
              (set_links_to_go (deduplicated (_links_to_go st2)) st2))
    as (_ & Hl & Hr & _).
  rewrite Hl in He. rewrite Hr. simpl in *. unfold deduplicated in He.
  rewrite elem_of_remove_dups in He. by apply H2.
Qed.

Lemma queued_links_are_visited_witness :
  exists st',
    extract_data 2 two_pages init = Some (st', Ok ())
    /\ _links_to_go st' = [(Some "Bembos", Some bembos, "Restaurante abierto")]
    /\ queue_visited st'.
Proof.
  eexists. split; [vm_compute; reflexivity|]. split; [reflexivity|].
  apply (queued_links_are_visited 2 two_pages init _ (Ok ()));
    [|vm_compute; reflexivity].
  intros e He. by apply elem_of_nil in He.
Defined.

(** X3. The two passes on the listings only add records, and each one
    they add is a full record of a decoded response, never the empty list
    of a failed card; so the frame constructor of the cleaning stage does
    not raise on what they leave. *)
Theorem listing_passes_add_full_rows fuel w st st' res :
  first_pass fuel w st = Some (st', res) ->
  exists rows,
    _products st' = _products st ++ rows
    /\ Forall (fun p => exists data status, p ∈ rows_of data status) rows
    /\ (Forall (fun p => is_empty_list p = false) (_products st) ->
        forall fecha, exists df,
          Frame.DataFrame (_products st') fecha = Ok df
          /\ length df = length (_products st')).
Proof.
  intros Hf.
  set (full := fun p : option product =>
                 exists data status, p ∈ rows_of data status).
  assert (H : exists rows, _products st' = _products st ++ rows
                           /\ Forall full rows).
  { eapply (first_pass_preserves w
              (fun s => exists rows, _products s = _products st ++ rows
                                     /\ Forall full rows)
              (Forall full)); [| | |exact Hf|].
    - intros r s. by destruct (extract_products_frame w r s) as [-> _].
    - intros r s rows [->|(data & status & ->)]%extract_products_rows;
        [constructor|].
      apply Forall_forall. intros p Hp. by exists data, status.
    - intros rows s Hrows (rows0 & Hs & H0). exists (rows0 ++ rows).
      simpl. rewrite Hs, <- app_assoc. split; [done|]. by apply Forall_app.
    - exists []. by rewrite app_nil_r. }
  destruct H as (rows & Hs & Hrows). exists rows. split; [done|].
  split; [done|]. intros Hold fecha.
  assert (Hall : Forall (fun p => is_empty_list p = false) (_products st')).
  { rewrite Hs. apply Forall_app. split; [done|].
    eapply Forall_impl; [exact Hrows|].
    intros p (data & status & Hp). unfold rows_of in Hp.
    apply list_elem_of_fmap in Hp as (x & -> & _). done. }
  unfold Frame.DataFrame. destruct (_products st') as [|p ps]; [by exists []|].
  apply Forall_cons in Hall as [Hp Hps]. simpl. rewrite Hp. simpl.
  eexists. split; [done|]. simpl. by rewrite length_map.
Qed.

Lemma listing_passes_add_full_rows_witness :
  let st' := default init (fst <$> first_pass 2 two_pages init) in
  first_pass 2 two_pages init = Some (st', Ok ())
  /\ exists rows,
       _products st' = _products init ++ rows
       /\ Forall (fun p => exists data status, p ∈ rows_of data status) rows
       /\ (Forall (fun p => is_empty_list p = false) (_products init) ->
           forall fecha, exists df,
             Frame.DataFrame (_products st') fecha = Ok df
             /\ length df = length (_products st')).
Proof.
  split; [vm_compute; reflexivity|].
  apply (listing_passes_add_full_rows 2 two_pages init _ (Ok ())).
  vm_compute. reflexivity.
Defined.

(** X4. The record count of a report row is the number of rows of the
    data file the same run wrote, and 0 when it wrote none, which is when
    the data set is empty; a run writes at most one report row and one
    data file. *)
Theorem report_quantity_matches_file fuel w st' rep :
  main fuel w = Some st' -> rep ∈ report_rows st' ->
  report_rows st' = [rep]
  /\ ((_dataset st' = [] /\ quantity rep = 0 /\ csv_files st' = [])
      \/ (_dataset st' <> []
          /\ quantity rep = Z.of_nat (length (_dataset st'))
          /\ csv_files st' = [_dataset st'])).
Proof.
  unfold main, run.
  destruct (login_outcome w) as [[]|e]; [|by intros [= <-] ?%elem_of_nil].
  destruct (extract_data fuel w init) as [[st1 [[]|e]]|] eqn:Hx; [| |done].
  2: { apply extract_data_outputs in Hx. injection Hx as _ _ Hr.
       intros [= <-]. rewrite Hr. by intros ?%elem_of_nil. }
  pose proof (extract_data_quantity _ _ _ _ _ Hx) as Hq.
  apply extract_data_outputs in Hx. injection Hx as _ Hc Hr.
  destruct (process_data_num_errors w st1) as (Pm & Pc & Pr).
  unfold save_data, save_metadata.
  destruct (_dataset (process_data w st1)) as [|r d] eqn:Hd.
  - destruct (workbook_save w) as [[]|e]; intros [= <-]; simpl.
    + rewrite Pr, Hr. intros ->%list_elem_of_singleton. split; [done|].
      left. by rewrite Hd, Pm, Hq, Pc, Hc.
    + rewrite Pr, Hr. by intros ?%elem_of_nil.
  - destruct (to_csv w) as [[]|e].
    + destruct (workbook_save w) as [[]|e]; intros [= <-]; simpl.
      * rewrite Pr, Hr. intros ->%list_elem_of_singleton. split; [done|].
        right. rewrite Hd, Pc, Hc. simpl. split; [done|]. split; [|done].
        lia.
      * rewrite Pr, Hr. by intros ?%elem_of_nil.
    + intros [= <-]. simpl. rewrite Pr, Hr. by intros ?%elem_of_nil.
Qed.

Lemma report_quantity_matches_file_witness :
  let st' := default init (main 2 two_pages) in
  main 2 two_pages = Some st'
  /\ report_rows st' = [ {| quantity := 1; num_errors := 1 |} ]
  /\ length (_dataset st') = 1%nat
  /\ csv_files st' = [_dataset st'].
Proof.
  assert (Hm : main 2 two_pages = Some (default init (main 2 two_pages)))
    by (vm_compute; reflexivity).
  split; [exact Hm|].
  destruct (report_quantity_matches_file 2 two_pages _
              {| quantity := 1; num_errors := 1 |} Hm)
    as (H1 & [(H2 & _)|(_ & _ & H4)]).
  - vm_compute. apply list_elem_of_here.
  - vm_compute in H2. discriminate.
  - split; [exact H1|]. split; [vm_compute; reflexivity|exact H4].
Defined.

(** X5. While the listing of the nearest restaurants only grows (each
    turn shows the anchors of the turn before, then new ones) and the
    button is found and clicked, a turn dispatches the anchors it has not
    dispatched yet: when the loop ends at turn [N] the links recorded are
    those of the anchors of the last listing, each anchor once. If a task
    raises at an earlier turn, they are those of the listing of that
    turn. *)
Theorem nearest_listing_dispatched_once w N (L : nat -> list WebElement) st :
  (forall i, (i <= N)%nat -> nearest_listing w i = Ok (L i)) ->
  (forall i, (i < N)%nat -> L i `prefix_of` L (S i)) ->
  (forall i, (i < N)%nat -> exists b, load_more w i = Ok b /\ click b = Ok ()) ->
  ends_at w N ->
  exists st' res,
    nearest_loop (S N) w 0 None 0 st = Some (st', res)
    /\ exists i, (i <= N)%nat
         /\ _restaurants st' = _restaurants st ++ flat_map recorded_link (L i)
         /\ (forall k, res = Ok k -> i = N).
Proof.
  intros Hl Hg Hc He.
  destruct (nearest_loop_once w N L Hl Hg Hc He N 0%nat None 0%nat st
              (_restaurants st))
    as (st' & res & Hrun & i & Hi & Hr & Hk); [done|by rewrite app_nil_r|].
  exists st', res. split; [done|]. exists i. split; [lia|]. done.
Qed.

Lemma nearest_listing_dispatched_once_witness :
  exists st',
    nearest_loop 2 two_pages 0 None 0 init = Some (st', Ok 2%nat)
    /\ _restaurants st' = [Some kfc; Some bembos].
Proof.
  destruct (nearest_listing_dispatched_once two_pages 1
              (fun i => if Nat.ltb i 1 then [anchor "KFC" kfc]
                        else [anchor "KFC" kfc; anchor "Bembos" bembos])
              init)
    as (st' & res & Hrun & i & Hi & Hr & Hk).
  - intros i Hi. reflexivity.
  - intros [|i] Hi; [|lia]. by exists [anchor "Bembos" bembos].
  - intros [|i] Hi; [|lia]. by eexists.
  - exact I.
  - exists st'. vm_compute in Hrun. injection Hrun as <- <-.
    split; reflexivity.
Defined.

(** X6. A category is left without a dispatch exactly when its click
    fails, or the wait for its listing, or the read of the link of one of
    its anchors, the others of the listing with it; the loop then goes on
    as if the category were not there. *)
Theorem unreadable_category_is_skipped w c :
  (forall st, category_batch c st = None <-> unreadable c)
  /\ (unreadable c ->
      forall cs1 cs2 st,
        category_phase w (cs1 ++ c :: cs2) st = category_phase w (cs1 ++ cs2) st).
Proof.
  split; [intros st; apply category_batch_None|].
  intros Hc cs1 cs2 st. rewrite !category_phase_app.
  destruct (category_phase w cs1 st) as [st1 [[]|e]]; [|done].
  simpl. by rewrite (proj2 (category_batch_None c st1) Hc).
Qed.

Lemma unreadable_category_is_skipped_witness :
  unreadable stale_category
  /\ category_phase two_pages (stale_category :: category_buttons two_pages)
       init
     = category_phase two_pages (category_buttons two_pages) init
  /\ _restaurants
       (category_phase two_pages [stale_category] init).1 = [].
Proof.
  assert (H : unreadable stale_category).
  { right. right. eexists _, _. split; [reflexivity|].
    split; [apply list_elem_of_further, list_elem_of_here|exact I]. }
  split; [exact H|]. split; [|reflexivity].
  apply (proj2 (unreadable_category_is_skipped two_pages stale_category) H
           [] (category_buttons two_pages) init).
Defined.

End Passes.

(** * The worker pool under any schedule *)

Module PoolFacts.
Import Pool.

(** ** A task alone is [extract_products] *)

Lemma except_steps_alone r l s p st :
  run_to_end ((except_steps r l s).1 ++ p) None st
  = run_to_end p None (extract_products_except r l s st).1
  /\ (except_steps r l s).2 = (extract_products_except r l s st).2.
Proof.
  unfold except_steps, extract_products_except.
  destruct (aria_label r) as [who|e]; simpl; [|done].
  by destruct l as [link|], s as [status|]; simpl.
Qed.

Lemma steps_alone w r st :
  run_to_end (steps w r).1 None st = (extract_products w r st).1
  /\ (steps w r).2 = (extract_products w r st).2.
Proof.
  assert (Hx : forall l s st0,
    run_to_end (except_steps r l s).1 None st0
    = (extract_products_except r l s st0).1
    /\ (except_steps r l s).2 = (extract_products_except r l s st0).2).
  { intros l s st0. pose proof (except_steps_alone r l s [] st0) as H.
    by rewrite app_nil_r in H. }
  assert (Hf : forall link s,
    run_to_end
      (let '(l, res) := except_steps r (Some link) s in
       (AppendRestaurant link :: l, res)).1 None st
    = (extract_products_except r (Some link) s
         (set_restaurants (_restaurants st ++ [link]) st)).1
    /\ (let '(l, res) := except_steps r (Some link) s in
        (AppendRestaurant link :: l, res)).2
       = (extract_products_except r (Some link) s
            (set_restaurants (_restaurants st ++ [link]) st)).2).
  { intros link s.
    pose proof (Hx (Some link) s
                  (set_restaurants (_restaurants st ++ [link]) st)) as H.
    by destruct (except_steps r (Some link) s). }
  unfold steps, extract_products.
  destruct (perform r) as [[]|e]; [|apply Hx].
  destruct (href r) as [link|e]; [|apply Hx].
  destruct link as [url|]; [|apply Hf].
  destruct (PyStr.search_restaurantes url) as [pattern|]; [|apply Hf].
  destruct (wait_for_request w pattern) as [[data|]|]; [done|apply Hf..].
Qed.

Lemma wait_alone w batch : forall st,
  wait (map (fun r => Thread (steps w r).1 None) batch) st
  = (run_tasks w batch st).1
  /\ map (fun r => (steps w r).2) batch = (run_tasks w batch st).2.
Proof.
  induction batch as [|r batch IH]; intros st; simpl; [done|].
  destruct (steps_alone w r st) as [H1 H2]. rewrite H1, H2.
  destruct (extract_products w r st) as [st1 res]. simpl.
  destruct (IH st1) as [I1 I2]. rewrite I1, I2.
  by destruct (run_tasks w batch st1).
Qed.

(** ** What the steps of a task hold *)

Lemma except_steps_holds r l s :
  let p := (except_steps r l s).1 in
  flat_map links p = []
  /\ sum_list_with increments p = 1%nat
  /\ flat_map entries p = _links_to_go (extract_products_except r l s init).1.
Proof.
  unfold except_steps, extract_products_except.
  destruct (aria_label r) as [who|e]; simpl; [|done].
  by destruct l as [link|], s as [status|]; simpl.
Qed.

Lemma steps_hold w r :
  let p := (steps w r).1 in
  flat_map links p = recorded_link r
  /\ sum_list_with increments p = failures w [r]
  /\ flat_map entries p = queued w r.
Proof.
  assert (Hf : forall link s,
    let p := (let '(l, res) := except_steps r (Some link) s in
              (AppendRestaurant link :: l, res)).1 in
    flat_map links p = [link]
    /\ sum_list_with increments p = 1%nat
    /\ flat_map entries p
       = _links_to_go (extract_products_except r (Some link) s
                         (set_restaurants (_restaurants init ++ [link]) init)).1).
  { intros link s. pose proof (except_steps_holds r (Some link) s) as H.
    destruct (except_steps r (Some link) s) as [l res]. simpl in *.
    destruct H as (-> & -> & ->). repeat split.
    unfold extract_products_except. destruct (aria_label r); [|done].
    by destruct s. }
  cbn [failures].
  unfold steps, queued, extract_products, recorded_link, response_of.
  destruct (perform r) as [[]|e]; [|apply except_steps_holds].
  destruct (href r) as [link|e]; [|apply except_steps_holds].
  destruct link as [url|]; [|apply Hf].
  destruct (PyStr.search_restaurantes url) as [pattern|]; [|apply Hf].
  destruct (wait_for_request w pattern) as [[data|]|]; [done|apply Hf..].
Qed.

Lemma failures_cons w r batch :
  failures w (r :: batch) = (failures w [r] + failures w batch)%nat.
Proof. simpl. by destruct (response_of w r). Qed.

Lemma threads_hold w batch :
  let ts := map (fun r => Thread (steps w r).1 None) batch in
  flat_map (fun t => flat_map links (pending t)) ts
  = flat_map recorded_link batch
  /\ left_to_count ts = failures w batch
  /\ flat_map (fun t => flat_map entries (pending t)) ts
     = flat_map (queued w) batch
  /\ Forall (fun t => reading t = None) ts.
Proof.
  induction batch as [|r batch IH]; [by repeat split|].
  destruct IH as (I1 & I2 & I3 & I4).
  destruct (steps_hold w r) as (H1 & H2 & H3).
  cbn [map flat_map]. unfold left_to_count in *. cbn [map sum_list_with pending].
  rewrite I1, I2, I3, H1, H2, H3, (failures_cons w r batch).
  repeat split. by constructor.
Qed.

(** ** Lists that only grow: the links and the queue *)

Section Appends.
Context {X : Type}.
Variable holds : step -> list X.
Variable field : scraper -> list X.
Hypothesis appends : forall t st,
  match pending t with
  | [] => True
  | s :: p =>
      (pending (advance t st).1 = p
       /\ field (advance t st).2 = field st ++ holds s)
      \/ (pending (advance t st).1 = s :: p
          /\ field (advance t st).2 = field st)
  end.
Hypothesis appends_end : forall p rd st,
  field (run_to_end p rd st) = field st ++ flat_map holds p.

Lemma held_insert ts i t t' :
  ts !! i = Some t ->
  held holds (<[i:=t']> ts)
  = flat_map (fun t => flat_map holds (pending t)) (take i ts)
    ++ flat_map holds (pending t')
    ++ flat_map (fun t => flat_map holds (pending t)) (drop (S i) ts)
  /\ held holds ts
     = flat_map (fun t => flat_map holds (pending t)) (take i ts)
       ++ flat_map holds (pending t)
       ++ flat_map (fun t => flat_map holds (pending t)) (drop (S i) ts).
Proof.
  intros Hi. unfold held. split.
  - rewrite insert_take_drop by by eapply lookup_lt_Some.
    by rewrite flat_map_app.
  - rewrite <- (take_drop_middle ts i t Hi) at 1. by rewrite flat_map_app.
Qed.

Lemma run_appends schedule : forall ts st,
  exists v, field (run schedule ts st).2 = field st ++ v
            /\ v ++ held holds (run schedule ts st).1 ≡ₚ held holds ts.
Proof.
  induction schedule as [|i schedule IH]; intros ts st; simpl.
  - exists []. by rewrite app_nil_r.
  - destruct (ts !! i) as [t|] eqn:Hi; [|apply IH].
    pose proof (appends t st) as Ha.
    destruct (advance t st) as [t' st'] eqn:Hadv. simpl in Ha.
    destruct (IH (<[i:=t']> ts) st') as (v & Hv & Hp).
    destruct (held_insert ts i t t' Hi) as [E1 E2].
    destruct (pending t) as [|s p] eqn:Hpt.
    + assert (t' = t /\ st' = st) as [-> ->].
      { unfold advance in Hadv. rewrite Hpt in Hadv. by injection Hadv. }
      rewrite list_insert_id in Hv, Hp by done. rewrite list_insert_id by done.
      eauto.
    + destruct Ha as [[Hp' Hf]|[Hp' Hf]].
      * exists (holds s ++ v). rewrite Hv, Hf, <- app_assoc. split; [done|].
        rewrite <- app_assoc, Hp, E1, E2, Hp'. simpl.
        rewrite !app_assoc. apply Permutation_app_tail.
        rewrite <- !app_assoc.
        rewrite (app_assoc (holds s)). rewrite (app_assoc _ (holds s)).
        apply Permutation_app_tail, Permutation_app_comm.
      * exists v. rewrite Hv, Hf. split; [done|].
        by rewrite Hp, E1, E2, Hp'.
Qed.

Lemma wait_appends ts : forall st,
  field (wait ts st) = field st ++ held holds ts.
Proof.
  induction ts as [|t ts IH]; intros st; simpl.
  - by rewrite app_nil_r.
  - rewrite IH, appends_end. unfold held. simpl. by rewrite <- !app_assoc.
Qed.

Lemma run_threads_appends schedule w batch st :
  exists v,
    field (Pool.run_threads schedule w batch st).1 = field st ++ v
    /\ v ≡ₚ held holds (map (fun r => Thread (steps w r).1 None) batch).
Proof.
  unfold Pool.run_threads.
  destruct (run_appends schedule
              (map (fun r => Thread (steps w r).1 None) batch) st)
    as (v & Hv & Hp).
  destruct (run schedule _ st) as [ts' st']. simpl in *.
  exists (v ++ held holds ts'). by rewrite wait_appends, Hv, <- app_assoc.
Qed.

End Appends.

Lemma advance_links t st :
  match pending t with
  | [] => True
  | s :: p =>
      (pending (advance t st).1 = p
       /\ _restaurants (advance t st).2 = _restaurants st ++ links s)
      \/ (pending (advance t st).1 = s :: p
          /\ _restaurants (advance t st).2 = _restaurants st)
  end.
Proof.
  unfold advance. destruct (pending t) as [|[l| |e] p] eqn:Hp; simpl; auto.
  - destruct (reading t); simpl; [left|right]; by rewrite ?app_nil_r.
  - left. by rewrite app_nil_r.
Qed.

Lemma advance_entries t st :
  match pending t with
  | [] => True
  | s :: p =>
      (pending (advance t st).1 = p
       /\ _links_to_go (advance t st).2 = _links_to_go st ++ entries s)
      \/ (pending (advance t st).1 = s :: p
          /\ _links_to_go (advance t st).2 = _links_to_go st)
  end.
Proof.
  unfold advance. destruct (pending t) as [|[l| |e] p] eqn:Hp; simpl; auto.
  - left. by rewrite app_nil_r.
  - destruct (reading t); simpl; [left|right]; by rewrite ?app_nil_r.
Qed.

Lemma run_to_end_links p : forall rd st,
  _restaurants (run_to_end p rd st) = _restaurants st ++ flat_map links p.
Proof.
  induction p as [|[l| |e] p IH]; intros rd st; simpl.
  - by rewrite app_nil_r.
  - rewrite IH. simpl. by rewrite <- app_assoc.
  - by rewrite IH.
  - by rewrite IH.
Qed.

Lemma run_to_end_entries p : forall rd st,
  _links_to_go (run_to_end p rd st) = _links_to_go st ++ flat_map entries p.
Proof.
  induction p as [|[l| |e] p IH]; intros rd st; simpl.
  - by rewrite app_nil_r.
  - by rewrite IH.
  - by rewrite IH.
  - rewrite IH. simpl. by rewrite <- app_assoc.
Qed.

(** ** The counter *)

Lemma left_to_count_insert ts i t t' :
  ts !! i = Some t ->
  (left_to_count (<[i:=t']> ts) + sum_list_with increments (pending t)
   = left_to_count ts + sum_list_with increments (pending t'))%nat.
Proof.
  intros Hi. unfold left_to_count.
  rewrite insert_take_drop by by eapply lookup_lt_Some.
  set (f := fun t => sum_list_with increments (pending t)).
  assert (E : sum_list_with f ts
              = sum_list_with f (take i ts ++ t :: drop (S i) ts))
    by by rewrite take_drop_middle.
  rewrite E, !sum_list_with_app. simpl. unfold f. lia.
Qed.

Lemma left_to_count_lookup ts i t :
  ts !! i = Some t ->
  (sum_list_with increments (pending t) <= left_to_count ts)%nat.
Proof.
  intros Hi. unfold left_to_count.
  rewrite <- (take_drop_middle ts i t Hi).
  rewrite !sum_list_with_app. simpl. lia.
Qed.

Lemma bounded_advance n0 total ts st i t :
  ts !! i = Some t -> bounded n0 total ts st ->
  bounded n0 total (<[i:=(advance t st).1]> ts) (advance t st).2.
Proof.
  intros Hi (Hle & Hc & Hlow & Hall).
  pose proof (left_to_count_insert ts i t (advance t st).1 Hi) as Hins.
  pose proof (left_to_count_lookup ts i t Hi) as Hlook.
  pose proof (proj1 (Forall_lookup _ _) Hall i t Hi) as Ht.
  unfold advance in *.
  destruct (pending t) as [|[l| |e] p] eqn:Hp; simpl in *.
  - rewrite list_insert_id by done. unfold bounded. tauto.
  - assert (left_to_count (<[i:=Thread p (reading t)]> ts) = left_to_count ts)
      as E by lia.
    unfold bounded. rewrite E. split; [done|]. split; [done|]. split; [done|].
    apply Forall_insert; [done|]. simpl. intros n Hn.
    by destruct (Ht n Hn) as [_ [p' [=]]].
  - destruct (reading t) as [n|] eqn:Hrd; simpl in *.
    + destruct (Ht n eq_refl) as [Hn _].
      assert (S (left_to_count (<[i:=Thread p None]> ts)) = left_to_count ts)
        as E by lia.
      unfold bounded. simpl.
      split; [lia|]. split; [lia|]. split; [lia|].
      apply Forall_insert; [|done].
      eapply Forall_impl; [exact Hall|]. simpl. intros t0 H0 m Hm.
      destruct (H0 m Hm) as [Hb Hpend]. split; [lia|done].
    + assert (left_to_count
                (<[i:=Thread (IncrementErrors :: p)
                        (Some (num_errors (_metadata st)))]> ts)
              = left_to_count ts) as E by lia.
      unfold bounded. rewrite E. split; [done|]. split; [done|]. split; [done|].
      apply Forall_insert; [done|]. simpl. intros n [= <-].
      split; [done|]. by exists p.
  - assert (left_to_count (<[i:=Thread p (reading t)]> ts) = left_to_count ts)
      as E by lia.
    unfold bounded. rewrite E. split; [done|]. split; [done|]. split; [done|].
    apply Forall_insert; [done|]. simpl. intros n Hn.
    by destruct (Ht n Hn) as [_ [p' [=]]].
Qed.

Lemma bounded_run n0 total schedule : forall ts st,
  bounded n0 total ts st ->
  bounded n0 total (run schedule ts st).1 (run schedule ts st).2.
Proof.
  induction schedule as [|i schedule IH]; intros ts st Hb; simpl; [done|].
  destruct (ts !! i) as [t|] eqn:Hi; [|by apply IH].
  pose proof (bounded_advance n0 total ts st i t Hi Hb) as Ha.
  destruct (advance t st) as [t' st']. by apply IH.
Qed.

(** A thread run to its end, the other threads waiting. *)
Lemma bounded_run_to_end n0 total ts p : forall rd st,
  bounded n0 total (Thread p rd :: ts) st ->
  bounded n0 total ts (run_to_end p rd st).
Proof.
  induction p as [|[l| |e] p IH]; intros rd st Hb.
  - destruct Hb as (Hle & Hc & Hlow & Hall). unfold left_to_count in *.
    simpl in *. apply Forall_cons in Hall as [_ Hall].
    unfold bounded, left_to_count. tauto.
  - simpl. apply IH.
    destruct Hb as (Hle & Hc & Hlow & Hall).
    unfold bounded, left_to_count in *.
    simpl in *. apply Forall_cons in Hall as [Ht Hall]. simpl in Ht.
    split; [done|]. split; [done|]. split; [done|].
    constructor; [|done]. simpl. intros n Hn.
    by destruct (Ht n Hn) as [_ [p' [=]]].
  - simpl. apply IH.
    destruct Hb as (Hle & Hc & Hlow & Hall).
    unfold bounded, left_to_count in *.
    simpl in *. apply Forall_cons in Hall as [Ht Hall]. simpl in Ht.
    set (k := sum_list_with
                (fun t => sum_list_with increments (pending t)) ts) in *.
    assert (Hv : n0 <= default (num_errors (_metadata st)) rd
                 <= n0 + Z.of_nat
                      (total - S (sum_list_with increments p + k))).
    { destruct rd as [n|]; simpl; [by destruct (Ht n eq_refl)|done]. }
    split; [lia|]. split; [lia|]. split; [lia|].
    constructor; [done|].
    eapply Forall_impl; [exact Hall|]. simpl. intros t0 H0 m Hm.
    destruct (H0 m Hm) as [Hb Hpend]. split; [lia|done].
  - simpl. apply IH.
    destruct Hb as (Hle & Hc & Hlow & Hall).
    unfold bounded, left_to_count in *.
    simpl in *. apply Forall_cons in Hall as [Ht Hall]. simpl in Ht.
    split; [done|]. split; [done|]. split; [done|].
    constructor; [|done]. simpl. intros n Hn.
    by destruct (Ht n Hn) as [_ [p' [=]]].
Qed.

Lemma bounded_wait n0 total ts : forall st,
  bounded n0 total ts st -> bounded n0 total [] (wait ts st).
Proof.
  induction ts as [|[p rd] ts IH]; intros st Hb; simpl; [done|].
  by apply IH, bounded_run_to_end.
Qed.

Lemma run_threads_bounded schedule w batch st :
  let st' := (Pool.run_threads schedule w batch st).1 in
  num_errors (_metadata st) <= num_errors (_metadata st')
    <= num_errors (_metadata st) + Z.of_nat (failures w batch)
  /\ ((0 < failures w batch)%nat ->
      num_errors (_metadata st) + 1 <= num_errors (_metadata st')).
Proof.
  destruct (threads_hold w batch) as (_ & Hn & _ & Hrd).
  set (ts := map (fun r => Thread (steps w r).1 None) batch) in *.
  assert (Hb : bounded (num_errors (_metadata st)) (failures w batch) ts st).
  { unfold bounded. rewrite Hn, Nat.sub_diag. repeat split; try lia.
    eapply Forall_impl; [exact Hrd|]. simpl. by intros t -> n. }
  apply (bounded_run _ _ schedule) in Hb.
  unfold Pool.run_threads. fold ts.
  destruct (run schedule ts st) as [ts' st']. simpl in *.
  apply bounded_wait in Hb. destruct Hb as (_ & Hc & Hlow & _).
  unfold left_to_count in *. simpl in *. rewrite Nat.sub_0_r in Hc. auto.
Qed.

(** The tasks one after the other: every failure is counted. *)
Lemma run_tasks_counts w batch : forall st,
  num_errors (_metadata (run_tasks w batch st).1)
  = num_errors (_metadata st) + Z.of_nat (failures w batch).
Proof.
  induction batch as [|r batch IH]; intros st; simpl; [lia|].
  pose proof (ScraperFacts.extract_products_counts w r st) as Hc. simpl in Hc.
  destruct (extract_products w r st) as [st1 res]. simpl in Hc.
  specialize (IH st1).
  destruct (run_tasks w batch st1) as [st2 ress]. simpl in *.
  rewrite IH. destruct (response_of w r).
  - by destruct Hc as (-> & _).
  - destruct Hc as (-> & _). lia.
Qed.

(** ** An increment that is lost *)

(** The steps of a task that fails: the append of its link, if it read
    one, then the increment. *)
Lemma steps_failing w r :
  response_of w r = None ->
  exists post,
    (steps w r).1 = map AppendRestaurant (recorded_link r)
                    ++ IncrementErrors :: post
    /\ sum_list_with increments post = 0%nat.
Proof.
  assert (Hx : forall l s, exists post,
    (except_steps r l s).1 = IncrementErrors :: post
    /\ sum_list_with increments post = 0%nat).
  { intros l s. unfold except_steps.
    destruct (aria_label r); [|by eexists].
    destruct l, s; by eexists. }
  assert (Hf : forall link s, exists post,
    (let '(l, res) := except_steps r (Some link) s in
     (AppendRestaurant link :: l, res)).1
    = AppendRestaurant link :: IncrementErrors :: post
    /\ sum_list_with increments post = 0%nat).
  { intros link s. destruct (Hx (Some link) s) as (post & Hp & H0).
    destruct (except_steps r (Some link) s). simpl in *. subst. eauto. }
  unfold response_of, steps, recorded_link.
  destruct (perform r) as [[]|e]; [|intros _; apply Hx].
  destruct (href r) as [link|e]; [|intros _; apply Hx].
  destruct link as [url|]; [|intros _; apply Hf].
  destruct (PyStr.search_restaurantes url) as [pattern|]; [|intros _; apply Hf].
  destruct (wait_for_request w pattern) as [[data|]|];
    [done|intros _; apply Hf..].
Qed.

Lemma run_to_end_counted p : forall rd st,
  sum_list_with increments p = 0%nat ->
  num_errors (_metadata (run_to_end p rd st)) = num_errors (_metadata st).
Proof.
  induction p as [|[l| |e] p IH]; intros rd st H; simpl in *;
    [done| |done|]; by rewrite IH.
Qed.

Lemma recorded_link_length r : (length (recorded_link r) <= 1)%nat.
Proof.
  unfold recorded_link. destruct (perform r); [|simpl; lia].
  destruct (href r); simpl; lia.
Qed.

Lemma lost_update w r1 r2 st :
  response_of w r1 = None -> response_of w r2 = None ->
  num_errors
    (_metadata (Pool.run_threads (until_read 0 r1 ++ until_read 1 r2) w
                  [r1; r2] st).1)
  = num_errors (_metadata st) + 1.
Proof.
  intros (post1 & E1 & Z1)%steps_failing (post2 & E2 & Z2)%steps_failing.
  unfold Pool.run_threads, until_read. cbn [map]. rewrite E1, E2.
  pose proof (recorded_link_length r1) as L1.
  pose proof (recorded_link_length r2) as L2.
  destruct (recorded_link r1) as [|l1 [|? ?]]; [| |simpl in L1; lia];
    (destruct (recorded_link r2) as [|l2 [|? ?]]; [| |simpl in L2; lia]);
    simpl; by rewrite !run_to_end_counted.
Qed.

End PoolFacts.

Section Interleaved.
Import Pool PoolFacts.

(** X2. The tasks of a batch as threads, their steps interleaved by any
    schedule. Every link a task reads is recorded and every restaurant a
    failed task queues is on the queue, each once, in some order after
    what was there. The error count grows by at most the number of tasks
    that failed, and by at least one when one failed. With the tasks run
    one after the other the pool does what [run_tasks] does and the count
    grows by the number of failed tasks. The count can fall short of it:
    an increment is a read of the counter and a later write, and when two
    tasks fail there is a schedule that lets both read before either
    writes and counts one error for the two. *)
Theorem interleaved_tasks_count_errors w batch st :
  (forall schedule,
     let st' := (Pool.run_threads schedule w batch st).1 in
     (exists v, _restaurants st' = _restaurants st ++ v
                /\ v ≡ₚ flat_map recorded_link batch)
     /\ (exists q, _links_to_go st' = _links_to_go st ++ q
                   /\ q ≡ₚ flat_map (queued w) batch)
     /\ num_errors (_metadata st) <= num_errors (_metadata st')
        <= num_errors (_metadata st) + Z.of_nat (failures w batch)
     /\ ((0 < failures w batch)%nat ->
         num_errors (_metadata st) + 1 <= num_errors (_metadata st')))
  /\ Pool.run_threads [] w batch st = run_tasks w batch st
  /\ num_errors (_metadata (run_tasks w batch st).1)
     = num_errors (_metadata st) + Z.of_nat (failures w batch)
  /\ (forall r1 r2,
        batch = [r1; r2] ->
        response_of w r1 = None -> response_of w r2 = None ->
        failures w batch = 2%nat
        /\ exists schedule,
             num_errors (_metadata (Pool.run_threads schedule w batch st).1)
             = num_errors (_metadata st) + 1).
Proof.
  destruct (threads_hold w batch) as (Hl & _ & He & _).
  split; [|split; [|split]].
  - intros schedule st'. subst st'. split; [|split].
    + destruct (run_threads_appends links _restaurants advance_links
                  run_to_end_links schedule w batch st) as (v & Hv & Hp).
      exists v. split; [done|]. by rewrite Hp; unfold held; rewrite Hl.
    + destruct (run_threads_appends entries _links_to_go advance_entries
                  run_to_end_entries schedule w batch st) as (q & Hq & Hp).
      exists q. split; [done|]. by rewrite Hp; unfold held; rewrite He.
    + apply run_threads_bounded.
  - unfold Pool.run_threads. simpl.
    destruct (wait_alone w batch st) as [-> ->].
    by destruct (run_tasks w batch st).
  - apply run_tasks_counts.
  - intros r1 r2 -> H1 H2. split; [simpl; by rewrite H1, H2|].
    eexists. by apply lost_update.
Qed.

Lemma interleaved_tasks_count_errors_witness :
  failures Examples.quiet Examples.two_anchors = 2%nat
  /\ num_errors
       (_metadata (run_tasks Examples.quiet Examples.two_anchors init).1) = 2
  /\ num_errors
       (_metadata
          (Pool.run_threads [0; 0; 1; 1]%nat Examples.quiet
             Examples.two_anchors init).1) = 1
  /\ length
       (_links_to_go
          (Pool.run_threads [0; 0; 1; 1]%nat Examples.quiet
             Examples.two_anchors init).1)
     = 2%nat.
Proof.
  destruct (interleaved_tasks_count_errors Examples.quiet
              Examples.two_anchors init) as (_ & _ & Hseq & _).
  split; [reflexivity|]. split; [exact Hseq|]. split; reflexivity.
Defined.

End Interleaved.

(** * Further properties of the DOM path *)

Module DomFacts.
Import PyStr.

Lemma string_length_ind (P : string -> Prop) :
  (forall s, (forall t, (String.length t < String.length s)%nat -> P t) -> P s) ->
  forall s, P s.
Proof.
  intros H s. remember (String.length s) as n eqn:Hn.
  revert s Hn. induction (lt_wf n) as [n _ IH]. intros s ->.
  apply H. intros t Ht. by apply (IH (String.length t)).
Qed.

Lemma append_cons c s t : String c s +:+ t = String c (s +:+ t).
Proof. reflexivity. Qed.

Lemma append_soles s : "S/ " +:+ s = String "S" (String "/" (String " " s)).
Proof. reflexivity. Qed.

Lemma string_of_list_snoc l c s :
  string_of_list_ascii (l ++ [c]) +:+ s = string_of_list_ascii l +:+ String c s.
Proof.
  induction l as [|x l IH]; [done|]. cbn. rewrite !append_cons. by f_equal.
Qed.

Lemma append_empty s : s +:+ "" = s.
Proof. induction s as [|c s IH]; [done|]. rewrite append_cons. by f_equal. Qed.

(** The scan moves on from a character that does not start the prefix. *)
Lemma split_soles_from_next cur c s' :
  strip_prefix "S/ " (String c s') = None ->
  split_soles_from cur (String c s') = split_soles_from (c :: cur) s'.
Proof.
  destruct s' as [|d [|x s'']]; simpl; try done.
  destruct (Ascii.eqb_spec c "S") as [->|Hc]; simpl; [|done].
  destruct (Ascii.eqb_spec d "/") as [->|Hd]; simpl; [|done].
  destruct (Ascii.eqb_spec x " ") as [->|Hx]; simpl; done.
Qed.

Lemma split_soles_from_cut cur s :
  split_soles_from cur ("S/ " +:+ s)
  = string_of_list_ascii (rev cur) :: split_soles_from [] s.
Proof. reflexivity. Qed.

Lemma strip_prefix_soles s r :
  strip_prefix "S/ " s = Some r -> s = "S/ " +:+ r.
Proof.
  destruct s as [|c s]; [done|]. cbn [strip_prefix].
  destruct (Ascii.eqb_spec "S" c) as [<-|]; [|done].
  destruct s as [|d s]; [done|]. cbn [strip_prefix].
  destruct (Ascii.eqb_spec "/" d) as [<-|]; [|done].
  destruct s as [|x s]; [done|]. cbn [strip_prefix].
  destruct (Ascii.eqb_spec " " x) as [<-|]; [|done]. by intros [= <-].
Qed.

Lemma split_soles_from_spec s : forall cur,
  split_soles_from cur s <> []
  /\ join_soles (split_soles_from cur s) = string_of_list_ascii (rev cur) +:+ s
  /\ (length (split_soles_from cur s) = 1%nat <-> occurs "S/ " s = false).
Proof.
  induction s as [s IH] using string_length_ind. intros cur.
  destruct s as [|c s'].
  { simpl. split; [done|]. split; [|done]. by rewrite append_empty. }
  destruct (strip_prefix "S/ " (String c s')) as [r|] eqn:E.
  - apply strip_prefix_soles in E as E'. rewrite E', split_soles_from_cut.
    destruct (IH r) with (cur := @nil ascii) as (H1 & H2 & H3).
    { rewrite E', append_soles. simpl. lia. }
    split; [done|]. split.
    + cbn [join_soles]. destruct (split_soles_from [] r) as [|p l]; [done|].
      by rewrite H2.
    + rewrite <- E'. cbn [occurs]. rewrite E. split; [|done].
      destruct (split_soles_from [] r); [done|]. simpl. lia.
  - rewrite split_soles_from_next by done.
    destruct (IH s') with (cur := c :: cur) as (H1 & H2 & H3); [simpl; lia|].
    split; [done|]. split.
    + rewrite H2. simpl. apply string_of_list_snoc.
    + cbn [occurs]. by rewrite E.
Qed.

Lemma has_char_app a s t :
  has_char a (s +:+ t) = has_char a s || has_char a t.
Proof.
  induction s as [|c s IH]; [done|].
  rewrite append_cons. simpl. by rewrite IH, orb_assoc.
Qed.

(** A text without the first letter of the prefix does not hold the
    prefix. *)
Lemma occurs_soles_no_S a : has_char "S" a = false -> occurs "S/ " a = false.
Proof.
  induction a as [|c a IH]; [done|]. cbn [has_char occurs strip_prefix].
  intros [Hc Ha]%orb_false_iff.
  rewrite (Ascii.eqb_sym "S" c), Hc. auto.
Qed.

(** Up to the first prefix, when no letter of the text before is its
    first one. *)
Lemma split_soles_from_plain a : forall cur rest,
  has_char "S" a = false ->
  split_soles_from cur (a +:+ "S/ " +:+ rest)
  = (string_of_list_ascii (rev cur) +:+ a) :: split_soles_from [] rest.
Proof.
  induction a as [|c a IH]; intros cur rest.
  - intros _. change ("" +:+ "S/ " +:+ rest) with ("S/ " +:+ rest).
    by rewrite split_soles_from_cut, append_empty.
  - intros [Hc Ha]%orb_false_iff. rewrite append_cons.
    rewrite split_soles_from_next.
    + rewrite IH by done. f_equal. simpl. apply string_of_list_snoc.
    + cbn [strip_prefix]. by rewrite (Ascii.eqb_sym "S" c), Hc.
Qed.

Lemma split_soles_one a :
  occurs "S/ " a = false -> split_soles a = [a].
Proof.
  intros H. unfold split_soles.
  destruct (split_soles_from_spec a []) as (H1 & H2 & H3).
  apply H3 in H. destruct (split_soles_from [] a) as [|p [|q l]]; try done.
  simpl in H2. by rewrite H2.
Qed.

Lemma before_last_None l :
  l <> [] -> before_last l = None <-> length l = 1%nat.
Proof.
  unfold before_last. destruct l as [|x [|y l]]; [done|done|]. intros _.
  split; [|done]. intros H%last_None.
  by destruct (removelast (y :: l)).
Qed.

(** ** One card *)

Lemma scrap_product_Some p rest status cat r :
  scrap_product p rest status cat = Some r ->
  exists n d t,
    name_text p = Ok n /\ description_text p = Ok d /\ prices_text p = Ok t
    /\ r = Product
             (PopBool match popular_text p with Ok _ => true | Raise _ => false end)
             (Some n) (Some d)
             (from_option PriceStr PriceNull (before_last (split_soles t)))
             (from_option PriceStr PriceNull (last (split_soles t)))
             rest (Some status) cat.
Proof.
  unfold scrap_product.
  destruct (name_text p) as [n|]; [|done].
  destruct (description_text p) as [d|]; [|done].
  destruct (prices_text p) as [t|]; [|done].
  intros [= <-]. by exists n, d, t.
Qed.

Lemma last_split_soles t : exists s, last (split_soles t) = Some s.
Proof.
  destruct (split_soles_from_spec t []) as (H & _).
  unfold split_soles. destruct (last (split_soles_from [] t)) as [s|] eqn:E;
    [by exists s|]. by apply last_None in E.
Qed.

Lemma scrap_restaurante_products w e st :
  exists rows,
    _products (scrap_restaurante w e st) = _products st ++ rows
    /\ Forall (retried e) rows.
Proof.
  destruct e as [[rest link] status]. unfold scrap_restaurante.
  destruct (get_page w link) as [page|];
    [|exists []; by rewrite app_nil_r].
  destruct (product_elements page) as [products|];
    [|exists []; by rewrite app_nil_r].
  eexists. split; [reflexivity|].
  apply Forall_forall. intros p (x & -> & _)%list_elem_of_fmap r Hr.
  apply scrap_product_Some in Hr as (n & d & t & _ & _ & _ & ->). simpl.
  destruct (last_split_soles t) as [s ->]. eauto 10.
Qed.

Lemma retry_fold_products w q : forall st,
  exists rows,
    _products (foldl (fun st e => scrap_restaurante w e st) st q)
    = _products st ++ rows
    /\ Forall (fun p => exists e, e ∈ q /\ retried e p) rows.
Proof.
  induction q as [|e q IH]; intros st; simpl.
  - exists []. by rewrite app_nil_r.
  - destruct (IH (scrap_restaurante w e st)) as (rows2 & -> & H2).
    destruct (scrap_restaurante_products w e st) as (rows1 & -> & H1).
    exists (rows1 ++ rows2). rewrite app_assoc. split; [done|].
    apply Forall_app. split.
    + eapply Forall_impl; [exact H1|]. intros p Hp. exists e.
      split; [apply list_elem_of_here|done].
    + eapply Forall_impl; [exact H2|]. intros p (e' & He' & Hp). exists e'.
      split; [by apply list_elem_of_further|done].
Qed.

End DomFacts.

Section Dom.
Import PyStr DomFacts Examples.

(** X7. A card gives the empty list exactly when its name, its
    description or its price element cannot be read; the popularity mark
    is only looked for. The two price cells of a card that was read come
    from the text of its price element, split on the currency prefix: the
    list price is always a text, the one after the last prefix; the
    discounted price is missing exactly when the text holds no prefix. So
    a bare amount gives no discounted price, one prefixed amount gives the
    empty text as the discounted price, and two prefixed amounts give
    both. *)
Theorem scrap_product_prices p rest status cat :
  (scrap_product p rest status cat = None
   <-> raises (name_text p) \/ raises (description_text p)
       \/ raises (prices_text p))
  /\ forall r t,
       scrap_product p rest status cat = Some r -> prices_text p = Ok t ->
       (exists s, Precio_sin_descuento r = PriceStr s)
       /\ (Precio_con_descuento r = PriceNull <-> occurs "S/ " t = false)
       /\ (forall a, has_char "S" a = false ->
             (t = a -> prices_of r = (PriceNull, PriceStr a))
             /\ (t = "S/ " +:+ a -> prices_of r = (PriceStr "", PriceStr a))
             /\ (forall b, has_char "S" b = false ->
                   t = "S/ " +:+ a +:+ "S/ " +:+ b ->
                   prices_of r = (PriceStr a, PriceStr b))).
Proof.
  split.
  { unfold scrap_product.
    destruct (name_text p), (description_text p), (prices_text p); simpl;
      split; try done; tauto. }
  intros r t (n & d & t' & _ & _ & Ht' & ->)%scrap_product_Some Ht.
  rewrite Ht' in Ht. injection Ht as ->. unfold prices_of. simpl.
  destruct (split_soles_from_spec t []) as (Hne & _ & Hone).
  fold (split_soles t) in Hne, Hone.
  split; [|split].
  - destruct (last_split_soles t) as [s ->]. by exists s.
  - rewrite <- Hone, <- (before_last_None _ Hne).
    by destruct (before_last (split_soles t)).
  - intros a Ha. split; [|split].
    + intros ->. by rewrite split_soles_one by by apply occurs_soles_no_S.
    + intros ->. unfold split_soles. rewrite split_soles_from_cut.
      fold (split_soles a).
      by rewrite split_soles_one by by apply occurs_soles_no_S.
    + intros b Hb ->. unfold split_soles.
      rewrite split_soles_from_cut, split_soles_from_plain by done.
      fold (split_soles b).
      by rewrite split_soles_one by by apply occurs_soles_no_S.
Qed.

Lemma scrap_product_prices_witness :
  prices_of <$> scrap_product two_prices (Some "KFC") "Restaurante abierto" None
  = Some (PriceStr "9.90 ", PriceStr "12.90").
Proof.
  destruct (scrap_product two_prices (Some "KFC") "Restaurante abierto" None)
    as [r|] eqn:E; [|by vm_compute in E].
  destruct (proj2 (scrap_product_prices _ _ _ _) r "S/ 9.90 S/ 12.90"
              E eq_refl)
    as (_ & _ & H).
  destruct (H "9.90 " eq_refl) as (_ & _ & H3).
  simpl. f_equal. by apply H3.
Defined.

(** X8. The split of a text on the currency prefix never gives the empty
    list, so the list price of a card, its last piece, is always there;
    the pieces put together with the prefix between them give the text
    back; and there is one piece exactly when the prefix does not occur. *)
Theorem split_soles_join t :
  PyStr.split_soles t <> []
  /\ join_soles (PyStr.split_soles t) = t
  /\ (length (PyStr.split_soles t) = 1%nat <-> occurs "S/ " t = false).
Proof. apply (split_soles_from_spec t []). Qed.

(** X9. The retry of a restaurant adds to the records one entry for each
    card of its page, what [scrap_product] gives for the card with the
    name and the status of the entry and the category of the page; the
    entries are stated up to their order, which is that of a set of
    futures. It adds nothing when the page or its cards cannot be had.
    The retry pass only adds records, and every record it adds has the
    name and the availability text of an entry of the queue, as they were
    remembered when the restaurant failed, a boolean as its popularity
    and a text as its list price. *)
Theorem retry_rows_carry_queued_name_and_status w :
  (forall e st, exists rows,
     _products (scrap_restaurante w e st) = _products st ++ rows
     /\ (forall page cards,
           get_page w (link_of e) = Ok page ->
           product_elements page = Ok cards ->
           rows ≡ₚ map (fun p => scrap_product p e.1.1 e.2 (category_of page))
                     cards
           /\ length rows = length cards)
     /\ (raises (get_page w (link_of e))
         \/ (exists page, get_page w (link_of e) = Ok page
                          /\ raises (product_elements page)) ->
         rows = []))
  /\ forall st, exists rows,
       _products (retry_phase w st) = _products st ++ rows
       /\ Forall (fun p => forall r, p = Some r ->
            exists e, e ∈ _links_to_go st
              /\ Restaurante r = e.1.1 /\ Disponible r = Some e.2
              /\ (exists b, Popular r = PopBool b)
              /\ (exists s, Precio_sin_descuento r = PriceStr s)) rows.
Proof.
  split.
  { intros [[rest link] status] st. unfold scrap_restaurante, link_of. simpl.
    destruct (get_page w link) as [page|err] eqn:Hpage.
    2: { exists []. rewrite app_nil_r. split; [done|]. split; [done|]. done. }
    destruct (product_elements page) as [cards|err] eqn:Hcards.
    2: { exists []. rewrite app_nil_r. split; [done|]. split; [|done].
         intros page' cards' [= <-]. by rewrite Hcards. }
    eexists. split; [done|]. split.
    - intros page' cards' [= <-]. rewrite Hcards. intros [= <-].
      split; [done|]. by rewrite length_map.
    - intros [[]|(page' & [= <-] & Hr)]. by rewrite Hcards in Hr. }
  intros st. unfold retry_phase.
  destruct (retry_fold_products w (deduplicated (_links_to_go st))
              (set_links_to_go (deduplicated (_links_to_go st)) st))
    as (rows & -> & H).
  exists rows. split; [done|].
  eapply Forall_impl; [exact H|]. intros p (e & He & Hp) r Hr.
  exists e. split; [|by apply Hp].
  unfold deduplicated in He. by rewrite elem_of_remove_dups in He.
Qed.

End Dom.

(** * Further properties of the cleaning stage *)

Module CleanFacts.
Import Frame FrameFacts.

Lemma drop_duplicates_from_keys l : forall seen k,
  k ∈ map key_of (drop_duplicates_from seen l)
  <-> k ∈ map key_of l /\ k ∉ seen.
Proof.
  induction l as [|y l IH]; intros seen k; simpl.
  - split; [by intros ?%elem_of_nil|by intros [?%elem_of_nil _]].
  - case_bool_decide as Hy.
    + rewrite IH, elem_of_cons. split; [by intros [? ?]; auto|].
      intros [[->|Hk] Hs]; [done|auto].
    + simpl. rewrite !elem_of_cons, IH, elem_of_cons. split.
      * intros [->|[Hk Hs]]; [auto|]. split; [auto|]. intros H. apply Hs. auto.
      * intros [[->|Hk] Hs]; [auto|].
        destruct (decide (k = key_of y)) as [->|Hne]; [auto|].
        right. split; [done|]. by intros [?|?].
Qed.

Lemma length_remove_dups_le {A} `{EqDecision A} (l : list A) :
  (length (remove_dups l) <= length l)%nat.
Proof.
  induction l as [|x l IH]; simpl; [done|].
  destruct (decide_rel elem_of x l); simpl; lia.
Qed.

Lemma length_dedup_stage l :
  length (dedup_stage l) = length (remove_dups (map key_of l)).
Proof.
  unfold dedup_stage, drop_duplicates.
  rewrite <- (length_map key_of). apply Permutation_length, NoDup_Permutation.
  - apply drop_duplicates_from_NoDup.
  - apply NoDup_remove_dups.
  - intros k. rewrite drop_duplicates_from_keys, elem_of_remove_dups.
    assert (Hp : map key_of (sort_values l) ≡ₚ map key_of l)
      by (apply Permutation_map, sort_values_perm).
    rewrite Hp. split; [by intros [? _]|]. intros H. split; [done|].
    apply not_elem_of_nil.
Qed.

Lemma DataFrame_length ps fecha df :
  DataFrame ps fecha = Ok df ->
  length df = length ps /\ Forall (fun r => Fecha r = fecha) df
  /\ (forall r, r ∈ df -> exists p, p ∈ ps /\ cells r = default null_product p)
  /\ (forall p, p ∈ ps -> Row (default null_product p) fecha ∈ df).
Proof.
  unfold DataFrame. destruct ps as [|p ps]; [intros [= <-]|].
  { repeat split; try done; by intros ? ?%elem_of_nil. }
  destruct (forallb is_empty_list (p :: ps)); [done|]. intros [= <-].
  change (Row (default null_product p) fecha
            :: map (fun p => Row (default null_product p) fecha) ps)
    with (map (fun p => Row (default null_product p) fecha) (p :: ps)).
  split; [apply length_map|]. split; [|split].
  - apply Forall_forall. by intros r (q & -> & _)%list_elem_of_fmap.
  - intros r (q & -> & Hq)%list_elem_of_fmap. by exists q.
  - intros q Hq. apply list_elem_of_fmap. by exists q.
Qed.

Lemma process_data_products w st df :
  DataFrame (_products st) (today w) = Ok df ->
  _products (process_data w st) = [].
Proof.
  intros H. unfold process_data. rewrite H.
  by destruct (astype (map replace_empty (dedup_stage df))).
Qed.

Lemma process_data_length w st df :
  DataFrame (_products st) (today w) = Ok df ->
  length (_dataset (process_data w st)) = length (dedup_stage df).
Proof.
  intros H. rewrite (process_data_dataset w st df H).
  destruct (astype (map replace_empty (dedup_stage df))) as [ts|e] eqn:E.
  - apply astype_spec, Forall2_length in E.
    by rewrite !length_map in *.
  - by rewrite length_map.
Qed.

(** ** When [astype] raises *)

Lemma astype_row_raises r :
  raises (astype_row r)
  <-> raises (price_to_float (Precio_con_descuento (cells r)))
      \/ raises (price_to_float (Precio_sin_descuento (cells r))).
Proof.
  unfold astype_row.
  destruct (price_to_float (Precio_con_descuento (cells r)));
    destruct (price_to_float (Precio_sin_descuento (cells r))); simpl; tauto.
Qed.

Lemma astype_raises l :
  raises (astype l) <-> exists r, r ∈ l /\ raises (astype_row r).
Proof.
  induction l as [|x l IH]; simpl.
  - split; [done|]. by intros (r & ?%elem_of_nil & _).
  - destruct (astype_row x) as [t|e] eqn:Hx.
    + destruct (astype l) as [ts|e]; simpl in *.
      * split; [done|]. intros (r & [->|Hr]%elem_of_cons & Hraise).
        -- by rewrite Hx in Hraise.
        -- apply IH. eauto.
      * split; [|done]. intros _. destruct IH as [(r & Hr & Hraise) _]; [done|].
        exists r. split; [by apply list_elem_of_further|done].
    + split; [|done]. intros _. exists x.
      split; [apply list_elem_of_here|by rewrite Hx].
Qed.

Lemma Forall2_elem_of_l {A B} (P : A -> B -> Prop) l k x :
  Forall2 P l k -> x ∈ l -> exists y, y ∈ k /\ P x y.
Proof.
  induction 1 as [|a b l k Hab _ IH]; [by intros ?%elem_of_nil|].
  intros [->|Hx]%elem_of_cons.
  - exists b. split; [apply list_elem_of_here|done].
  - destruct (IH Hx) as (y & Hy & HP). exists y.
    split; [by apply list_elem_of_further|done].
Qed.

Lemma Forall2_with_l {A B} (P : A -> Prop) (Q : A -> B -> Prop) l k :
  Forall P l -> Forall2 Q l k -> Forall2 (fun x y => P x /\ Q x y) l k.
Proof.
  intros HP HQ. induction HQ as [|a b l k Hab _ IH]; [constructor|].
  apply Forall_cons in HP as [Ha HP]. constructor; auto.
Qed.

Lemma dedup_stage_elem_of l r : r ∈ dedup_stage l -> r ∈ l.
Proof.
  intros Hr. rewrite <- (sort_values_perm l).
  eapply elem_of_sublist; [exact Hr|apply drop_duplicates_from_sublist].
Qed.

(** Two rows in the order of [sort_values] with different triples are in
    the strict order of their triples. *)
Lemma row_leb_key_compare a b :
  row_leb a b = true -> key_of a <> key_of b -> key_compare a b = Lt.
Proof.
  unfold row_leb, row_compare, key_compare, key_of.
  destruct text_compare_lawful as (He & _).
  intros Hle Hne.
  destruct (text_compare (Restaurante (cells a)) (Restaurante (cells b)))
    eqn:E1; simpl in *; try done.
  destruct (text_compare (Producto (cells a)) (Producto (cells b)))
    eqn:E2; simpl in *; try done.
  destruct (text_compare (Descripcion (cells a)) (Descripcion (cells b)))
    eqn:E3; simpl in *; try done.
  exfalso. apply Hne. by rewrite (He _ _ E1), (He _ _ E2), (He _ _ E3).
Qed.

Lemma sorted_key_order l :
  sorted l -> NoDup (map key_of l) ->
  StronglySorted (fun a b => key_compare a b = Lt) l.
Proof.
  unfold sorted. induction 1 as [|a l Hs IH Ha]; intros Hnd; [constructor|].
  simpl in Hnd. apply NoDup_cons in Hnd as [Hnot Hnd].
  constructor; [by apply IH|].
  rewrite Forall_forall in *. intros b Hb. apply row_leb_key_compare.
  - by apply Ha.
  - intros Hk. apply Hnot. rewrite Hk. apply list_elem_of_fmap. by exists b.
Qed.

End CleanFacts.

Section Cleaned.
Import Frame FrameFacts CleanFacts Examples.

(** X10. When the frame is built, the cleaned data set has one row for
    each distinct raw triple (Restaurante, Producto, Descripcion) of the
    records, whether the conversion of the prices goes through or not; so
    it has no more rows than there were records, and the records extracted
    are dropped from [_products]. *)
Theorem dataset_counts_distinct_triples w st df :
  DataFrame (_products st) (today w) = Ok df ->
  length (_dataset (process_data w st)) = length (remove_dups (map key_of df))
  /\ (length (_dataset (process_data w st)) <= length (_products st))%nat
  /\ _products (process_data w st) = [].
Proof.
  intros H. rewrite (process_data_length w st df H), length_dedup_stage.
  split; [done|]. split; [|by eapply process_data_products].
  destruct (DataFrame_length _ _ _ H) as (<- & _).
  etrans; [apply length_remove_dups_le|]. by rewrite length_map.
Qed.

Lemma dataset_counts_distinct_triples_witness :
  length (_dataset (process_data quiet popular_twice)) = 1%nat
  /\ (length (_dataset (process_data quiet popular_twice))
      <= length (_products popular_twice))%nat
  /\ _products (process_data quiet popular_twice) = [].
Proof.
  destruct (dataset_counts_distinct_triples quiet popular_twice
              (frame_of (_products popular_twice)) eq_refl) as (H1 & H2 & H3).
  split; [|by split]. rewrite H1. vm_compute. reflexivity.
Defined.

(** X11. One price text that [float()] does not read stops the cleaning
    at the conversion of the price columns: the data set stays as the
    steps before left it, the rows kept with their empty texts replaced,
    nothing rounded, formatted or relabelled; and that is what the data
    file gets. *)
Theorem unparseable_price_stops_cleaning w st df r s :
  DataFrame (_products st) (today w) = Ok df ->
  r ∈ map replace_empty (dedup_stage df) ->
  Precio_con_descuento (cells r) = PriceStr s
  \/ Precio_sin_descuento (cells r) = PriceStr s ->
  PyFloat.float_of_string s = None ->
  let kept := map replace_empty (dedup_stage df) in
  _dataset (process_data w st) = kept
  /\ _products (process_data w st) = []
  /\ (to_csv w = Ok () ->
      csv_files (save_data w (process_data w st)).1 = csv_files st ++ [kept]).
Proof.
  intros Hdf Hr Hs Hfloat kept. change (r ∈ kept) in Hr.
  assert (Heqkept : kept = map replace_empty (dedup_stage df)) by done.
  clearbody kept.
  assert (Hraise : raises (astype kept)).
  { apply astype_raises. exists r. split; [done|]. apply astype_row_raises.
    destruct Hs as [-> | ->]; [left|right]; simpl; by rewrite Hfloat. }
  assert (Hd : _dataset (process_data w st) = kept).
  { rewrite (process_data_dataset w st df Hdf). rewrite <- Heqkept.
    by destruct (astype kept). }
  split; [done|]. split; [by eapply process_data_products|].
  intros Hcsv. unfold save_data. rewrite Hd, Hcsv.
  destruct kept as [|x kept']; [by apply elem_of_nil in Hr|]. simpl.
  rewrite Hd. by destruct (ScraperFacts.process_data_num_errors w st) as (_ & -> & _).
Qed.

Lemma unparseable_price_stops_cleaning_witness :
  _dataset (process_data quiet thousands_price)
  = [Row (Product (PopBool false) (Some "Parrillada") (Some "Para cuatro")
            PriceNull (PriceStr "1,234.50") (Some "KFC - Lima")
            (Some "Abre a las 18:00") (Some "Pollo")) "2024-01-01"]
  /\ csv_files (save_data quiet (process_data quiet thousands_price)).1
     = [_dataset (process_data quiet thousands_price)].
Proof.
  destruct (unparseable_price_stops_cleaning quiet thousands_price
              (frame_of (_products thousands_price))
              (Row (Product (PopBool false) (Some "Parrillada")
                      (Some "Para cuatro") PriceNull (PriceStr "1,234.50")
                      (Some "KFC - Lima") (Some "Abre a las 18:00")
                      (Some "Pollo")) "2024-01-01")
              "1,234.50" eq_refl)
    as (H1 & _ & H3).
  - vm_compute. apply list_elem_of_here.
  - by right.
  - vm_compute. reflexivity.
  - split; [rewrite H1; vm_compute; reflexivity|].
    rewrite H3 by reflexivity. rewrite H1. reflexivity.
Defined.

(** X12. A card that could not be read leaves, among records that all
    have a product name, one row of missing values: after the cleaning it
    reads None, nan and nan, with nothing in the other columns, and it is
    counted as a record. When no card at all could be read, the frame
    cannot be built and the cleaning changes nothing: the data set and
    the list of records stay as they were. *)
Theorem failed_card_leaves_null_row w st :
  (forall df ts,
     DataFrame (_products st) (today w) = Ok df ->
     astype (map replace_empty (dedup_stage df)) = Ok ts ->
     None ∈ _products st ->
     (forall p, Some p ∈ _products st -> Producto p <> None) ->
     null_row (today w) ∈ _dataset (process_data w st))
  /\ (_products st <> [] -> Forall (fun p => p = None) (_products st) ->
      process_data w st = st).
Proof.
  split.
  2: { intros Hne Hall. unfold process_data, DataFrame.
       destruct (_products st) as [|p ps]; [done|].
       assert (H : forallb is_empty_list (p :: ps) = true).
       { apply forallb_forall. intros q Hq%list_elem_of_In.
         rewrite Forall_forall in Hall. by rewrite (Hall q Hq). }
       by rewrite H. }
  intros df ts Hdf Hts Hnone Hname.
  destruct (DataFrame_length _ _ _ Hdf) as (_ & _ & Hfrom & Hin).
  set (nr := Row null_product (today w)).
  assert (Hnr : nr ∈ df) by apply (Hin None Hnone).
  assert (Hkept : nr ∈ dedup_stage df).
  { destruct (drop_duplicates_from_first (sort_values df) [] nr)
      as (r' & Hr' & Hk & _);
      [apply sort_values_sorted|by rewrite sort_values_perm
      |apply not_elem_of_nil|].
    assert (Hdf' : r' ∈ df) by by apply dedup_stage_elem_of.
    destruct (Hfrom r' Hdf') as (p & Hp & Hcells).
    destruct (DataFrame_length _ _ _ Hdf) as (_ & Hfecha & _).
    rewrite Forall_forall in Hfecha. specialize (Hfecha r' Hdf').
    destruct p as [q|].
    - exfalso. apply (Hname q Hp). unfold key_of in Hk.
      rewrite Hcells in Hk. simpl in Hk. by injection Hk.
    - replace nr with r'; [done|]. destruct r' as [c f]. simpl in *.
      by subst. }
  rewrite (process_data_dataset w st df Hdf), Hts.
  apply astype_spec in Hts.
  destruct (Forall2_elem_of_l _ _ _ (replace_empty nr) Hts)
    as (t & Ht & Hrow & Hcon & Hsin).
  { apply list_elem_of_fmap. by exists nr. }
  apply list_elem_of_fmap. exists t. split; [|done].
  destruct t as [tr tc tsn]. simpl in *. subst tr.
  injection Hcon as <-. injection Hsin as <-. reflexivity.
Qed.

Lemma failed_card_leaves_null_row_witness :
  null_row "2024-01-01" ∈ _dataset (process_data quiet one_failed_card)
  /\ length (_dataset (process_data quiet one_failed_card)) = 2%nat.
Proof.
  split; [|vm_compute; reflexivity].
  apply (proj1 (failed_card_leaves_null_row quiet one_failed_card)
           (frame_of (_products one_failed_card))
           (default [] (match astype (map replace_empty
                                 (dedup_stage
                                    (frame_of (_products one_failed_card))))
                        with Ok ts => Some ts | Raise _ => None end))).
  - reflexivity.
  - vm_compute. reflexivity.
  - apply list_elem_of_further, list_elem_of_here.
  - intros p Hp. apply elem_of_cons in Hp as [Hp|Hp];
      [injection Hp as ->; discriminate|].
    apply elem_of_cons in Hp as [Hp|Hp]; [discriminate|].
    by apply elem_of_nil in Hp.
Defined.

(** X13. When the cleaning goes through, the data set is the rows kept,
    in their order, each cleaned by itself: stamped with the date of the
    run; popular, the empty text or None as the record was popular, not
    popular or had no value; the name and the description with the empty
    text turned into a missing value; the restaurant and the category cut
    at their suffix, the availability rewritten; and the two prices as
    texts, the discounted one rounded and compared with the list price. *)
Theorem cleaned_rows_dated_and_labelled w st df ts :
  DataFrame (_products st) (today w) = Ok df ->
  astype (map replace_empty (dedup_stage df)) = Ok ts ->
  Forall2 (fun k r =>
      Fecha r = today w
      /\ Popular (cells r) = PopStr (popular_text_of (Popular (cells k)))
      /\ Producto (cells r) = empty_to_none (Producto (cells k))
      /\ Descripcion (cells r) = empty_to_none (Descripcion (cells k))
      /\ Restaurante (cells r)
         = PyStr.strip_suffix <$> empty_to_none (Restaurante (cells k))
      /\ Categoria (cells r)
         = PyStr.strip_suffix <$> empty_to_none (Categoria (cells k))
      /\ Disponible (cells r)
         = PyStr.closed_label <$> empty_to_none (Disponible (cells k))
      /\ exists c s,
           price_to_float (price_empty_to_none (Precio_con_descuento (cells k)))
           = Ok c
           /\ price_to_float
                (price_empty_to_none (Precio_sin_descuento (cells k))) = Ok s
           /\ Precio_con_descuento (cells r)
              = PriceStr (display_price (discounted c s))
           /\ Precio_sin_descuento (cells r) = PriceStr (display_price s))
    (dedup_stage df) (_dataset (process_data w st)).
Proof.
  intros Hdf Hts. rewrite (process_data_dataset w st df Hdf), Hts.
  apply astype_spec in Hts. apply Forall2_fmap_l in Hts.
  apply Forall2_fmap_r.
  assert (Hfecha : Forall (fun r => Fecha r = today w) (dedup_stage df)).
  { destruct (DataFrame_length _ _ _ Hdf) as (_ & Hf & _).
    rewrite Forall_forall in *. intros r Hr.
    by apply Hf, dedup_stage_elem_of. }
  eapply Forall2_impl; [exact (Forall2_with_l _ _ _ _ Hfecha Hts)|].
  intros k t (Hk & Hrow & Hcon & Hsin). unfold compose, clean_row.
  rewrite Hrow. simpl in *. repeat split; try done.
  - by destruct (Popular (cells k)) as [|[]|[|]].
  - exists (t_con t), (t_sin t). by rewrite Hcon, Hsin.
Qed.

Lemma cleaned_rows_dated_and_labelled_witness :
  _dataset (process_data quiet one_failed_card)
  = [Row (Product (PopStr "popular") (Some "Alitas") (Some "6 piezas")
            (PriceStr "9,90") (PriceStr "12,90") (Some "KFC")
            (Some "Restaurante abierto") None) "2024-01-01";
     null_row "2024-01-01"]
  /\ Forall2 (fun k r => Fecha r = today quiet
                /\ Popular (cells r) = PopStr (popular_text_of (Popular (cells k))))
       (dedup_stage (frame_of (_products one_failed_card)))
       (_dataset (process_data quiet one_failed_card)).
Proof.
  split; [vm_compute; reflexivity|].
  eapply Forall2_impl;
    [apply (cleaned_rows_dated_and_labelled quiet one_failed_card
              (frame_of (_products one_failed_card))
              (default [] (match astype (map replace_empty
                                    (dedup_stage
                                       (frame_of (_products one_failed_card))))
                           with Ok ts => Some ts | Raise _ => None end)));
     [reflexivity|vm_compute; reflexivity]|].
  intros k r (H1 & H2 & _). by split.
Defined.

(** X14. The rows kept are in the strict order of their raw triples,
    Restaurante, then Producto, then Descripcion, each ascending with the
    missing values last; and the data set has them in that order, row by
    row, whether the conversion of the prices goes through or not. *)
Theorem dataset_rows_in_key_order w st df :
  DataFrame (_products st) (today w) = Ok df ->
  StronglySorted (fun a b => key_compare a b = Lt) (dedup_stage df)
  /\ Forall2 (fun k r =>
       Fecha r = Fecha k
       /\ Producto (cells r) = empty_to_none (Producto (cells k))
       /\ Descripcion (cells r) = empty_to_none (Descripcion (cells k)))
       (dedup_stage df) (_dataset (process_data w st)).
Proof.
  intros Hdf. split.
  - apply sorted_key_order.
    + eapply sorted_sublist; [apply drop_duplicates_from_sublist|].
      apply sort_values_sorted.
    + apply drop_duplicates_from_NoDup.
  - rewrite (process_data_dataset w st df Hdf).
    destruct (astype (map replace_empty (dedup_stage df))) as [ts|e] eqn:E.
    + apply astype_spec in E. apply Forall2_fmap_l in E.
      apply Forall2_fmap_r. eapply Forall2_impl; [exact E|].
      intros k t (Hrow & _). unfold compose, clean_row. by rewrite Hrow.
    + apply Forall2_fmap_r, Forall_Forall2_diag, Forall_forall.
      by intros k _.
Qed.

Lemma dataset_rows_in_key_order_witness :
  StronglySorted (fun a b => key_compare a b = Lt)
    (dedup_stage (frame_of (_products one_failed_card)))
  /\ map (fun r => Producto (cells r))
       (_dataset (process_data quiet one_failed_card)) = [Some "Alitas"; None].
Proof.
  split; [|vm_compute; reflexivity].
  apply (dataset_rows_in_key_order quiet one_failed_card
           (frame_of (_products one_failed_card)) eq_refl).
Defined.

End Cleaned.

(** * Further properties of the texts and of the prices *)

Module FloatFacts.
Import PyFloat.

Lemma has_char_In a s : has_char a s = true <-> In a (list_ascii_of_string s).
Proof.
  induction s as [|c s IH]; simpl; [split; [done|tauto]|].
  rewrite orb_true_iff, IH.
  split; (intros [H|H]; [left|by right]).
  - by apply Ascii.eqb_eq in H.
  - by apply Ascii.eqb_eq.
Qed.

Lemma lstrip_In c l : is_space c = false -> In c l -> In c (lstrip l).
Proof.
  intros Hc. induction l as [|x l IH]; simpl; [done|].
  intros [->|Hin].
  - rewrite Hc. by left.
  - destruct (is_space x); [auto|by right].
Qed.

Lemma strip_In c l : is_space c = false -> In c l -> In c (strip l).
Proof.
  intros Hc Hin. unfold strip.
  apply -> in_rev. apply lstrip_In; [done|].
  apply -> in_rev. by apply lstrip_In.
Qed.

Lemma sign_In c l :
  Ascii.eqb c "-" = false -> Ascii.eqb c "+" = false ->
  In c l -> In c (sign l).2.
Proof.
  intros H1 H2. destruct l as [|x l]; [done|]. unfold sign.
  intros [->|Hin].
  - rewrite H1, H2. by left.
  - destruct (Ascii.eqb x "-"); [done|].
    destruct (Ascii.eqb x "+"); [done|by right].
Qed.

Lemma digit_tail_rest n : forall l,
  (length l <= n)%nat ->
  exists pre, l = pre ++ (digit_tail l).2 /\ Forall digitish pre.
Proof.
  induction n as [|n IH]; intros l Hl.
  { destruct l; [|simpl in Hl; lia]. by exists []. }
  destruct l as [|c l']; [by exists []|]. cbn [digit_tail].
  simpl in Hl.
  destruct (is_digit c) eqn:Hc.
  - destruct (IH l') as (pre & Hpre & Hall); [lia|].
    destruct (digit_tail l') as [ds r]. simpl in *.
    exists (c :: pre). split; [by rewrite Hpre at 1|].
    constructor; [by left|done].
  - destruct (Ascii.eqb_spec c "_") as [->|Hu]; [|by exists []].
    destruct l' as [|c2 l'']; [by exists []|].
    destruct (is_digit c2) eqn:Hc2; [|by exists []].
    destruct (IH l'') as (pre & Hpre & Hall); [simpl in Hl; lia|].
    destruct (digit_tail l'') as [ds r]. simpl in *.
    exists ("_"%char :: c2 :: pre). split; [by rewrite Hpre at 1|].
    constructor; [right; by left|]. constructor; [by left|done].
Qed.

Lemma digitpart_rest l ds r :
  digitpart l = Some (ds, r) ->
  exists pre, l = pre ++ r /\ Forall digitish pre.
Proof.
  unfold digitpart. destruct l as [|c l']; [done|].
  destruct (is_digit c) eqn:Hc; [|done].
  destruct (digit_tail_rest (length l') l') as (pre & Hpre & Hall); [done|].
  destruct (digit_tail l') as [ds' r']. simpl in *. intros [= <- <-].
  exists (c :: pre). split; [by rewrite Hpre at 1|].
  constructor; [by left|done].
Qed.

Lemma number_rest l ip fp r :
  number l = Some (ip, fp, r) ->
  exists pre, l = pre ++ r /\ Forall digitish pre.
Proof.
  unfold number.
  destruct (digitpart l) as [[ip' r1]|] eqn:E1.
  - apply digitpart_rest in E1 as (pre1 & -> & H1).
    destruct r1 as [|c r1']; [intros [= <- <- <-]; by exists pre1|].
    destruct (Ascii.eqb_spec c ".") as [->|Hc];
      [|intros [= <- <- <-]; by exists pre1].
    destruct (digitpart r1') as [[fp' r2]|] eqn:E2.
    + apply digitpart_rest in E2 as (pre2 & -> & H2). intros [= <- <- <-].
      exists (pre1 ++ "."%char :: pre2). split; [by rewrite <- app_assoc|].
      apply Forall_app. split; [done|].
      constructor; [right; by right|done].
    + intros [= <- <- <-]. exists (pre1 ++ ["."%char]).
      split; [by rewrite <- app_assoc|].
      apply Forall_app. split; [done|]. constructor; [right; by right|done].
  - destruct l as [|c r1']; [done|].
    destruct (Ascii.eqb_spec c ".") as [->|Hc]; [|done].
    destruct (digitpart r1') as [[fp' r2]|] eqn:E2; [|done].
    apply digitpart_rest in E2 as (pre2 & -> & H2). intros [= <- <- <-].
    exists ("."%char :: pre2). split; [done|].
    constructor; [right; by right|done].
Qed.

(** A comma is no part of a number: it is in what follows. *)
Lemma comma_rest pre r :
  Forall digitish pre -> In ","%char (pre ++ r) -> In ","%char r.
Proof.
  intros Hall [Hin|Hin]%in_app_or; [|done].
  rewrite Forall_forall in Hall. apply list_elem_of_In, Hall in Hin.
  by destruct Hin as [?|[?|?]].
Qed.

Lemma exponent_comma r : In ","%char r -> exponent r = None.
Proof.
  unfold exponent. destruct r as [|c l']; [done|].
  destruct (Ascii.eqb (lower c) "e") eqn:Hc; [|done].
  intros [->|Hin]; [by vm_compute in Hc|].
  pose proof (sign_In ","%char l' eq_refl eq_refl Hin) as Hs.
  destruct (sign l') as [s l'']. simpl in Hs.
  destruct (digitpart l'') as [[ds rest]|] eqn:E; [|done].
  apply digitpart_rest in E as (pre & -> & Hall).
  apply comma_rest in Hs; [|done]. by destruct rest.
Qed.

Lemma absfloatvalue_comma l : In ","%char l -> absfloatvalue l = None.
Proof.
  intros Hin. unfold absfloatvalue.
  assert (Hw : forall w, ~ In ","%char (list_ascii_of_string w) ->
            String.eqb (string_of_list_ascii (map lower l)) w = false).
  { intros w Hno. apply String.eqb_neq. intros <-. apply Hno.
    rewrite list_ascii_of_string_of_list_ascii.
    change ","%char with (lower ","). by apply in_map. }
  rewrite !Hw by (simpl; intuition discriminate). simpl.
  destruct (number l) as [[[ip fp] r]|] eqn:E; [|done].
  apply number_rest in E as (pre & -> & Hall).
  by rewrite exponent_comma by by eapply comma_rest.
Qed.

Lemma float_of_string_comma s :
  has_char "," s = true -> float_of_string s = None.
Proof.
  intros Hin%has_char_In. unfold float_of_string.
  apply (strip_In ","%char) in Hin; [|done].
  pose proof (sign_In ","%char _ eq_refl eq_refl Hin) as Hs.
  destruct (sign (strip (list_ascii_of_string s))) as [sg l]. simpl in Hs.
  by rewrite absfloatvalue_comma.
Qed.

End FloatFacts.

Module TextFacts.
Import PyStr DomFacts.

(** ** The swap of the separators *)

Lemma swap_separators_cons c s :
  swap_separators (String c s) = String (swap_char c) (swap_separators s).
Proof.
  unfold swap_separators, swap_char. simpl. f_equal.
  destruct (Ascii.eqb_spec c ",") as [->|H1]; [done|].
  destruct (Ascii.eqb_spec c ".") as [->|H2]; [done|].
  by destruct (Ascii.eqb_spec c ";") as [->|H3].
Qed.

Lemma swap_char_twice c :
  swap_char (swap_char c) = if Ascii.eqb c ";" then ","%char else c.
Proof.
  unfold swap_char.
  destruct (Ascii.eqb_spec c ",") as [->|H1]; [done|].
  destruct (Ascii.eqb_spec c ".") as [->|H2]; [done|].
  destruct (Ascii.eqb_spec c ";") as [->|H3]; [done|].
  by rewrite (proj2 (Ascii.eqb_neq c ",") H1), (proj2 (Ascii.eqb_neq c ".") H2),
    (proj2 (Ascii.eqb_neq c ";") H3).
Qed.

(** ** The cut of the suffix *)

Lemma strip_suffix_from_true_line s :
  has_char newline s = false -> strip_suffix_from true s = "".
Proof.
  induction s as [|c s IH]; [done|]. simpl.
  intros [Hc Hs]%orb_false_iff. unfold is_newline. rewrite Hc. auto.
Qed.

Lemma string_app_cons_inv c v pre t :
  String c v = pre +:+ t ->
  (pre = "" /\ t = String c v) \/ exists pre', pre = String c pre' /\ v = pre' +:+ t.
Proof.
  destruct pre as [|d pre']; [by left|].
  rewrite append_cons. intros [= -> ->]. right. eauto.
Qed.

Lemma strip_suffix_from_no_match s : forall b pre t,
  strip_suffix_from b s = pre +:+ t -> suffix_starts t = false.
Proof.
  induction s as [|c s IH]; intros b pre t.
  { destruct b, pre, t; simpl; try done. }
  destruct b.
  - cbn [strip_suffix_from]. destruct (is_newline c) eqn:Hc; [|apply IH].
    intros [[-> ->]|(pre' & -> & H)]%string_app_cons_inv; [|by eapply IH].
    apply FrameFacts.at_line_end_no_start. exact Hc.
  - rewrite FrameFacts.strip_suffix_from_false.
    destruct (suffix_starts (String c s)) eqn:E; [apply IH|].
    intros [[-> ->]|(pre' & -> & H)]%string_app_cons_inv; [|by eapply IH].
    by apply FrameFacts.no_new_start.
Qed.

Lemma strip_suffix_from_plain s :
  occurs " -" s = false -> strip_suffix_from false s = s.
Proof.
  induction s as [|c s IH]; [done|]. cbn [occurs].
  destruct (strip_prefix " -" (String c s)) as [r|] eqn:E; [done|].
  intros Hs. rewrite FrameFacts.strip_suffix_from_false.
  assert (Hno : suffix_starts (String c s) = false).
  { destruct s as [|d [|x s']]; try done. cbn [strip_prefix] in E. simpl.
    destruct (Ascii.eqb_spec c " ") as [->|]; [|done].
    destruct (Ascii.eqb_spec d "-") as [->|]; [|done]. done. }
  rewrite Hno. by rewrite IH.
Qed.

Lemma strip_suffix_from_cut a : forall x b,
  occurs " -" a = false -> has_char newline (String x b) = false ->
  strip_suffix_from false (a +:+ " -" +:+ String x b) = a.
Proof.
  induction a as [|c a IH]; intros x b Ha Hb.
  - change ("" +:+ " -" +:+ String x b)
      with (String " " (String "-" (String x b))).
    rewrite FrameFacts.strip_suffix_from_false.
    simpl in Hb. apply orb_false_iff in Hb as [Hx Hb].
    assert (Hs : suffix_starts (String " " (String "-" (String x b))) = true).
    { simpl. unfold is_newline. by rewrite Hx. }
    rewrite Hs. apply strip_suffix_from_true_line. simpl.
    by rewrite Hx, Hb.
  - rewrite append_cons, FrameFacts.strip_suffix_from_false.
    cbn [occurs] in Ha.
    destruct (strip_prefix " -" (String c a)) as [r|] eqn:E; [done|].
    assert (Hno : suffix_starts (String c (a +:+ " -" +:+ String x b)) = false).
    { destruct a as [|d a'].
      - change ("" +:+ " -" +:+ String x b)
          with (String " " (String "-" (String x b))).
        simpl. by rewrite andb_false_r.
      - rewrite append_cons. cbn [strip_prefix] in E.
        destruct a' as [|y a'']; simpl.
        + destruct (Ascii.eqb_spec c " ") as [->|]; [|done].
          destruct (Ascii.eqb_spec d "-") as [->|]; [|done]. done.
        + destruct (Ascii.eqb_spec c " ") as [->|]; [|done].
          destruct (Ascii.eqb_spec d "-") as [->|]; [|done]. done. }
    rewrite Hno. by rewrite IH.
Qed.

(** ** The search of the slug *)

Lemma strip_prefix_app p : forall s r,
  strip_prefix p s = Some r -> s = p +:+ r.
Proof.
  induction p as [|a p IH]; intros s r; simpl; [by intros [= ->]|].
  destruct s as [|b s]; [done|].
  destruct (Ascii.eqb_spec a b) as [->|]; [|done].
  intros H%IH. by rewrite append_cons, <- H.
Qed.

Lemma take_skip_line r : r = take_line r +:+ skip_line r.
Proof.
  induction r as [|c r IH]; [done|]. simpl.
  destruct (is_newline c); [done|]. by rewrite append_cons, <- IH.
Qed.

Lemma skip_line_at_line_end r : at_line_end (skip_line r).
Proof.
  induction r as [|c r IH]; [done|]. simpl.
  by destruct (is_newline c) eqn:E.
Qed.

Lemma take_line_one_line r : has_char newline (take_line r) = false.
Proof.
  induction r as [|c r IH]; [done|]. simpl.
  destruct (is_newline c) eqn:E; [done|]. simpl.
  unfold is_newline in E. by rewrite E.
Qed.

Lemma take_line_id r : has_char newline r = false -> take_line r = r.
Proof.
  induction r as [|c r IH]; [done|]. simpl.
  intros [Hc Hr]%orb_false_iff. unfold is_newline. rewrite Hc.
  by rewrite IH.
Qed.

Lemma search_restaurantes_None s :
  search_restaurantes s = None <-> occurs "restaurantes/" s = false.
Proof.
  induction s as [|c s IH]; [done|]. cbn [search_restaurantes occurs].
  by destruct (strip_prefix "restaurantes/" (String c s)).
Qed.

Lemma search_restaurantes_Some s : forall p,
  search_restaurantes s = Some p ->
  has_char newline p = false
  /\ exists pre rest,
       s = pre +:+ "restaurantes/" +:+ p +:+ rest /\ at_line_end rest.
Proof.
  induction s as [|c s IH]; intros p; [done|]. cbn [search_restaurantes].
  destruct (strip_prefix "restaurantes/" (String c s)) as [r|] eqn:E.
  - intros [= <-]. split; [apply take_line_one_line|].
    exists "", (skip_line r). split; [|apply skip_line_at_line_end].
    apply strip_prefix_app in E. rewrite E at 1.
    by rewrite <- take_skip_line.
  - intros (Hp & pre & rest & -> & Hrest)%IH. split; [done|].
    by exists (String c pre), rest.
Qed.

End TextFacts.

(** * Facts about the display of prices, continued *)

Module DisplayFacts.
Import PyFloat PriceFacts.

Lemma swap_char_digit c : is_digit c = true -> swap_char c = c.
Proof.
  intros H. destruct (is_digit_plain c H) as (_ & _ & _ & _ & Hp & Hc & _).
  unfold swap_char. rewrite Hc, Hp.
  destruct (Ascii.eqb_spec c ";") as [->|]; [by vm_compute in H|done].
Qed.

Lemma group_rev_digits l : forall cnt,
  Forall (fun c => is_digit c = true) l ->
  Forall (fun c => is_digit c = true \/ c = ","%char) (group_rev cnt l).
Proof.
  induction l as [|c l IH]; intros cnt H; [constructor|].
  apply Forall_cons in H as [Hc Hl].
  destruct cnt as [|[|[|[|cnt]]]]; simpl;
    repeat (constructor; [auto|]); by apply IH.
Qed.

Lemma thousands_digits l :
  forallb is_digit l = true ->
  Forall (fun c => is_digit c = true \/ c = ","%char) (thousands l).
Proof.
  intros H. unfold thousands. apply Forall_rev, group_rev_digits, Forall_rev.
  apply Forall_forall. intros c Hc%list_elem_of_In.
  rewrite forallb_forall in H. by apply H.
Qed.

(** The display of [k] hundredths. *)
Lemma display_cents s k :
  0 <= k ->
  exists body c1 c2,
    list_ascii_of_string
      (PyStr.swap_separators (string_of_list_ascii (sign_chars s ++ cents k)))
    = body ++ [","%char; c1; c2]
    /\ is_digit c1 = true /\ is_digit c2 = true
    /\ Forall (fun c => is_digit c = true \/ c = "."%char \/ c = "-"%char) body.
Proof.
  intros Hk. rewrite swap_separators_list, list_ascii_of_string_of_list_ascii.
  destruct (digits_of_spec (k / 100)) as (_ & Hd & _); [by apply Z.div_pos|].
  assert (Hr1 : 0 <= k mod 100 / 10 < 10).
  { split; [apply Z.div_pos; [apply Z.mod_pos_bound|]; lia|].
    apply Z.div_lt_upper_bound; [lia|]. pose proof (Z.mod_pos_bound k 100). lia. }
  destruct (digit_char_spec (k mod 100 / 10) Hr1) as [H1 _].
  destruct (digit_char_spec (k mod 10)) as [H2 _];
    [apply Z.mod_pos_bound; lia|].
  unfold cents.
  exists (map swap_char (sign_chars s ++ thousands (digits_of (k / 100)))),
    (digit_char (k mod 100 / 10)), (digit_char (k mod 10)).
  split; [|split; [done|split; [done|]]].
  - rewrite app_assoc, map_app. cbn [map].
    by rewrite (swap_char_digit _ H1), (swap_char_digit _ H2).
  - rewrite map_app. apply Forall_app. split.
    + destruct s; [|constructor].
      change (map swap_char (sign_chars true)) with ["-"%char].
      constructor; [|constructor]. right. by right.
    + apply Forall_map. eapply Forall_impl; [by apply thousands_digits|].
      intros c [Hc| ->]; [left; by rewrite swap_char_digit|right; by left].
Qed.

End DisplayFacts.

Module BlankFacts.
Import PyFloat DomFacts.

Lemma lstrip_snoc_space l c :
  is_space c = true ->
  lstrip (rev (lstrip (l ++ [c]))) = lstrip (rev (lstrip l)).
Proof.
  intros Hc. induction l as [|x l IH]; simpl.
  - by rewrite Hc.
  - destruct (is_space x); [done|].
    simpl. rewrite rev_app_distr. simpl. by rewrite Hc.
Qed.

Lemma strip_snoc_space l c : is_space c = true -> strip (l ++ [c]) = strip l.
Proof. intros Hc. unfold strip. by rewrite lstrip_snoc_space. Qed.

Lemma list_ascii_of_string_app s t :
  list_ascii_of_string (s +:+ t)
  = list_ascii_of_string s ++ list_ascii_of_string t.
Proof.
  induction s as [|c s IH]; [done|]. rewrite append_cons. simpl. by rewrite IH.
Qed.

Lemma float_of_string_blank s :
  float_of_string (s +:+ " ") = float_of_string s.
Proof.
  unfold float_of_string. rewrite list_ascii_of_string_app.
  change (list_ascii_of_string " ") with [" "%char].
  by rewrite strip_snoc_space.
Qed.

End BlankFacts.

Section Texts.
Import PyStr Frame DomFacts FloatFacts TextFacts DisplayFacts BlankFacts.

(** X15. A price text that holds a comma is not a number for [float()]:
    the conversion of the price columns raises on it. *)
Theorem comma_is_not_a_float s :
  has_char "," s = true ->
  PyFloat.float_of_string s = None
  /\ price_to_float (PriceStr s) = Raise ValueError.
Proof.
  intros H%float_of_string_comma. split; [done|]. simpl. by rewrite H.
Qed.

Lemma comma_is_not_a_float_witness :
  price_to_float (PriceStr "1,234.50") = Raise ValueError.
Proof. apply (comma_is_not_a_float "1,234.50"). reflexivity. Defined.

(** X16. The three replacements on a price text exchange the comma and
    the period, character by character, and turn a semicolon into a
    period; done twice they give the text back exactly when it holds no
    semicolon, the character they use in between. *)
Theorem swap_separators_exchanges :
  (forall s, list_ascii_of_string (swap_separators s)
             = map swap_char (list_ascii_of_string s))
  /\ (forall s, has_char ";" s = false ->
        swap_separators (swap_separators s) = s)
  /\ (forall s, has_char ";" s = true ->
        swap_separators (swap_separators s) <> s).
Proof.
  split; [|split].
  - intros s. induction s as [|c s IH]; [done|].
    rewrite swap_separators_cons. simpl. by rewrite IH.
  - intros s. induction s as [|c s IH]; [done|].
    simpl. intros [Hc Hs]%orb_false_iff.
    rewrite !swap_separators_cons, swap_char_twice, Hc. by rewrite IH.
  - intros s. induction s as [|c s IH]; [done|].
    rewrite !swap_separators_cons, swap_char_twice. simpl.
    destruct (Ascii.eqb_spec c ";") as [->|Hc]; [by intros _ [=]|].
    simpl. intros Hs [= H]. by apply IH.
Qed.

Lemma swap_separators_exchanges_witness :
  swap_separators "10,000.50" = "10.000,50"
  /\ swap_separators (swap_separators "10,000.50") = "10,000.50".
Proof.
  split; [reflexivity|].
  apply (proj1 (proj2 swap_separators_exchanges) "10,000.50"). reflexivity.
Defined.

(** X17. The cut of the suffix: a text is cut where a blank and a dash
    first come before one more character of the line, so a one-line name
    loses its branch; a text without a blank and a dash in a row stays as
    it is; and nothing that the pattern matches is left in the result. *)
Theorem strip_suffix_cuts_at_first_dash :
  (forall a x b,
     occurs " -" a = false -> has_char newline (String x b) = false ->
     strip_suffix (a +:+ " -" +:+ String x b) = a)
  /\ (forall s, occurs " -" s = false -> strip_suffix s = s)
  /\ (forall s pre t, strip_suffix s = pre +:+ t -> suffix_starts t = false).
Proof.
  split; [|split].
  - intros a x b. apply strip_suffix_from_cut.
  - apply strip_suffix_from_plain.
  - intros s. apply strip_suffix_from_no_match.
Qed.

Lemma strip_suffix_cuts_at_first_dash_witness :
  strip_suffix "KFC - Lima" = "KFC".
Proof.
  apply (proj1 strip_suffix_cuts_at_first_dash "KFC" " "%char "Lima");
    reflexivity.
Defined.

(** X18. The display of a finite price ends in a comma and two digits,
    and before the comma it holds digits, periods and the sign only; so
    it is no number for [float()], and the conversion of the price columns
    raises on a price that was cleaned before. *)
Theorem display_price_shape x s m e :
  Prim2SF x = S754_finite s m e ->
  (exists body c1 c2,
     list_ascii_of_string (display_price x) = body ++ [","%char; c1; c2]
     /\ PyFloat.is_digit c1 = true /\ PyFloat.is_digit c2 = true
     /\ Forall (fun c => PyFloat.is_digit c = true \/ c = "."%char
                         \/ c = "-"%char) body)
  /\ price_to_float (PriceStr (display_price x)) = Raise ValueError.
Proof.
  intros H.
  assert (Hshape : exists body c1 c2,
     list_ascii_of_string (display_price x) = body ++ [","%char; c1; c2]
     /\ PyFloat.is_digit c1 = true /\ PyFloat.is_digit c2 = true
     /\ Forall (fun c => PyFloat.is_digit c = true \/ c = "."%char
                         \/ c = "-"%char) body).
  { unfold display_price, PyFloat.format_2f. rewrite H.
    apply display_cents, PriceFacts.hundredths_nonneg. }
  split; [exact Hshape|].
  destruct Hshape as (body & c1 & c2 & Hd & _).
  simpl. rewrite float_of_string_comma; [done|]. apply has_char_In.
  rewrite Hd.
  apply in_or_app. right. by left.
Qed.

Lemma display_price_shape_witness :
  display_price 10000.5 = "10.000,50"
  /\ price_to_float (PriceStr (display_price 10000.5)) = Raise ValueError.
Proof.
  split; [vm_compute; reflexivity|].
  apply (display_price_shape 10000.5 false 5497833016786944 (-39)).
  vm_compute. reflexivity.
Defined.

(** X19. The pattern of the request of a restaurant is what follows the
    first restaurantes/ in its link, up to the end of the line: the slug
    of a link of the site. A link without that word has no pattern; then
    the task fails after it recorded the link, and the restaurant is
    queued with it. *)
Theorem search_restaurantes_finds_slug :
  (forall slug, has_char newline slug = false ->
     search_restaurantes ("https://www.rappi.com.pe/restaurantes/" +:+ slug)
     = Some slug)
  /\ (forall s p, search_restaurantes s = Some p ->
        has_char newline p = false
        /\ exists pre rest,
             s = pre +:+ "restaurantes/" +:+ p +:+ rest /\ at_line_end rest)
  /\ (forall s, search_restaurantes s = None
                <-> occurs "restaurantes/" s = false)
  /\ (forall w r st url who,
        perform r = Ok () -> href r = Ok (Some url) -> aria_label r = Ok who ->
        occurs "restaurantes/" url = false ->
        (extract_products w r st).2 = Ok []
        /\ _restaurants (extract_products w r st).1
           = _restaurants st ++ [Some url]
        /\ _links_to_go (extract_products w r st).1
           = _links_to_go st
               ++ [(who, Some url,
                    match status_text r with
                    | Ok s => s
                    | Raise _ => "Restaurante abierto"
                    end)]
        /\ num_errors (_metadata (extract_products w r st).1)
           = num_errors (_metadata st) + 1).
Proof.
  split; [|split; [|split]].
  - intros slug Hs.
    change (search_restaurantes
              ("https://www.rappi.com.pe/restaurantes/" +:+ slug))
      with (Some (take_line slug)).
    by rewrite take_line_id.
  - apply search_restaurantes_Some.
  - apply search_restaurantes_None.
  - intros w r st url who Hp Hl Ha Hno%search_restaurantes_None.
    unfold extract_products, extract_products_except.
    by rewrite Hp, Hl, Hno, Ha.
Qed.

Lemma search_restaurantes_finds_slug_witness :
  search_restaurantes "https://www.rappi.com.pe/restaurantes/1-kfc"
  = Some "1-kfc".
Proof.
  apply (proj1 search_restaurantes_finds_slug "1-kfc"). reflexivity.
Defined.

(** X20. A blank after or before a price text does not change the
    number the conversion of the price columns reads, nor whether it
    raises: the discounted price of a card with two prices, which the
    split leaves with the blank that stood before the second prefix, is
    read as the amount it holds. *)
Theorem surrounding_blank_is_read s :
  price_to_float (PriceStr (s +:+ " ")) = price_to_float (PriceStr s)
  /\ price_to_float (PriceStr (" " +:+ s)) = price_to_float (PriceStr s).
Proof.
  split; simpl; [by rewrite float_of_string_blank|]. done.
Qed.

End Texts.

(** * The name of the data file *)

Module NameFacts.
Import PyFloat PriceFacts DomFacts BlankFacts.

Lemma str_int_digits q :
  0 <= q ->
  str_int q = string_of_list_ascii (digits_of q)
  /\ forallb is_digit (digits_of q) = true
  /\ Z_of_digits (map digit_val (digits_of q)) = q.
Proof.
  intros Hq. unfold str_int.
  destruct (digits_of_spec q Hq) as (_ & Hd & Hv).
  rewrite Z.abs_eq by done. by rewrite (proj2 (Z.ltb_ge q 0)) by done.
Qed.

Lemma str_int_inj q1 q2 ext :
  0 <= q1 -> 0 <= q2 -> str_int q1 +:+ ext = str_int q2 +:+ ext -> q1 = q2.
Proof.
  intros H1 H2 Heq.
  destruct (str_int_digits q1 H1) as (E1 & _ & V1).
  destruct (str_int_digits q2 H2) as (E2 & _ & V2).
  rewrite E1, E2 in Heq.
  apply (f_equal list_ascii_of_string) in Heq.
  rewrite !list_ascii_of_string_app, !list_ascii_of_string_of_list_ascii in Heq.
  apply app_inv_tail in Heq. by rewrite <- V1, <- V2, Heq.
Qed.

End NameFacts.

Section Names.
Import PyFloat NameFacts.

(** X21. The name of the data file ends in the number of records, in
    decimal digits, before its extension: read back, the digits give the
    number of rows of the file; so two data files of one day have the same
    name exactly when they have as many rows, and then the second one
    replaces the first. *)
Theorem data_filename_tells_count filename today :
  (forall q, 0 <= q ->
     data_filename filename today q
     = filename +:+ "_" +:+ today +:+ "_"
         +:+ string_of_list_ascii (digits_of q) +:+ ".csv"
     /\ forallb is_digit (digits_of q) = true
     /\ Z_of_digits (map digit_val (digits_of q)) = q)
  /\ (forall q1 q2, 0 <= q1 -> 0 <= q2 ->
        data_filename filename today q1 = data_filename filename today q2 ->
        q1 = q2).
Proof.
  split.
  - intros q Hq. unfold data_filename.
    by destruct (str_int_digits q Hq) as (-> & Hd & Hv).
  - intros q1 q2 H1 H2. unfold data_filename.
    intros Heq. do 4 apply String.app_inj in Heq.
    by apply (str_int_inj q1 q2 ".csv").
Qed.

Lemma data_filename_tells_count_witness :
  data_filename "productos" "2024-01-01" 1250
  = "productos_2024-01-01_1250.csv"
  /\ Z_of_digits (map digit_val (digits_of 1250)) = 1250.
Proof.
  split; [vm_compute; reflexivity|].
  by destruct (proj1 (data_filename_tells_count "productos" "2024-01-01")
                 1250) as (_ & _ & H).
Defined.

End Names.

(** * The report *)

Module ReportFacts.
Import Report.

Lemma getitem_elem_of t wb : is_Some (getitem t wb) <-> t ∈ map title wb.
Proof.
  induction wb as [|ws wb IH]; simpl.
  - split; [by intros [? ?]|by intros ?%elem_of_nil].
  - rewrite elem_of_cons. destruct (String.eqb_spec (title ws) t) as [<-|Hne].
    + split; [by left|by eexists].
    + rewrite IH. split; [by right|]. by intros [?|?].
Qed.

Lemma getitem_append t r wb :
  getitem t (append t r wb) = (fun rs => rs ++ [r]) <$> getitem t wb.
Proof.
  induction wb as [|ws wb IH]; simpl; [done|].
  destruct (String.eqb_spec (title ws) t) as [E|Hne]; simpl.
  - by rewrite (proj2 (String.eqb_eq _ _) E).
  - by rewrite (proj2 (String.eqb_neq _ _) Hne).
Qed.

Lemma getitem_append_ne t u r wb :
  u <> t -> getitem u (append t r wb) = getitem u wb.
Proof.
  intros Hne. induction wb as [|ws wb IH]; simpl; [done|].
  destruct (String.eqb_spec (title ws) t) as [E|Ht]; simpl.
  - rewrite E. by rewrite (proj2 (String.eqb_neq t u)) by done.
  - by rewrite IH.
Qed.

Lemma getitem_None t wb : getitem t wb = None <-> t ∉ map title wb.
Proof.
  rewrite <- getitem_elem_of. destruct (getitem t wb) as [rs|].
  - split; [done|]. intros H. destruct H. by eexists.
  - split; [|done]. by intros _ [? ?].
Qed.

Lemma title_append t r wb : map title (append t r wb) = map title wb.
Proof.
  induction wb as [|ws wb IH]; simpl; [done|].
  destruct (String.eqb (title ws) t); simpl; by rewrite ?IH.
Qed.

Lemma getitem_snoc t u wb :
  getitem u (wb ++ [ {| title := t; rows := [] |} ])
  = match getitem u wb with
    | Some rs => Some rs
    | None => if String.eqb t u then Some [] else None
    end.
Proof.
  induction wb as [|ws wb IH]; simpl; [done|].
  by destruct (String.eqb (title ws) u).
Qed.

(** A run on a file that has the sheet: the library is not asked. *)
Lemma save_metadata_found c lib m m' wb name rs :
  set_attributes_values c m = Ok m' -> getitem name wb = Some rs ->
  save_metadata c lib m (Some wb) name = Ok (append name (values m') wb).
Proof.
  intros Hm Hrs. unfold save_metadata, open_workbook. rewrite Hm.
  rewrite bool_decide_eq_true_2 by (apply getitem_elem_of; by eexists).
  by rewrite Hrs.
Qed.

(** A run on a file without the sheet. *)
Lemma save_metadata_created c lib m m' wb name :
  set_attributes_values c m = Ok m' -> getitem name wb = None ->
  save_metadata c lib m (Some wb) name
  = match created_title lib (map title wb) name with
    | Ok t =>
        if String.eqb t name
        then Ok (append name (values m')
                   (append name keys
                      (wb ++ [ {| title := name; rows := [] |} ])))
        else Raise KeyError
    | Raise e => Raise e
    end.
Proof.
  intros Hm Hno. unfold save_metadata, open_workbook, create_sheet. rewrite Hm.
  rewrite bool_decide_eq_false_2 by by apply getitem_None.
  destruct (created_title lib (map title wb) name) as [t|e]; [|done].
  rewrite getitem_snoc, Hno.
  destruct (String.eqb_spec t name) as [->|Hne]; done.
Qed.

(** A run without a file. *)
Lemma save_metadata_new c lib m m' name :
  set_attributes_values c m = Ok m' ->
  save_metadata c lib m None name
  = match renamed_title lib "Sheet" ["Sheet"] name with
    | Ok t =>
        if String.eqb t name
        then Ok [ {| title := name; rows := [keys; values m'] |} ]
        else Raise KeyError
    | Raise e => Raise e
    end.
Proof.
  intros Hm. unfold save_metadata, open_workbook. rewrite Hm. simpl.
  destruct (renamed_title lib "Sheet" ["Sheet"] name) as [t|e]; [|done].
  simpl. destruct (String.eqb_spec t name) as [->|Hne]; [|done].
  simpl. by rewrite !String.eqb_refl.
Qed.

Lemma set_attributes_values_counters c m m' :
  set_attributes_values c m = Ok m' ->
  _quantity m' = _quantity m /\ _num_errors m' = _num_errors m
  /\ _execution_date m' = _execution_date m /\ _start_hour m' = _start_hour m
  /\ (PrimFloat.ltb 0 (PrimFloat.sub (time c) (_start_time m)) = false ->
      _time_execution m' = _time_execution m
      /\ _products_per_min m' = _products_per_min m).
Proof.
  unfold set_attributes_values.
  destruct (PrimFloat.ltb 0 (PrimFloat.sub (time c) (_start_time m))).
  - destruct (timedelta_text c _); [|done]. by intros [= <-].
  - by intros [= <-].
Qed.

(** The runs on a file that has the sheet. *)
Lemma runs_spec lib name l : forall wb rs,
  Forall (fun cm => ~ raises (set_attributes_values cm.1 cm.2)) l ->
  getitem name wb = Some rs ->
  exists wb',
    runs lib l (Some wb) name = Some wb'
    /\ getitem name wb' = Some (rs ++ map row_of l)
    /\ map title wb' = map title wb
    /\ forall u, u <> name -> getitem u wb' = getitem u wb.
Proof.
  induction l as [|[c m] l IH]; intros wb rs Hall Hrs; simpl.
  - exists wb. by rewrite app_nil_r.
  - apply Forall_cons in Hall as [Hm Hall]. simpl in Hm.
    destruct (set_attributes_values c m) as [m'|e] eqn:E; [|by destruct Hm].
    rewrite (save_metadata_found c lib m m' wb name rs E Hrs).
    destruct (IH (append name (values m') wb) (rs ++ [values m']) Hall)
      as (wb' & Hruns & Hget & Ht & Hu).
    { by rewrite getitem_append, Hrs. }
    exists wb'. split; [done|]. split; [|split].
    + rewrite Hget. unfold row_of at 2. simpl. by rewrite E, <- app_assoc.
    + by rewrite Ht, title_append.
    + intros u Hne. by rewrite Hu, getitem_append_ne.
Qed.

End ReportFacts.

Section Reports.
Import Report ReportFacts.

(** X22. A run whose clock gives a row, on a file that loads. When the
    file has the sheet, the run saves the workbook with the row of the
    run after the rows of the sheet, and nothing else changed. When the
    file or the sheet is not there, the sheet gets the title the library
    gives it: if that is the name asked for, the run saves the workbook
    with the new sheet, which holds the header and the row; if it is
    another title, the sheet is not found by its name and the run raises
    [KeyError] and saves nothing; if the library raises, so does the run.
    The row has the seven cells of the header, the counters of the
    scraper under Cantidad and Errores; when the clock did not advance,
    the duration and the rate are left as they were. Once a run has saved
    the workbook, the runs that follow add their rows to the sheet in
    order, with no other header and no other sheet, whatever the library
    does with titles. *)
Theorem report_sheet_header_once c lib m m' name :
  set_attributes_values c m = Ok m' ->
  (forall wb rs,
     getitem name wb = Some rs ->
     exists wb',
       save_metadata c lib m (Some wb) name = Ok wb'
       /\ getitem name wb' = Some (rs ++ [values m'])
       /\ map title wb' = map title wb
       /\ forall u, u <> name -> getitem u wb' = getitem u wb)
  /\ (forall wb,
        getitem name wb = None ->
        match created_title lib (map title wb) name with
        | Ok t =>
            if String.eqb t name
            then exists wb',
                   save_metadata c lib m (Some wb) name = Ok wb'
                   /\ getitem name wb' = Some [keys; values m']
                   /\ map title wb' = map title wb ++ [name]
                   /\ forall u, u <> name -> getitem u wb' = getitem u wb
            else save_metadata c lib m (Some wb) name = Raise KeyError
        | Raise e => save_metadata c lib m (Some wb) name = Raise e
        end)
  /\ save_metadata c lib m None name
     = match renamed_title lib "Sheet" ["Sheet"] name with
       | Ok t =>
           if String.eqb t name
           then Ok [ {| title := name; rows := [keys; values m'] |} ]
           else Raise KeyError
       | Raise e => Raise e
       end
  /\ (exists date start_hour end_hour duration rate,
        values m' = [Text date; Text start_hour; Text end_hour;
                     Int (_quantity m); Text duration; rate;
                     Int (_num_errors m)])
  /\ length (values m') = length keys
  /\ (PrimFloat.ltb 0 (PrimFloat.sub (time c) (_start_time m)) = false ->
      _time_execution m' = _time_execution m
      /\ _products_per_min m' = _products_per_min m)
  /\ (forall l file wb,
        Forall (fun cm => ~ raises (set_attributes_values cm.1 cm.2)) l ->
        save_metadata c lib m file name = Ok wb ->
        exists rs wb',
          getitem name wb = Some rs
          /\ runs lib ((c, m) :: l) file name = Some wb'
          /\ getitem name wb' = Some (rs ++ map row_of l)
          /\ map title wb' = map title wb
          /\ forall u, u <> name -> getitem u wb' = getitem u wb).
Proof.
  intros Hm. split; [|split; [|split; [|split; [|split; [|split]]]]].
  - intros wb rs Hrs. eexists. split; [by eapply save_metadata_found|].
    split; [by rewrite getitem_append, Hrs|]. split; [apply title_append|].
    intros u Hne. by rewrite getitem_append_ne.
  - intros wb Hno. rewrite (save_metadata_created c lib m m' wb name Hm Hno).
    destruct (created_title lib (map title wb) name) as [t|e]; [|done].
    destruct (String.eqb t name); [|done].
    eexists. split; [done|]. split; [|split].
    + by rewrite !getitem_append, getitem_snoc, Hno, String.eqb_refl.
    + by rewrite !title_append, map_app.
    + intros u Hne. rewrite !getitem_append_ne, getitem_snoc by done.
      destruct (getitem u wb); [done|].
      by rewrite (proj2 (String.eqb_neq name u)) by done.
  - by apply save_metadata_new.
  - destruct (set_attributes_values_counters c m m' Hm) as (<- & <- & _).
    by eexists _, _, _, _, _.
  - done.
  - by destruct (set_attributes_values_counters c m m' Hm) as (_ & _ & _ & _ & H).
  - intros l file wb Hall Hsave.
    assert (Hin : is_Some (getitem name wb)).
    { unfold save_metadata in Hsave. rewrite Hm in Hsave.
      destruct (open_workbook lib file name) as [[wb0 h]|e]; [|done].
      destruct (getitem name wb0) as [rs0|] eqn:H0; [|done].
      injection Hsave as <-. rewrite getitem_append.
      destruct h; [by rewrite H0|]. by rewrite getitem_append, H0. }
    destruct Hin as [rs Hrs]. cbn [runs]. rewrite Hsave.
    destruct (runs_spec lib name l wb rs Hall Hrs) as (wb' & H1 & H2 & H3 & H4).
    by exists rs, wb'.
Qed.

Lemma report_sheet_header_once_witness :
  set_attributes_values one_minute thirty
  = Ok {| _start_time := 40; _end_time := 100;
          _execution_date := "01/01/2024";
          _start_hour := "10:00:00"; _end_hour := "10:01:00";
          _quantity := 30; _time_execution := "0:01:00";
          _products_per_min := Float 30; _num_errors := 1 |}
  /\ save_metadata one_minute numbering thirty None "Metadata"
     = Ok [ {| title := "Metadata";
               rows := [keys;
                        [Text "01/01/2024"; Text "10:00:00"; Text "10:01:00";
                         Int 30; Text "0:01:00"; Float 30; Int 1]] |} ]
  /\ save_metadata one_minute numbering thirty
       (Some [ {| title := "metadata"; rows := [] |} ]) "Metadata"
     = Raise KeyError.
Proof.
  assert (H : set_attributes_values one_minute thirty
              = Ok {| _start_time := 40; _end_time := 100;
                      _execution_date := "01/01/2024";
                      _start_hour := "10:00:00"; _end_hour := "10:01:00";
                      _quantity := 30; _time_execution := "0:01:00";
                      _products_per_min := Float 30; _num_errors := 1 |})
    by (vm_compute; reflexivity).
  split; [exact H|].
  destruct (report_sheet_header_once one_minute numbering thirty _ "Metadata" H)
    as (_ & Hmade & Hnew & _).
  split.
  - rewrite Hnew. reflexivity.
  - exact (Hmade [ {| title := "metadata"; rows := [] |} ] eq_refl).
Defined.

End Reports.
